(** * StackFast developer-tools API: entity model, query layer and endpoints

    A shallow embedding of [src/models/tool.py], [src/routes/tools.py] and the
    field parsers of [src/import_data.py], with the properties of the
    catalogue's specification stated and proved over it.

    Conventions of the embedding.
    - A Python [str] is the list of its Unicode code points ([pystr]).
    - A Python value that travels through JSON is a [pyval].
    - A Python [dict] that a request brings (the JSON payload, the query
      arguments) is a [gmap pystr _]; a dict literal that the code builds for
      a response is a [PDict] with its items in the order of the source.
    - A Python call that may raise is a value of [exc].
    - The table is the list of its rows; the clock is an argument of the
      endpoints that write. *)

From Stdlib Require Import ZArith NArith List Ascii String Bool Lia.
From stdpp Require Import base option list gmap.

Import ListNotations.
Local Open Scope Z_scope.

(** ** Python strings *)

Definition pystr := list N.

(** [str "abc"] is the Python literal ['abc']. *)
Definition str (s : string) : pystr :=
  List.map N_of_ascii (list_ascii_of_string s).

Definition pystr_eqb (a b : pystr) : bool := bool_decide (a = b).

(** [str.isspace] on one code point: the characters [str.strip] removes. *)
Definition py_isspace (c : N) : bool :=
  ((9 <=? c) && (c <=? 13) || (28 <=? c) && (c <=? 32)
   || (c =? 133) || (c =? 160) || (c =? 5760)
   || (8192 <=? c) && (c <=? 8202)
   || (c =? 8232) || (c =? 8233) || (c =? 8239) || (c =? 8287)
   || (c =? 12288))%N.

Fixpoint lstrip (s : pystr) : pystr :=
  match s with
  | c :: s' => if py_isspace c then lstrip s' else s
  | [] => []
  end.

Definition rstrip (s : pystr) : pystr := rev (lstrip (rev s)).

(** [s.strip()] *)
Definition strip (s : pystr) : pystr := rstrip (lstrip s).

(** [s.split(sep)] for a one-character separator: never empty. *)
Fixpoint split (sep : N) (s : pystr) : list pystr :=
  match s with
  | [] => [[]]
  | c :: s' =>
      if (c =? sep)%N then [] :: split sep s'
      else match split sep s' with
           | w :: ws => (c :: w) :: ws
           | [] => [[c]]
           end
  end.

Definition comma : N := 44.

(** ASCII digits and [int(s)] for a decimal string: surrounding white space,
    an optional sign, then digits that single underscores may separate.
    Digits outside ASCII are not modelled. *)
Definition is_digit (c : N) : bool := ((48 <=? c) && (c <=? 57))%N.
Definition digit_val (c : N) : Z := Z.of_N c - 48.

(** [digits_acc seen acc s]: [seen] tells that the previous character was a
    digit (an underscore is legal only between two digits). *)
Fixpoint digits_acc (seen : bool) (acc : Z) (s : pystr) : option Z :=
  match s with
  | [] => if seen then Some acc else None
  | c :: s' =>
      if is_digit c then digits_acc true (10 * acc + digit_val c) s'
      else if (c =? 95)%N && seen then
        match s' with
        | d :: _ => if is_digit d then digits_acc false acc s' else None
        | [] => None
        end
      else None
  end.

Definition py_int (s : pystr) : option Z :=
  match strip s with
  | c :: r =>
      if (c =? 45)%N then option_map Z.opp (digits_acc false 0 r)
      else if (c =? 43)%N then digits_acc false 0 r
      else digits_acc false 0 (c :: r)
  | [] => None
  end.

(** [str(n)] for an integer. *)
Fixpoint digits_of_pos (fuel : nat) (n : Z) (acc : pystr) : pystr :=
  match fuel with
  | O => acc
  | S f =>
      let acc' := Z.to_N (48 + n mod 10) :: acc in
      if n <? 10 then acc' else digits_of_pos f (n / 10) acc'
  end.

Definition py_str_of_int (z : Z) : pystr :=
  if z <? 0 then 45%N :: digits_of_pos (Z.to_nat (Z.log2 (- z)) + 1) (- z) []
  else digits_of_pos (Z.to_nat (Z.log2 z) + 1) z [].

(** ** Python values and exceptions *)

(** A float is kept as the numeral that denotes it: no property below depends
    on the numeric value of a float. *)
#[local] Unset Elimination Schemes.
Inductive pyval :=
| PNone
| PBool (b : bool)
| PInt (z : Z)
| PFloat (numeral : pystr)
| PStr (s : pystr)
| PList (l : list pyval)
| PDict (d : list (pystr * pyval)).
#[local] Set Elimination Schemes.

Inductive exn :=
| JSONDecodeError
| ValueError
| TypeError
| AttributeError
| IntegrityError.

Inductive exc (A : Type) :=
| Ok (a : A)
| Raise (e : exn).
Arguments Ok {A} a.
Arguments Raise {A} e.

Definition exc_bind {A B} (m : exc A) (k : A -> exc B) : exc B :=
  match m with Ok a => k a | Raise e => Raise e end.

(** [try: m except (handled): h] *)
Definition try_except {A} (m : exc A) (handled : exn -> bool) (h : exc A) : exc A :=
  match m with
  | Ok a => Ok a
  | Raise e => if handled e then h else Raise e
  end.

(** Truth value of a Python object ([if x:]). *)
Definition numeral_nonzero (s : pystr) : bool :=
  existsb (fun c => (49 <=? c) && (c <=? 57) || (c =? 78) || (c =? 73))%N
          (List.filter (fun c => negb ((c =? 101) || (c =? 69)))%N s).

Definition py_truthy (v : pyval) : bool :=
  match v with
  | PNone => false
  | PBool b => b
  | PInt z => negb (z =? 0)
  | PFloat n => numeral_nonzero n
  | PStr s => match s with [] => false | _ => true end
  | PList l => match l with [] => false | _ => true end
  | PDict d => match d with [] => false | _ => true end
  end.

(** [a == b] on Python values; [True == 1] and [False == 0] as in Python.
    Floats are compared by their numerals. *)
Fixpoint py_eq (a b : pyval) : bool :=
  match a, b with
  | PNone, PNone => true
  | PBool x, PBool y => Bool.eqb x y
  | PBool x, PInt z | PInt z, PBool x => z =? (if x then 1 else 0)
  | PInt x, PInt y => x =? y
  | PFloat x, PFloat y => pystr_eqb x y
  | PStr x, PStr y => pystr_eqb x y
  | PList x, PList y =>
      (fix go (x y : list pyval) : bool :=
         match x, y with
         | [], [] => true
         | u :: x', v :: y' => py_eq u v && go x' y'
         | _, _ => false
         end) x y
  | PDict x, PDict y =>
      (fix go (x y : list (pystr * pyval)) : bool :=
         match x, y with
         | [], [] => true
         | (k, u) :: x', (k', v) :: y' => pystr_eqb k k' && py_eq u v && go x' y'
         | _, _ => false
         end) x y
  | _, _ => false
  end.

(** ** The [json] module *)

(** *** [json.loads] *)

Inductive presult :=
| POk (v : pyval) (rest : pystr)
| PErr
| PFuel.

Definition json_ws (c : N) : bool :=
  ((c =? 32) || (c =? 9) || (c =? 10) || (c =? 13))%N.

Fixpoint skip_ws (s : pystr) : pystr :=
  match s with
  | c :: s' => if json_ws c then skip_ws s' else s
  | [] => []
  end.

Definition hex_val (c : N) : option N :=
  (if (48 <=? c) && (c <=? 57) then Some (c - 48)
   else if (97 <=? c) && (c <=? 102) then Some (c - 87)
   else if (65 <=? c) && (c <=? 70) then Some (c - 55)
   else None)%N.

Definition hex4 (a b c d : N) : option N :=
  match hex_val a, hex_val b, hex_val c, hex_val d with
  | Some x, Some y, Some z, Some w => Some (((x * 16 + y) * 16 + z) * 16 + w)%N
  | _, _, _, _ => None
  end.

(** The character a one-letter escape stands for. *)
Definition escape_char (e : N) : option N :=
  (if e =? 34 then Some 34 else if e =? 92 then Some 92
   else if e =? 47 then Some 47 else if e =? 98 then Some 8
   else if e =? 102 then Some 12 else if e =? 110 then Some 10
   else if e =? 114 then Some 13 else if e =? 116 then Some 9
   else None)%N.

(** The body of a string literal, after its opening quote, up to the closing
    quote. Each unit is tagged: [true] for one written as a [\uXXXX] escape.
    Control characters are refused (the decoder is strict). *)
Fixpoint scan_units (s : pystr) : option (list (bool * N) * pystr) :=
  match s with
  | [] => None
  | c :: r =>
      if (c =? 34)%N then Some ([], r)
      else if (c =? 92)%N then
        match r with
        | [] => None
        | e :: r' =>
            if (e =? 117)%N then
              match r' with
              | a :: b :: c' :: d :: r'' =>
                  match hex4 a b c' d with
                  | Some u =>
                      match scan_units r'' with
                      | Some (us, rest) => Some ((true, u) :: us, rest)
                      | None => None
                      end
                  | None => None
                  end
              | _ => None
              end
            else
              match escape_char e with
              | Some x =>
                  match scan_units r' with
                  | Some (us, rest) => Some ((false, x) :: us, rest)
                  | None => None
                  end
              | None => None
              end
        end
      else if (c <? 32)%N then None
      else
        match scan_units r with
        | Some (us, rest) => Some ((false, c) :: us, rest)
        | None => None
        end
  end.

Definition is_high_surrogate (u : N) : bool := ((55296 <=? u) && (u <=? 56319))%N.
Definition is_low_surrogate (u : N) : bool := ((56320 <=? u) && (u <=? 57343))%N.

(** An escaped high surrogate directly followed by an escaped low surrogate
    is one code point. *)
Fixpoint join_surrogates (us : list (bool * N)) : pystr :=
  match us with
  | [] => []
  | (esc, u) :: us' =>
      match us' with
      | (esc2, u2) :: us'' =>
          if esc && esc2 && is_high_surrogate u && is_low_surrogate u2
          then (65536 + ((u - 55296) * 1024 + (u2 - 56320)))%N :: join_surrogates us''
          else u :: join_surrogates us'
      | [] => [u]
      end
  end.

Definition scanstring (s : pystr) : option (pystr * pystr) :=
  match scan_units s with
  | Some (us, rest) => Some (join_surrogates us, rest)
  | None => None
  end.

(** The longest prefix of digits, and what follows it. *)
Fixpoint span_digits (s : pystr) : pystr * pystr :=
  match s with
  | c :: s' =>
      if is_digit c then let (ds, r) := span_digits s' in (c :: ds, r)
      else ([], s)
  | [] => ([], [])
  end.

Fixpoint digits_value (acc : Z) (ds : pystr) : Z :=
  match ds with
  | [] => acc
  | c :: ds' => digits_value (10 * acc + digit_val c) ds'
  end.

Fixpoint starts_with (p s : pystr) : option pystr :=
  match p, s with
  | [], _ => Some s
  | a :: p', b :: s' => if (a =? b)%N then starts_with p' s' else None
  | _ :: _, [] => None
  end.

(** The integer part of a number: [0], or a digit [1-9] and more digits. *)
Definition scan_intpart (s : pystr) : option (pystr * pystr) :=
  match s with
  | c :: r =>
      if (c =? 48)%N then Some ([c], r)
      else if is_digit c then let (ds, r') := span_digits r in Some (c :: ds, r')
      else None
  | [] => None
  end.

(** An optional fraction [.digits]: what it matched and what follows. *)
Definition scan_frac (s : pystr) : pystr * pystr :=
  match s with
  | c :: r =>
      if (c =? 46)%N then
        match span_digits r with
        | ([], _) => ([], s)
        | (ds, r') => (c :: ds, r')
        end
      else ([], s)
  | [] => ([], [])
  end.

(** An optional exponent [e], [E], a sign, digits. *)
Definition scan_exp (s : pystr) : pystr * pystr :=
  match s with
  | c :: r =>
      if ((c =? 101) || (c =? 69))%N then
        match r with
        | sg :: r1 =>
            if ((sg =? 43) || (sg =? 45))%N then
              match span_digits r1 with
              | ([], _) => ([], s)
              | (ds, r') => (c :: sg :: ds, r')
              end
            else
              match span_digits r with
              | ([], _) => ([], s)
              | (ds, r') => (c :: ds, r')
              end
        | [] => ([], s)
        end
      else ([], s)
  | [] => ([], [])
  end.

(** A number, or one of the constants [NaN], [Infinity], [-Infinity] that
    Python's decoder accepts. *)
Definition scan_number (s : pystr) : presult :=
  let (neg, s1) :=
    match s with
    | c :: r => if (c =? 45)%N then (true, r) else (false, s)
    | [] => (false, s)
    end in
  match scan_intpart s1 with
  | Some (ds, r) =>
      let (fr, r1) := scan_frac r in
      let (ex, r2) := scan_exp r1 in
      match fr, ex with
      | [], [] =>
          POk (PInt (if neg then - digits_value 0 ds else digits_value 0 ds)) r2
      | _, _ => POk (PFloat ((if neg then [45%N] else []) ++ ds ++ fr ++ ex)) r2
      end
  | None =>
      match starts_with (str "NaN") s with
      | Some r => POk (PFloat (str "NaN")) r
      | None =>
          match starts_with (str "Infinity") s with
          | Some r => POk (PFloat (str "Infinity")) r
          | None =>
              match starts_with (str "-Infinity") s with
              | Some r => POk (PFloat (str "-Infinity")) r
              | None => PErr
              end
          end
      end
  end.

(** One JSON value at the head of [s]. [fuel] bounds the nesting and the
    number of elements; [json_loads] gives enough of it. An object keeps its
    members in the order of the text. *)
Fixpoint parse_value (fuel : nat) (s : pystr) : presult :=
  match s with
  | [] => PErr
  | c :: r =>
      if (c =? 34)%N then
        match scanstring r with
        | Some (x, r') => POk (PStr x) r'
        | None => PErr
        end
      else if (c =? 123)%N then
        match fuel with
        | O => PFuel
        | S f =>
            match skip_ws r with
            | c' :: r' =>
                if (c' =? 125)%N then POk (PDict []) r'
                else parse_members f (c' :: r') []
            | [] => PErr
            end
        end
      else if (c =? 91)%N then
        match fuel with
        | O => PFuel
        | S f =>
            match skip_ws r with
            | c' :: r' =>
                if (c' =? 93)%N then POk (PList []) r'
                else parse_elements f (c' :: r') []
            | [] => PErr
            end
        end
      else
        match starts_with (str "null") s with
        | Some r' => POk PNone r'
        | None =>
            match starts_with (str "true") s with
            | Some r' => POk (PBool true) r'
            | None =>
                match starts_with (str "false") s with
                | Some r' => POk (PBool false) r'
                | None => scan_number s
                end
            end
        end
  end
with parse_elements (fuel : nat) (s : pystr) (acc : list pyval) : presult :=
  match fuel with
  | O => PFuel
  | S f =>
      match parse_value f s with
      | POk v r =>
          match skip_ws r with
          | c :: r' =>
              if (c =? 93)%N then POk (PList (rev (v :: acc))) r'
              else if (c =? 44)%N then parse_elements f (skip_ws r') (v :: acc)
              else PErr
          | [] => PErr
          end
      | PErr => PErr
      | PFuel => PFuel
      end
  end
with parse_members (fuel : nat) (s : pystr) (acc : list (pystr * pyval)) : presult :=
  match fuel with
  | O => PFuel
  | S f =>
      match s with
      | q :: r =>
          if (q =? 34)%N then
            match scanstring r with
            | Some (k, r1) =>
                match skip_ws r1 with
                | c :: r2 =>
                    if (c =? 58)%N then
                      match parse_value f (skip_ws r2) with
                      | POk v r3 =>
                          match skip_ws r3 with
                          | c' :: r4 =>
                              if (c' =? 125)%N then POk (PDict (rev ((k, v) :: acc))) r4
                              else if (c' =? 44)%N
                              then parse_members f (skip_ws r4) ((k, v) :: acc)
                              else PErr
                          | [] => PErr
                          end
                      | PErr => PErr
                      | PFuel => PFuel
                      end
                    else PErr
                | [] => PErr
                end
            | None => PErr
            end
          else PErr
      | [] => PErr
      end
  end.

Definition loads_fuel (s : pystr) : nat := 2 * length s + 1.

(** [json.loads(s)] for a [str]: the value, or [JSONDecodeError]. *)
Definition json_loads (s : pystr) : exc pyval :=
  let s0 := skip_ws s in
  match parse_value (loads_fuel s0) s0 with
  | POk v r =>
      match skip_ws r with
      | [] => Ok v
      | _ :: _ => Raise JSONDecodeError
      end
  | PErr | PFuel => Raise JSONDecodeError
  end.

(** *** [json.dumps] (default options: ASCII output, [", "] and [": "]) *)

Definition hex_digit (n : N) : N := (if n <? 10 then 48 + n else 87 + n)%N.

(** [\uXXXX] *)
Definition u_escape (u : N) : pystr :=
  [92; 117; hex_digit (u / 4096 mod 16); hex_digit (u / 256 mod 16);
   hex_digit (u / 16 mod 16); hex_digit (u mod 16)]%N.

Definition encode_char (c : N) : pystr :=
  (if c =? 34 then [92; 34] else if c =? 92 then [92; 92]
   else if c =? 10 then [92; 110] else if c =? 13 then [92; 114]
   else if c =? 9 then [92; 116] else if c =? 12 then [92; 102]
   else if c =? 8 then [92; 98]
   else if (32 <=? c) && (c <=? 126) then [c]
   else if c <? 65536 then u_escape c
   else u_escape (55296 + (c - 65536) / 1024 mod 1024)
        ++ u_escape (56320 + (c - 65536) mod 1024))%N.

Definition encode_string (s : pystr) : pystr :=
  [34%N] ++ concat (List.map encode_char s) ++ [34%N].

(** [sep.join(parts)] *)
Fixpoint join (sep : pystr) (parts : list pystr) : pystr :=
  match parts with
  | [] => []
  | [p] => p
  | p :: ps => p ++ sep ++ join sep ps
  end.

Fixpoint json_dumps (v : pyval) : pystr :=
  match v with
  | PNone => str "null"
  | PBool true => str "true"
  | PBool false => str "false"
  | PInt z => py_str_of_int z
  | PFloat n => n
  | PStr s => encode_string s
  | PList l => [91%N] ++ join (str ", ") (List.map json_dumps l) ++ [93%N]
  | PDict d =>
      [123%N]
      ++ join (str ", ")
           (List.map (fun kv => encode_string (fst kv) ++ str ": " ++ json_dumps (snd kv)) d)
      ++ [125%N]
  end.

(** ** The storage engine: SQL text matching and three-valued conditions *)

(** SQL [lower()]: ASCII letters only. *)
Definition lower_char (c : N) : N := (if (65 <=? c) && (c <=? 90) then c + 32 else c)%N.
Definition sql_lower (s : pystr) : pystr := List.map lower_char s.

Definition percent : N := 37.
Definition underscore : N := 95.

(** [text LIKE pattern]: [%] stands for any run of characters, [_] for any
    one character, every other character for itself. *)
Fixpoint like_match (pattern text : pystr) : bool :=
  match pattern with
  | [] => match text with [] => true | _ :: _ => false end
  | p :: pattern' =>
      if (p =? percent)%N then
        (fix any_run (t : pystr) : bool :=
           like_match pattern' t
           || match t with
              | [] => false
              | _ :: t' => any_run t'
              end) text
      else
        match text with
        | [] => false
        | c :: text' => ((p =? underscore) || (p =? c))%N && like_match pattern' text'
        end
  end.

(** A condition of a [WHERE] clause: [None] is SQL's [NULL]. *)
Definition sqlbool := option bool.

Definition sql_or (a b : sqlbool) : sqlbool :=
  match a, b with
  | Some true, _ | _, Some true => Some true
  | Some false, Some false => Some false
  | _, _ => None
  end.

Fixpoint sql_or_list (conds : list sqlbool) : sqlbool :=
  match conds with
  | [] => Some false
  | [c] => c
  | c :: cs => sql_or c (sql_or_list cs)
  end.

(** A row is kept when the condition is true (neither false nor [NULL]). *)
Definition sql_holds (c : sqlbool) : bool :=
  match c with Some true => true | _ => false end.

(** [column.ilike(pattern)]: [lower(column) LIKE lower(pattern)]. Only text
    is matched; a column without text gives [NULL]. *)
Definition ilike (column : pyval) (pattern : pystr) : sqlbool :=
  match column with
  | PStr s => Some (like_match (sql_lower pattern) (sql_lower s))
  | _ => None
  end.

(** The pattern of the f-string [f'%{term}%']. *)
Definition contains_pattern (term : pystr) : pystr := [percent] ++ term ++ [percent].


(** [column = value]: [NULL] equals nothing. *)
Definition sql_eq (column value : pyval) : bool :=
  match column, value with
  | PNone, _ | _, PNone => false
  | _, _ => py_eq column value
  end.

(** ** [src/models/tool.py]: the entity *)

(** A [datetime] is represented by its ISO 8601 rendering. *)
Record datetime := { isoformat : pystr }.

(** A mapped object holds in a column attribute the Python value that was
    assigned to it; conversions a storage engine applies to a value of
    another type than the column's are not modelled. *)
Record DeveloperTool := {
  id : option Z;
  name : pyval;
  category : pyval;
  description : pyval;
  url : pyval;
  frameworks : pyval;
  supported_languages : pyval;
  features : pyval;
  native_integrations : pyval;
  verified_integrations : pyval;
  notable_strengths : pyval;
  known_limitations : pyval;
  maturity_score : pyval;
  popularity_score : pyval;
  pricing : pyval;
  created_at : option datetime;
  updated_at : option datetime
}.

Definition handles_json_errors (e : exn) : bool :=
  match e with JSONDecodeError | TypeError => true | _ => false end.

Definition _parse_json_field (field_value : pyval) : exc pyval :=
  if match field_value with PNone => true | _ => false end
     || py_eq field_value (PStr (str "Not specified"))
  then Ok (PList [])
  else
    try_except
      (match field_value with
       | PStr s => json_loads s
       | PList _ => Ok field_value
       | _ => Ok (PList [])
       end)
      handles_json_errors
      (Ok (PList [])).

Definition _serialize_json_field (field_value : pyval) : pyval :=
  match field_value with
  | PNone => PNone
  | PList _ => PStr (json_dumps field_value)
  | _ => field_value
  end.

Definition opt_int (o : option Z) : pyval :=
  match o with Some z => PInt z | None => PNone end.

Definition opt_iso (o : option datetime) : pyval :=
  match o with Some d => PStr (isoformat d) | None => PNone end.

(** A dict literal whose values may raise while it is built. *)
Fixpoint dict_of (items : list (pystr * exc pyval)) : exc (list (pystr * pyval)) :=
  match items with
  | [] => Ok []
  | (k, m) :: items' =>
      exc_bind m (fun v => exc_bind (dict_of items') (fun d => Ok ((k, v) :: d)))
  end.

Definition to_dict (self : DeveloperTool) : exc pyval :=
  exc_bind
    (dict_of
       [(str "id", Ok (opt_int (id self)));
        (str "name", Ok (name self));
        (str "category", Ok (category self));
        (str "description", Ok (description self));
        (str "url", Ok (url self));
        (str "frameworks", _parse_json_field (frameworks self));
        (str "supported_languages", _parse_json_field (supported_languages self));
        (str "features", _parse_json_field (features self));
        (str "native_integrations", _parse_json_field (native_integrations self));
        (str "verified_integrations", _parse_json_field (verified_integrations self));
        (str "notable_strengths", _parse_json_field (notable_strengths self));
        (str "known_limitations", _parse_json_field (known_limitations self));
        (str "maturity_score", Ok (maturity_score self));
        (str "popularity_score", Ok (popularity_score self));
        (str "pricing", Ok (pricing self));
        (str "created_at", Ok (opt_iso (created_at self)));
        (str "updated_at", Ok (opt_iso (updated_at self)))])
    (fun d => Ok (PDict d)).

Definition to_summary_dict (self : DeveloperTool) : pyval :=
  PDict
    [(str "id", opt_int (id self));
     (str "name", name self);
     (str "category", category self);
     (str "description", description self);
     (str "url", url self);
     (str "maturity_score", maturity_score self);
     (str "popularity_score", popularity_score self)].

(** [d.get(key)] on a dict that arrived as a request payload. *)
Definition dict_get (data : gmap pystr pyval) (key : string) : pyval :=
  default PNone (data !! str key).

Definition from_dict (data : gmap pystr pyval) : DeveloperTool :=
  {| id := None;
     name := dict_get data "name";
     category := dict_get data "category";
     description := dict_get data "description";
     url := dict_get data "url";
     frameworks := _serialize_json_field (dict_get data "frameworks");
     supported_languages := _serialize_json_field (dict_get data "supported_languages");
     features := _serialize_json_field (dict_get data "features");
     native_integrations := _serialize_json_field (dict_get data "native_integrations");
     verified_integrations := _serialize_json_field (dict_get data "verified_integrations");
     notable_strengths := _serialize_json_field (dict_get data "notable_strengths");
     known_limitations := _serialize_json_field (dict_get data "known_limitations");
     maturity_score := dict_get data "maturity_score";
     popularity_score := dict_get data "popularity_score";
     pricing := dict_get data "pricing";
     created_at := None;
     updated_at := None |}.

(** [d[key]] on a dict value, for reading a response. *)
Definition py_getitem (d : pyval) (key : string) : option pyval :=
  match d with
  | PDict items =>
      option_map snd (List.find (fun kv => pystr_eqb (fst kv) (str key)) items)
  | _ => None
  end.

(** ** [src/import_data.py]: the field parsers of the bulk import *)

(** A CSV cell is a [str], or [None] when the row is short. *)
Definition parse_array_field (field_value : option pystr) : list pystr :=
  match field_value with
  | None => []
  | Some s =>
      if match s with [] => true | _ => false end
         || pystr_eqb (strip s) (str "Not specified")
      then []
      else
        List.map strip
          (List.filter (fun item => match strip item with [] => false | _ => true end)
             (split comma s))
  end.

Definition handles_value_errors (e : exn) : bool :=
  match e with ValueError | TypeError => true | _ => false end.

Definition int_of_str (s : pystr) : exc Z :=
  match py_int s with Some z => Ok z | None => Raise ValueError end.

Definition parse_score_field (field_value : option pystr) : exc (option Z) :=
  match field_value with
  | None => Ok None
  | Some s =>
      if match s with [] => true | _ => false end
         || pystr_eqb (strip s) (str "Not specified")
      then Ok None
      else
        try_except
          (exc_bind (int_of_str s) (fun score =>
             Ok (if (1 <=? score) && (score <=? 10) then Some score else None)))
          handles_value_errors
          (Ok None)
  end.

(** ** [src/routes/tools.py]: the endpoints *)

(** The table [developer_tools], in the order of its rows. *)
Definition table := list DeveloperTool.

(** The query string: [request.args]. *)
Definition args := gmap pystr pystr.

Definition args_get (a : args) (key : string) : option pystr := a !! str key.

Record response := { status : Z; body : pyval }.

(** [jsonify(payload), code] *)
Definition jsonify (payload : pyval) (code : Z) : response :=
  {| status := code; body := payload |}.

(** [query.filter(cond)] *)
Definition query_filter (cond : DeveloperTool -> sqlbool) (q : table) : table :=
  List.filter (fun row => sql_holds (cond row)) q.

(** The condition of the text search: name, description or the raw text of
    the features column. *)
Definition search_filter (text : pystr) (row : DeveloperTool) : sqlbool :=
  sql_or_list
    [ilike (name row) (contains_pattern text);
     ilike (description row) (contains_pattern text);
     ilike (features row) (contains_pattern text)].

Definition category_filter (cat : pystr) (row : DeveloperTool) : sqlbool :=
  ilike (category row) (contains_pattern cat).

(** *** Pagination, as Flask-SQLAlchemy's [paginate(error_out=False)] does
    it: a page below 1 becomes 1 and a page size below 1 becomes 20. *)
Record Pagination := {
  p_page : Z;
  p_per_page : Z;
  items : table;
  total : Z
}.

Definition paginate (q : table) (page per_page : Z) : Pagination :=
  let page := if page <? 1 then 1 else page in
  let per_page := if per_page <? 1 then 20 else per_page in
  {| p_page := page;
     p_per_page := per_page;
     items := firstn (Z.to_nat per_page) (skipn (Z.to_nat ((page - 1) * per_page)) q);
     total := Z.of_nat (length q) |}.

(** [ceil(total / per_page)] *)
Definition pages (p : Pagination) : Z :=
  if total p =? 0 then 0 else (total p + p_per_page p - 1) / p_per_page p.

Definition has_next (p : Pagination) : bool := p_page p <? pages p.
Definition has_prev (p : Pagination) : bool := 1 <? p_page p.

(** [[f(x) for x in l]] where [f] may raise. *)
Fixpoint map_exc {A B} (f : A -> exc B) (l : list A) : exc (list B) :=
  match l with
  | [] => Ok []
  | x :: l' => exc_bind (f x) (fun y => exc_bind (map_exc f l') (fun ys => Ok (y :: ys)))
  end.

(** [int(request.args.get(key, default))] *)
Definition int_arg (a : args) (key : string) (default : Z) : exc Z :=
  match args_get a key with
  | Some s => int_of_str s
  | None => Ok default
  end.


(** [if s:] for an optional string. *)
Definition nonempty (o : option pystr) : option pystr :=
  match o with
  | Some (c :: s) => Some (c :: s)
  | _ => None
  end.

(** The query [get_tools] builds before it paginates. *)
Definition list_query (a : args) (db : table) : table :=
  let category := args_get a "category" in
  let search := args_get a "search" in
  let query := db in
  let query :=
    match nonempty category with
    | Some c => query_filter (category_filter c) query
    | None => query
    end in
  let query :=
    match nonempty search with
    | Some s => query_filter (search_filter s) query
    | None => query
    end in
  query.

(** [summary]: only ASCII letters lower to the letters of ['true'], so
    [.lower() == 'true'] is decided on them. *)
Definition get_tools (a : args) (db : table) : exc response :=
  exc_bind (int_arg a "page" 1) (fun page =>
  exc_bind (int_arg a "per_page" 20) (fun requested =>
  let per_page := Z.min requested 100 in
  let summary :=
    pystr_eqb (sql_lower (default (str "false") (args_get a "summary"))) (str "true") in
  let query := list_query a db in
  let pagination := paginate query page per_page in
  let tools := items pagination in
  exc_bind
    (if summary then Ok (List.map to_summary_dict tools) else map_exc to_dict tools)
    (fun tools_data =>
  Ok (jsonify
        (PDict
           [(str "tools", PList tools_data);
            (str "pagination",
             PDict
               [(str "page", PInt page);
                (str "per_page", PInt per_page);
                (str "total", PInt (total pagination));
                (str "pages", PInt (pages pagination));
                (str "has_next", PBool (has_next pagination));
                (str "has_prev", PBool (has_prev pagination))])])
        200)))).






(** *** The writing endpoints

    They return what the request gets (a response, or an exception nobody
    handles) and the table as the request leaves it. *)

Definition not_null (v : pyval) : bool :=
  match v with PNone => false | _ => true end.

Definition id_eqb (a b : option Z) : bool :=
  match a, b with
  | Some x, Some y => x =? y
  | _, _ => false
  end.

(** The primary key of a new row: one more than the largest in the table. *)
Definition next_id (db : table) : Z :=
  1 + fold_right Z.max 0 (List.map (fun row => default 0 (id row)) db).

(** [db.session.add(tool); db.session.commit()]: the INSERT. The columns
    [name] and [category] are declared [nullable=False] and [name] is
    declared [unique=True]; the column defaults fill [created_at] and
    [updated_at]. A violated constraint raises [IntegrityError] and leaves
    the table as it was. *)
Definition db_insert (now : datetime) (tool : DeveloperTool) (db : table)
    : exc DeveloperTool * table :=
  if not_null (name tool) && not_null (category tool)
     && negb (existsb (fun row => sql_eq (name row) (name tool)) db)
  then
    let row :=
      {| id := Some (next_id db);
         name := name tool; category := category tool;
         description := description tool; url := url tool;
         frameworks := frameworks tool;
         supported_languages := supported_languages tool;
         features := features tool;
         native_integrations := native_integrations tool;
         verified_integrations := verified_integrations tool;
         notable_strengths := notable_strengths tool;
         known_limitations := known_limitations tool;
         maturity_score := maturity_score tool;
         popularity_score := popularity_score tool;
         pricing := pricing tool;
         created_at := Some now;
         updated_at := Some now |} in
    (Ok row, db ++ [row])
  else (Raise IntegrityError, db).

Definition error_body (message : string) : pyval :=
  PDict [(str "error", PStr (str message))].

Definition create_tool (now : datetime) (data : gmap pystr pyval) (db : table)
    : exc response * table :=
  if negb (py_truthy (dict_get data "name")) || negb (py_truthy (dict_get data "category"))
  then (Ok (jsonify (error_body "Name and category are required") 400), db)
  else
    let existing_tool :=
      List.find (fun row => sql_eq (name row) (dict_get data "name")) db in
    match existing_tool with
    | Some _ => (Ok (jsonify (error_body "Tool with this name already exists") 409), db)
    | None =>
        let tool := from_dict data in
        match db_insert now tool db with
        | (Ok row, db') => (exc_bind (to_dict row) (fun d => Ok (jsonify d 201)), db')
        | (Raise e, db') => (Raise e, db')
        end
    end.

(** [DeveloperTool.query.get(tool_id)] *)
Definition get_row (tool_id : Z) (db : table) : option DeveloperTool :=
  List.find (fun row => id_eqb (id row) (Some tool_id)) db.

(** [abort(404)]: the framework's Not Found page, not a JSON body. *)
Definition not_found : response := {| status := 404; body := PNone |}.

(** [if key in data: tool.attr = convert(data[key])] *)
Definition assign (data : gmap pystr pyval) (key : string) (convert : pyval -> pyval)
    (current : pyval) : pyval :=
  match data !! str key with
  | Some v => convert v
  | None => current
  end.

Definition as_is (v : pyval) : pyval := v.

(** The assignments of [update_tool], one per column. *)
Definition apply_payload (tool : DeveloperTool) (data : gmap pystr pyval) : DeveloperTool :=
  {| id := id tool;
     name := assign data "name" as_is (name tool);
     category := assign data "category" as_is (category tool);
     description := assign data "description" as_is (description tool);
     url := assign data "url" as_is (url tool);
     frameworks := assign data "frameworks" _serialize_json_field (frameworks tool);
     supported_languages :=
       assign data "supported_languages" _serialize_json_field (supported_languages tool);
     features := assign data "features" _serialize_json_field (features tool);
     native_integrations :=
       assign data "native_integrations" _serialize_json_field (native_integrations tool);
     verified_integrations :=
       assign data "verified_integrations" _serialize_json_field (verified_integrations tool);
     notable_strengths :=
       assign data "notable_strengths" _serialize_json_field (notable_strengths tool);
     known_limitations :=
       assign data "known_limitations" _serialize_json_field (known_limitations tool);
     maturity_score := assign data "maturity_score" as_is (maturity_score tool);
     popularity_score := assign data "popularity_score" as_is (popularity_score tool);
     pricing := assign data "pricing" as_is (pricing tool);
     created_at := created_at tool;
     updated_at := updated_at tool |}.

(** The columns that a request can write, with the payload key of each and
    the conversion [from_dict] and [update_tool] apply to the payload value. *)
Definition columns : list (string * (DeveloperTool -> pyval) * (pyval -> pyval)) :=
  [("name", name, as_is); ("category", category, as_is);
   ("description", description, as_is); ("url", url, as_is);
   ("frameworks", frameworks, _serialize_json_field);
   ("supported_languages", supported_languages, _serialize_json_field);
   ("features", features, _serialize_json_field);
   ("native_integrations", native_integrations, _serialize_json_field);
   ("verified_integrations", verified_integrations, _serialize_json_field);
   ("notable_strengths", notable_strengths, _serialize_json_field);
   ("known_limitations", known_limitations, _serialize_json_field);
   ("maturity_score", maturity_score, as_is);
   ("popularity_score", popularity_score, as_is);
   ("pricing", pricing, as_is)]%string.

(** What the unit of work writes for one column: a value equal ([==]) to the
    loaded one is no change, and the column keeps what it held. *)
Definition flush_column (loaded assigned : pyval) : pyval :=
  if py_eq assigned loaded then loaded else assigned.

(** Whether the flush has anything to write for the row. *)
Definition row_changed (loaded assigned : DeveloperTool) : bool :=
  existsb (fun c => negb (py_eq (snd (fst c) assigned) (snd (fst c) loaded))) columns.

(** [db.session.commit()] after the assignments: the UPDATE. The unit of work
    compares each assigned attribute with the loaded value and emits an UPDATE
    only for a row with a net change; [updated_at], declared with
    [onupdate=current_timestamp()], is set by that UPDATE and by nothing
    else. The constraints are those of [db_insert]. *)
Definition db_update (now : datetime) (loaded assigned : DeveloperTool) (db : table)
    : exc DeveloperTool * table :=
  if row_changed loaded assigned then
    let row :=
      {| id := id loaded;
         name := flush_column (name loaded) (name assigned);
         category := flush_column (category loaded) (category assigned);
         description := flush_column (description loaded) (description assigned);
         url := flush_column (url loaded) (url assigned);
         frameworks := flush_column (frameworks loaded) (frameworks assigned);
         supported_languages :=
           flush_column (supported_languages loaded) (supported_languages assigned);
         features := flush_column (features loaded) (features assigned);
         native_integrations :=
           flush_column (native_integrations loaded) (native_integrations assigned);
         verified_integrations :=
           flush_column (verified_integrations loaded) (verified_integrations assigned);
         notable_strengths :=
           flush_column (notable_strengths loaded) (notable_strengths assigned);
         known_limitations :=
           flush_column (known_limitations loaded) (known_limitations assigned);
         maturity_score := flush_column (maturity_score loaded) (maturity_score assigned);
         popularity_score :=
           flush_column (popularity_score loaded) (popularity_score assigned);
         pricing := flush_column (pricing loaded) (pricing assigned);
         created_at := created_at loaded;
         updated_at := Some now |} in
    if not_null (name row) && not_null (category row)
       && (py_eq (name assigned) (name loaded)
           || negb (existsb (fun other => negb (id_eqb (id other) (id loaded))
                                          && sql_eq (name other) (name row)) db))
    then
      (Ok row,
       List.map (fun other => if id_eqb (id other) (id loaded) then row else other) db)
    else (Raise IntegrityError, db)
  else (Ok loaded, db).

Definition update_tool (now : datetime) (tool_id : Z) (data : gmap pystr pyval)
    (db : table) : exc response * table :=
  match get_row tool_id db with
  | None => (Ok not_found, db)
  | Some tool =>
      let tool' := apply_payload tool data in
      match db_update now tool tool' db with
      | (Ok row, db') => (exc_bind (to_dict row) (fun d => Ok (jsonify d 200)), db')
      | (Raise e, db') => (Raise e, db')
      end
  end.

(** ** The array normalisation as the specification words it

    Null, empty and ["Not specified"] give the empty sequence; otherwise the
    text is read as a JSON array and, when that fails, split on commas, each
    element trimmed and the empty ones dropped. *)
Definition normalizeArrayField_spec (raw : pyval) : pyval :=
  match raw with
  | PStr s =>
      if pystr_eqb s [] || pystr_eqb s (str "Not specified") then PList []
      else
        match json_loads s with
        | Ok (PList l) => PList l
        | _ => PList (List.map PStr (parse_array_field (Some s)))
        end
  | PList l => PList l
  | _ => PList []
  end.

(** ** The score normalisation as the specification words it

    Empty and ["Not specified"] are absent; the value is read as an integer
    and is absent when that fails or when it lies outside 1..10. *)
Definition normalizeScore_spec (raw : pyval) : pyval :=
  match raw with
  | PInt z => if (1 <=? z) && (z <=? 10) then PInt z else PNone
  | PStr s =>
      match parse_score_field (Some s) with
      | Ok (Some z) => PInt z
      | _ => PNone
      end
  | _ => PNone
  end.

(** ** The full record of a tool, read off [to_dict] *)
Definition full_record (self : DeveloperTool) : pyval :=
  match to_dict self with
  | Ok d => d
  | Raise _ => PNone
  end.

(** The keys of the seven array-typed fields, each with its column. *)
Definition array_fields : list (string * (DeveloperTool -> pyval)) :=
  [("frameworks", frameworks); ("supported_languages", supported_languages);
   ("features", features); ("native_integrations", native_integrations);
   ("verified_integrations", verified_integrations);
   ("notable_strengths", notable_strengths);
   ("known_limitations", known_limitations)]%string.

Definition is_sequence (v : pyval) : bool :=
  match v with PList _ => true | _ => false end.

(** ** Substring search, for the statement of the search contract *)

Fixpoint is_prefix (p s : pystr) : bool :=
  match p, s with
  | [], _ => true
  | a :: p', b :: s' => (a =? b)%N && is_prefix p' s'
  | _ :: _, [] => false
  end.

(** [needle in hay] *)
Fixpoint contains (needle hay : pystr) : bool :=
  is_prefix needle hay
  || match hay with
     | [] => false
     | _ :: hay' => contains needle hay'
     end.

(** A case-insensitive substring match of a term against a text column. *)
Definition icontains (term : pystr) (column : pyval) : bool :=
  match column with
  | PStr s => contains (sql_lower term) (sql_lower s)
  | _ => false
  end.

(** A term without the two characters [LIKE] gives a meaning to. *)
Definition wildcard_free (term : pystr) : bool :=
  forallb (fun c => negb ((c =? percent) || (c =? underscore))%N) term.










Definition opt_forall {A} (P : A -> bool) (o : option A) : bool :=
  match o with Some x => P x | None => true end.


(** The rows of a page, counted from page 1. *)
Definition page_slice (q : table) (page per_page : Z) : table :=
  firstn (Z.to_nat per_page) (skipn (Z.to_nat ((page - 1) * per_page)) q).


(** The serialisation [get_tools] chooses. *)
Definition serialize (a : args) (tools : table) : list pyval :=
  if pystr_eqb (sql_lower (default (str "false") (args_get a "summary"))) (str "true")
  then List.map to_summary_dict tools
  else List.map full_record tools.


(** ** Sample data *)



Definition payload_of (l : list (string * pyval)) : gmap pystr pyval :=
  list_to_map (List.map (fun kv => (str (fst kv), snd kv)) l).

Definition args_of (l : list (string * string)) : args :=
  list_to_map (List.map (fun kv => (str (fst kv), str (snd kv))) l).

Definition monday : datetime := {| isoformat := str "2024-01-01T09:00:00" |}.
Definition tuesday : datetime := {| isoformat := str "2024-01-02T09:00:00" |}.

(** A stored tool with the given id, name and frameworks column. *)
Definition sample_tool (i : Z) (n : pystr) (fw : pyval) : DeveloperTool :=
  {| id := Some i; name := PStr n; category := PStr (str "AI Assistant");
     description := PNone; url := PNone;
     frameworks := fw; supported_languages := PNone; features := PNone;
     native_integrations := PNone; verified_integrations := PNone;
     notable_strengths := PNone; known_limitations := PNone;
     maturity_score := PNone; popularity_score := PNone; pricing := PNone;
     created_at := Some monday; updated_at := Some monday |}.

Definition json_vue : pystr := [91; 34]%N ++ str "Vue" ++ [34; 93]%N.
Definition json_react : pystr := [91; 34]%N ++ str "React" ++ [34; 93]%N.

Definition cody : DeveloperTool := sample_tool 1 (str "Cody") (PStr json_react).
Definition cursor : DeveloperTool := sample_tool 2 (str "Cursor") (PStr json_vue).
Definition devin : DeveloperTool := sample_tool 3 (str "Devin") PNone.

Definition cody_payload : gmap pystr pyval :=
  payload_of [("name", PStr (str "Cody")); ("category", PStr (str "AI Assistant"))]%string.

(** A table of twelve tools, [Tool1] to [Tool12]. *)
Definition twelve : table :=
  List.map (fun i => sample_tool i (str "Tool" ++ py_str_of_int i) PNone)
    [1; 2; 3; 4; 5; 6; 7; 8; 9; 10; 11; 12].

Definition new_description : gmap pystr pyval :=
  payload_of [("description", PStr (str "Code AI"))]%string.

Definition rename_to_cody : gmap pystr pyval :=
  payload_of [("name", PStr (str "Cody"))]%string.


Definition first_page_of_five : args := args_of [("page", "1"); ("per_page", "5")]%string.
Definition third_page_of_five : args := args_of [("page", "3"); ("per_page", "5")]%string.


(** ** Unicode scalar values

    A text decoded from UTF-8 (a CSV file, a JSON request) holds only scalar
    values: code points up to 10FFFF that are not surrogates. *)
Definition is_scalar (c : N) : bool :=
  ((c <? 1114112) && negb ((55296 <=? c) && (c <=? 57343)))%N.

(** The units the decoder reads for the encoding of one character. *)
Definition units_of (c : N) : list (bool * N) :=
  (if (32 <=? c) && (c <=? 126) || (c =? 10) || (c =? 13) || (c =? 9)
      || (c =? 12) || (c =? 8)
   then [(false, c)]
   else if c <? 65536 then [(true, c)]
   else [(true, 55296 + (c - 65536) / 1024 mod 1024);
         (true, 56320 + (c - 65536) mod 1024)])%N.

(** ** [src/routes/tools.py]: the other endpoints *)

Definition get_tool (tool_id : Z) (db : table) : exc response :=
  match get_row tool_id db with
  | None => Ok not_found
  | Some tool => exc_bind (to_dict tool) (fun d => Ok (jsonify d 200))
  end.

(** [return '', 204]: an empty text, not a JSON body. *)
Definition no_content : response := {| status := 204; body := PStr [] |}.

(** [db.session.delete(tool); db.session.commit()]: the DELETE of the rows
    with the primary key of [tool]. *)
Definition db_delete (tool : DeveloperTool) (db : table) : table :=
  List.filter (fun row => negb (id_eqb (id row) (id tool))) db.

Definition delete_tool (tool_id : Z) (db : table) : exc response * table :=
  match get_row tool_id db with
  | None => (Ok not_found, db)
  | Some tool => (Ok no_content, db_delete tool db)
  end.

(** [a <= b] on strings: code point by code point, as Python orders [str]. *)
Fixpoint str_leb (a b : pystr) : bool :=
  match a, b with
  | [], _ => true
  | _ :: _, [] => false
  | x :: a', y :: b' => ((x <? y) || (x =? y) && str_leb a' b')%N
  end.

Definition int_of_bool (b : bool) : Z := if b then 1 else 0.

(** [x < y], the one comparison [sorted] makes: between two strings or two
    integers. Python raises [TypeError] between a string and a number;
    comparisons of other values (floats, containers) are not modelled and
    count as [TypeError] too. *)
Definition py_lt (x y : pyval) : exc bool :=
  match x, y with
  | PStr a, PStr b => Ok (negb (str_leb b a))
  | PInt a, PInt b => Ok (a <? b)
  | PInt a, PBool b => Ok (a <? int_of_bool b)
  | PBool a, PInt b => Ok (int_of_bool a <? b)
  | PBool a, PBool b => Ok (int_of_bool a <? int_of_bool b)
  | _, _ => Raise TypeError
  end.

(** Insertion that keeps equal elements in their order: [x] goes before the
    first element that is not below it. *)
Fixpoint insert_sorted (x : pyval) (l : list pyval) : exc (list pyval) :=
  match l with
  | [] => Ok [x]
  | y :: l' =>
      exc_bind (py_lt y x) (fun below =>
        if below then exc_bind (insert_sorted x l') (fun r => Ok (y :: r))
        else Ok (x :: y :: l'))
  end.

(** [sorted(l)] *)
Fixpoint py_sorted (l : list pyval) : exc (list pyval) :=
  match l with
  | [] => Ok []
  | x :: l' => exc_bind (py_sorted l') (insert_sorted x)
  end.

(** [SELECT DISTINCT]: one value of each, in the order they first occur;
    [NULL] counts as one value. *)
Fixpoint sql_distinct (l : list pyval) : list pyval :=
  match l with
  | [] => []
  | x :: l' => x :: List.filter (fun y => negb (py_eq y x)) (sql_distinct l')
  end.

Definition get_categories (db : table) : exc response :=
  let categories := sql_distinct (List.map category db) in
  let categories_list := List.filter py_truthy categories in
  exc_bind (py_sorted categories_list) (fun sorted_list =>
  Ok (jsonify (PDict [(str "categories", PList sorted_list)]) 200)).

(** [GROUP BY category] with [count(id)]: one pair for each category, the
    number of its rows that have an id. *)
Definition category_stats (db : table) : list (pyval * Z) :=
  List.map
    (fun c =>
       (c, Z.of_nat (length (List.filter
                               (fun row => py_eq (category row) c
                                           && match id row with Some _ => true | None => false end)
                               db))))
    (sql_distinct (List.map category db)).

(** The key of a JSON object for a category. Only text is rendered; a
    category that is no text is outside the model of this endpoint. *)
Definition json_key (v : pyval) : exc pystr :=
  match v with
  | PStr s => Ok s
  | _ => Raise TypeError
  end.

Definition get_stats (db : table) : exc response :=
  let total_tools := Z.of_nat (length db) in
  let categories := Z.of_nat (length (sql_distinct (List.map category db))) in
  exc_bind
    (map_exc (fun cc => exc_bind (json_key (fst cc)) (fun k => Ok (k, PInt (snd cc))))
       (category_stats db))
    (fun breakdown =>
  Ok (jsonify
        (PDict [(str "total_tools", PInt total_tools);
                (str "total_categories", PInt categories);
                (str "category_breakdown", PDict breakdown)])
        200)).

(** ** [src/import_data.py]: the import of the rows of a CSV file

    A row of [csv.DictReader] maps the column names of the header to the
    cells of the line; a cell that the line does not have is [None]. *)
Definition csv_row := gmap pystr (option pystr).

(** [row.get(key, '')] *)
Definition row_get (row : csv_row) (key : string) : option pystr :=
  default (Some []) (row !! str key).

(** [cell.strip()]: [None] has no [strip]. *)
Definition strip_cell (cell : option pystr) : exc pystr :=
  match cell with
  | Some s => Ok (strip s)
  | None => Raise AttributeError
  end.

(** [json.dumps(parse_array_field(cell))] *)
Definition array_column (cell : option pystr) : pyval :=
  PStr (json_dumps (PList (List.map PStr (parse_array_field cell)))).

Definition score_column (cell : option pystr) : exc pyval :=
  exc_bind (parse_score_field cell) (fun score => Ok (opt_int score)).

(** The body of the loop for one row: the tool to add, or nothing for a
    row without a name. *)
Definition import_row (row : csv_row) : exc (option DeveloperTool) :=
  exc_bind (strip_cell (row_get row "Name")) (fun tool_name =>
  exc_bind (strip_cell (row_get row "Categories")) (fun tool_category =>
  exc_bind (strip_cell (row_get row "Description")) (fun tool_description =>
  exc_bind (strip_cell (row_get row "URL")) (fun tool_url =>
  exc_bind (strip_cell (row_get row "Pricing")) (fun tool_pricing =>
  match tool_name with
  | [] => Ok None
  | _ :: _ =>
      exc_bind (score_column (row_get row "Maturity Score")) (fun maturity =>
      exc_bind (score_column (row_get row "Popularity Score")) (fun popularity =>
      Ok (Some
            {| id := None;
               name := PStr tool_name;
               category := PStr tool_category;
               description := PStr tool_description;
               url := PStr tool_url;
               frameworks := array_column (row_get row "Frameworks");
               supported_languages := array_column (row_get row "Supported_Languages");
               features := array_column (row_get row "Features");
               native_integrations := array_column (row_get row "Native Integrations");
               verified_integrations := array_column (row_get row "Verified Integrations");
               notable_strengths := array_column (row_get row "Notable Strengths");
               known_limitations := array_column (row_get row "Known Limitations");
               maturity_score := maturity;
               popularity_score := popularity;
               pricing := PStr tool_pricing;
               created_at := None;
               updated_at := None |})))
  end))))).

(** The loop: a row whose body raises is reported and skipped
    ([except Exception: continue]). *)
Fixpoint pending_tools (rows : list csv_row) : list DeveloperTool :=
  match rows with
  | [] => []
  | row :: rows' =>
      match import_row row with
      | Ok (Some tool) => tool :: pending_tools rows'
      | Ok None | Raise _ => pending_tools rows'
      end
  end.

(** The INSERTs of one commit, in the order the tools were added; the first
    violated constraint fails the commit. *)
Fixpoint insert_all (now : datetime) (tools : list DeveloperTool) (db : table)
    : exc table :=
  match tools with
  | [] => Ok db
  | tool :: tools' =>
      match db_insert now tool db with
      | (Ok _, db') => insert_all now tools' db'
      | (Raise e, _) => Raise e
      end
  end.

(** [import_tools_from_csv], from the point where the file is open: the
    table is emptied and that is committed, the rows are read, and one commit
    stores the tools. When that commit fails the exception leaves the
    function and the table stays empty. *)
Definition import_tools_from_csv (now : datetime) (rows : list csv_row) (db : table)
    : exc bool * table :=
  match insert_all now (pending_tools rows) [] with
  | Ok db' => (Ok true, db')
  | Raise e => (Raise e, [])
  end.

(** ** Well-formed tables and responses *)

Fixpoint unique_names (db : table) : Prop :=
  match db with
  | [] => True
  | row :: db' =>
      Forall (fun other => sql_eq (name row) (name other) = false) db'
      /\ unique_names db'
  end.

(** What the declaration of the table promises of its rows: a primary key,
    a name and a category in every row, no key and no name twice. *)
Definition table_ok (db : table) : Prop :=
  List.NoDup (List.map id db)
  /\ Forall (fun row => id row <> None /\ name row <> PNone /\ category row <> PNone) db
  /\ unique_names db.

(** The list under the key ["tools"] of an answer. *)
Definition tools_of (r : exc response) : list pyval :=
  match r with
  | Ok resp =>
      match py_getitem (body resp) "tools" with
      | Some (PList l) => l
      | _ => []
      end
  | Raise _ => []
  end.

(** The keys of the summary view. *)
Definition summary_keys : list string :=
  ["id"; "name"; "category"; "description"; "url"; "maturity_score";
   "popularity_score"]%string.

(** Strictly ascending strings. *)
Definition str_ltb (a b : pystr) : bool := negb (str_leb b a).

Definition is_text (v : pyval) : bool :=
  match v with PStr _ => true | _ => false end.

(** An item as [parse_array_field] returns them: not empty, trimmed, without
    a comma. *)
Definition clean_item (item : pystr) : Prop :=
  item <> [] /\ strip item = item /\ ~ In comma item.


Definition vs_code_list : list pystr := [str "VS Code"; str "JetBrains"; str "GitHub"].

Definition cursor_payload : gmap pystr pyval :=
  payload_of [("name", PStr (str "Cursor")); ("category", PStr (str "AI Assistant"));
              ("verified_integrations", PList (List.map PStr vs_code_list))]%string.

(** Sorting strings by insertion, as [py_sorted] does it on values. *)
Fixpoint str_insert (x : pystr) (l : list pystr) : list pystr :=
  match l with
  | [] => [x]
  | y :: l' => if str_leb x y then x :: y :: l' else y :: str_insert x l'
  end.

Fixpoint str_sort (l : list pystr) : list pystr :=
  match l with
  | [] => []
  | x :: l' => str_insert x (str_sort l')
  end.

(** Strictly ascending: every string is below all that follow it. *)
Fixpoint ascending (l : list pystr) : Prop :=
  match l with
  | [] => True
  | x :: l' => Forall (fun y => str_ltb x y = true) l' /\ ascending l'
  end.

(** The rows of a category. *)
Definition rows_of_category (c : pystr) (db : table) : table :=
  List.filter (fun row => py_eq (category row) (PStr c)) db.

Definition sum_counts (l : list (pystr * Z)) : Z :=
  fold_right Z.add 0 (List.map snd l).

Definition assistants_and_editors : table :=
  [cody; cursor;
   {| id := Some 3; name := PStr (str "Zed"); category := PStr (str "Editor");
      description := PNone; url := PNone; frameworks := PNone;
      supported_languages := PNone; features := PNone; native_integrations := PNone;
      verified_integrations := PNone; notable_strengths := PNone;
      known_limitations := PNone; maturity_score := PNone; popularity_score := PNone;
      pricing := PNone; created_at := Some monday; updated_at := Some monday |}].

(** What a text column holds. *)
Definition text_or_null (v : pyval) : Prop := v = PNone \/ exists s, v = PStr s.

(** The texts among a list of values, in order. *)
Fixpoint texts (l : list pyval) : list pystr :=
  match l with
  | [] => []
  | PStr (c :: s) :: l' => (c :: s) :: texts l'
  | _ :: l' => texts l'
  end.


(** The request for page [k] of the same listing. *)
Definition with_page (a : args) (k : nat) : args :=
  <[str "page" := py_str_of_int (Z.of_nat k)]> a.


Definition search_assistant : args :=
  args_of [("category", "assistant"); ("search", "CURSOR")]%string.


(** ** Rows of the file *)

(** The cells of a row hold Unicode scalar values. *)
Definition scalar_row (row : csv_row) : Prop :=
  forall key s, row_get row key = Some s -> forallb is_scalar s = true.

(** A row built from its cells. *)
Definition row_of (cells : list (string * string)) : csv_row :=
  list_to_map (List.map (fun kv => (str (fst kv), Some (str (snd kv)))) cells).

Definition cody_row : csv_row :=
  row_of [("Name", " Cody "); ("Categories", "AI Assistant"); ("Description", "");
          ("URL", "https://sourcegraph.com/cody"); ("Pricing", "Free");
          ("Frameworks", "React, Vue"); ("Maturity Score", "8");
          ("Popularity Score", "Not specified")]%string.

Definition blank_row : csv_row :=
  row_of [("Name", "  "); ("Categories", "AI Assistant"); ("Description", "");
          ("URL", ""); ("Pricing", "")]%string.

Definition short_row : csv_row :=
  <[str "Pricing" := None]> cody_row.

Definition cursor_row : csv_row :=
  row_of [("Name", "Cursor"); ("Categories", "Editor"); ("Description", "");
          ("URL", ""); ("Pricing", ""); ("Maturity Score", "11")]%string.

(** A tool as the loop leaves it: a text as its name and its category. *)
Definition imported_shape (tool : DeveloperTool) : Prop :=
  (exists n, name tool = PStr n) /\ (exists c, category tool = PStr c).

(** * Properties *)

(** ** Strings *)

Lemma pystr_eqb_eq (a b : pystr) : pystr_eqb a b = true <-> a = b.
Proof. unfold pystr_eqb. apply bool_decide_eq_true. Qed.

Lemma pystr_eqb_refl (a : pystr) : pystr_eqb a a = true.
Proof. now apply pystr_eqb_eq. Qed.

Lemma lstrip_idem (s : pystr) : lstrip (lstrip s) = lstrip s.
Proof.
  induction s as [|c s IH]; simpl; [reflexivity|].
  destruct (py_isspace c) eqn:E; [exact IH|]. simpl. now rewrite E.
Qed.

Lemma lstrip_app_nonspace (x : pystr) (c : N) :
  py_isspace c = false -> lstrip (x ++ [c]) = lstrip x ++ [c].
Proof.
  intros Hc. induction x as [|a x IH]; simpl.
  - now rewrite Hc.
  - destruct (py_isspace a); [exact IH | reflexivity].
Qed.

Lemma rstrip_cons_nonspace (c : N) (u : pystr) :
  py_isspace c = false -> rstrip (c :: u) = c :: rstrip u.
Proof.
  intros Hc. unfold rstrip. simpl.
  rewrite lstrip_app_nonspace by exact Hc.
  now rewrite rev_unit.
Qed.

Lemma lstrip_head (s : pystr) :
  match lstrip s with [] => True | c :: _ => py_isspace c = false end.
Proof.
  induction s as [|c s IH]; simpl; [exact I|].
  destruct (py_isspace c) eqn:E; [exact IH | exact E].
Qed.

Lemma rstrip_idem (s : pystr) : rstrip (rstrip s) = rstrip s.
Proof. unfold rstrip. now rewrite rev_involutive, lstrip_idem. Qed.

Lemma strip_idem (s : pystr) : strip (strip s) = strip s.
Proof.
  unfold strip.
  assert (H : lstrip (rstrip (lstrip s)) = rstrip (lstrip s)).
  { pose proof (lstrip_head s) as Hh.
    destruct (lstrip s) as [|c u]; [reflexivity|].
    rewrite rstrip_cons_nonspace by exact Hh. simpl. now rewrite Hh. }
  rewrite H. apply rstrip_idem.
Qed.

Lemma lstrip_incl (s : pystr) (c : N) : In c (lstrip s) -> In c s.
Proof.
  induction s as [|a s IH]; simpl; [tauto|].
  destruct (py_isspace a); simpl; tauto.
Qed.

Lemma strip_incl (s : pystr) (c : N) : In c (strip s) -> In c s.
Proof.
  unfold strip, rstrip. intros H.
  apply in_rev, lstrip_incl, in_rev, lstrip_incl in H. exact H.
Qed.

Lemma split_no_sep (sep : N) (s w : pystr) : In w (split sep s) -> ~ In sep w.
Proof.
  revert w. induction s as [|c s IH]; simpl; intros w Hw.
  - destruct Hw as [<-|[]]. simpl. tauto.
  - destruct (N.eqb_spec c sep) as [->|Hne].
    + destruct Hw as [<-|Hw]; [simpl; tauto | now apply IH].
    + destruct (split sep s) as [|w0 ws] eqn:E.
      * destruct Hw as [<-|[]]. simpl. intros [H|[]]. congruence.
      * destruct Hw as [<-|Hw].
        -- simpl. intros [H|H]; [congruence|]. apply (IH w0); [now left | exact H].
        -- apply IH. now right.
Qed.

Lemma split_nonempty (sep : N) (s : pystr) : split sep s <> [].
Proof.
  destruct s as [|c s]; simpl; [discriminate|].
  destruct (c =? sep)%N; [discriminate|].
  destruct (split sep s); discriminate.
Qed.

Lemma join_cons (sep p q : pystr) (ps : list pystr) :
  join sep (p :: q :: ps) = p ++ sep ++ join sep (q :: ps).
Proof. reflexivity. Qed.

(** Joining the pieces of [split] with the separator gives the string back. *)
Lemma join_split (sep : N) (s : pystr) : join [sep] (split sep s) = s.
Proof.
  induction s as [|c s IH]; [reflexivity|].
  pose proof (split_nonempty sep s) as Hne.
  cbn [split].
  destruct (N.eqb_spec c sep) as [->|Hc]; destruct (split sep s) as [|w ws];
    try congruence.
  - rewrite join_cons, IH. reflexivity.
  - destruct ws as [|w' ws].
    + simpl in *. congruence.
    + rewrite join_cons in *. rewrite <- IH. reflexivity.
Qed.

(** What the import-time parser returns: trimmed, non-empty, comma-free. *)
Lemma parse_array_field_items (cell : option pystr) :
  Forall (fun item => item <> [] /\ strip item = item /\ ~ In comma item)
         (parse_array_field cell).
Proof.
  destruct cell as [s|]; simpl; [|constructor].
  destruct (_ || _); [constructor|].
  apply List.Forall_forall. intros item Hin.
  apply in_map_iff in Hin as [piece [<- Hp]].
  apply filter_In in Hp as [Hp Hne].
  repeat split.
  - destruct (strip piece); [discriminate | discriminate].
  - apply strip_idem.
  - intros Hc. apply strip_incl in Hc. exact (split_no_sep _ _ _ Hp Hc).
Qed.

(** ** [json.loads] and [_parse_json_field] *)

Lemma json_loads_raises (s : pystr) (e : exn) :
  json_loads s = Raise e -> e = JSONDecodeError.
Proof.
  unfold json_loads. destruct (parse_value _ _) as [v r| |].
  - destruct (skip_ws r); intros H; [discriminate | congruence].
  - congruence.
  - congruence.
Qed.

Lemma parse_json_field_str (s : pystr) :
  _parse_json_field (PStr s) =
    if pystr_eqb s (str "Not specified") then Ok (PList [])
    else match json_loads s with Ok v => Ok v | Raise _ => Ok (PList []) end.
Proof.
  unfold _parse_json_field. simpl.
  destruct (pystr_eqb s _); [reflexivity|].
  destruct (json_loads s) as [v|e] eqn:E; simpl; [reflexivity|].
  now rewrite (json_loads_raises _ _ E).
Qed.


(** [_parse_json_field] returns: no exception leaves it. *)
Lemma parse_json_field_returns (field_value : pyval) :
  exists v, _parse_json_field field_value = Ok v.
Proof.
  destruct field_value as [|b|z|n|s|l|d];
    try (eexists; reflexivity).
  rewrite parse_json_field_str.
  destruct (pystr_eqb s _); [eexists; reflexivity|].
  destruct (json_loads s); eexists; reflexivity.
Qed.

(** A sequence is returned as it is. *)
Lemma parse_json_field_list (l : list pyval) :
  _parse_json_field (PList l) = Ok (PList l).
Proof. reflexivity. Qed.




(** ** [json.loads]: the fuel of the parser is enough *)

Lemma skip_ws_length (s : pystr) : (length (skip_ws s) <= length s)%nat.
Proof.
  induction s as [|c s IH]; simpl; [lia|].
  destruct (json_ws c); simpl; lia.
Qed.

Lemma scan_units_shorter (n : nat) :
  forall s us rest, (length s <= n)%nat ->
    scan_units s = Some (us, rest) -> (length rest < length s)%nat.
Proof.
  induction n as [|n IH]; intros s us rest Hn H.
  - destruct s; [discriminate | simpl in Hn; lia].
  - destruct s as [|c r]; [discriminate|]. simpl in Hn. cbn [scan_units] in H.
    destruct (c =? 34)%N.
    { injection H as _ <-. simpl. lia. }
    destruct (c =? 92)%N.
    + destruct r as [|e r']; [discriminate|]. simpl in Hn.
      destruct (e =? 117)%N.
      * destruct r' as [|x1 [|x2 [|x3 [|x4 r'']]]]; try discriminate.
        destruct (hex4 x1 x2 x3 x4); [|discriminate].
        destruct (scan_units r'') as [[us' rest']|] eqn:E; [|discriminate].
        injection H as _ <-. apply IH in E; simpl in *; lia.
      * destruct (escape_char e); [|discriminate].
        destruct (scan_units r') as [[us' rest']|] eqn:E; [|discriminate].
        injection H as _ <-. apply IH in E; simpl in *; lia.
    + destruct (c <? 32)%N; [discriminate|].
      destruct (scan_units r) as [[us' rest']|] eqn:E; [|discriminate].
      injection H as _ <-. apply IH in E; simpl in *; lia.
Qed.

Lemma scanstring_shorter (s x rest : pystr) :
  scanstring s = Some (x, rest) -> (length rest < length s)%nat.
Proof.
  unfold scanstring. destruct (scan_units s) as [[us r]|] eqn:E; [|discriminate].
  intros H. injection H as _ <-. exact (scan_units_shorter _ _ _ _ (le_n _) E).
Qed.

Lemma span_digits_length (s : pystr) :
  (length (snd (span_digits s)) <= length s)%nat.
Proof.
  induction s as [|c s IH]; simpl; [lia|].
  destruct (is_digit c); [|simpl; lia].
  destruct (span_digits s). simpl in *. lia.
Qed.

Lemma starts_with_length (p s r : pystr) :
  starts_with p s = Some r -> length s = (length p + length r)%nat.
Proof.
  revert s. induction p as [|a p IH]; intros s H; simpl in *.
  - now injection H as ->.
  - destruct s as [|b s]; [discriminate|].
    destruct (a =? b)%N; [|discriminate]. apply IH in H. simpl. lia.
Qed.

Lemma scan_frac_length (s : pystr) : (length (snd (scan_frac s)) <= length s)%nat.
Proof.
  destruct s as [|c r]; simpl; [lia|].
  destruct (c =? 46)%N; [|simpl; lia].
  pose proof (span_digits_length r). destruct (span_digits r) as [[|d ds] r']; simpl in *; lia.
Qed.

Lemma scan_exp_length (s : pystr) : (length (snd (scan_exp s)) <= length s)%nat.
Proof.
  destruct s as [|c r]; simpl; [lia|].
  destruct (_ || _)%N; [|simpl; lia].
  destruct r as [|sg r1]; [simpl; lia|].
  destruct (_ || _)%N.
  - pose proof (span_digits_length r1).
    destruct (span_digits r1) as [[|d ds] r']; simpl in *; lia.
  - pose proof (span_digits_length (sg :: r1)).
    destruct (span_digits (sg :: r1)) as [[|d ds] r']; simpl in *; lia.
Qed.

Lemma scan_number_shorter (s : pystr) (v : pyval) (r : pystr) :
  scan_number s = POk v r -> (length r < length s)%nat.
Proof.
  unfold scan_number.
  set (ns := match s with
             | c :: r => if (c =? 45)%N then (true, r) else (false, s)
             | [] => (false, s)
             end).
  assert (Hns : (length (snd ns) <= length s)%nat).
  { subst ns. destruct s as [|c r0]; [simpl; lia|]. destruct (c =? 45)%N; simpl; lia. }
  destruct ns as [neg s1]. simpl in Hns.
  destruct (scan_intpart s1) as [[ds r0]|] eqn:Ei.
  - assert (Hi : (length r0 < length s1)%nat).
    { unfold scan_intpart in Ei. destruct s1 as [|c r1]; [discriminate|].
      destruct (c =? 48)%N; [injection Ei as _ <-; simpl; lia|].
      destruct (is_digit c); [|discriminate].
      pose proof (span_digits_length r1).
      destruct (span_digits r1). injection Ei as _ <-. simpl in *. lia. }
    pose proof (scan_frac_length r0) as Hf. destruct (scan_frac r0) as [fr r1].
    pose proof (scan_exp_length r1) as He. destruct (scan_exp r1) as [ex r2].
    simpl in *.
    destruct fr, ex; intros H; injection H as _ <-; lia.
  - destruct (starts_with (str "NaN") s) eqn:E1.
    { intros H. injection H as _ <-. apply starts_with_length in E1. simpl in E1. lia. }
    destruct (starts_with (str "Infinity") s) eqn:E2.
    { intros H. injection H as _ <-. apply starts_with_length in E2. simpl in E2. lia. }
    destruct (starts_with (str "-Infinity") s) eqn:E3; [|discriminate].
    intros H. injection H as _ <-. apply starts_with_length in E3. simpl in E3. lia.
Qed.

Lemma scan_number_not_fuel (s : pystr) : scan_number s <> PFuel.
Proof.
  unfold scan_number.
  destruct (match s with
            | c :: r => if (c =? 45)%N then (true, r) else (false, s)
            | [] => (false, s)
            end) as [neg s1].
  destruct (scan_intpart s1) as [[ds r0]|].
  - destruct (scan_frac r0) as [fr r1], (scan_exp r1) as [ex r2].
    destruct fr, ex; discriminate.
  - repeat (destruct (starts_with _ _); [discriminate|]). discriminate.
Qed.

(** A value that parses is not empty: what follows it is shorter than the
    text. *)
Lemma parse_shorter (f : nat) :
  (forall s v r, parse_value f s = POk v r -> (length r < length s)%nat)
  /\ (forall s acc v r, parse_elements f s acc = POk v r -> (length r < length s)%nat)
  /\ (forall s acc v r, parse_members f s acc = POk v r -> (length r < length s)%nat).
Proof.
  induction f as [|f [IHv [IHe IHm]]].
  - split; [|split; intros; discriminate].
    intros s v r H. destruct s as [|c s]; [discriminate|]. cbn [parse_value] in H.
    destruct (c =? 34)%N.
    { destruct (scanstring s) as [[x r']|] eqn:E; [|discriminate].
      injection H as _ <-. apply scanstring_shorter in E. simpl. lia. }
    destruct (c =? 123)%N; [discriminate|]. destruct (c =? 91)%N; [discriminate|].
    destruct (starts_with (str "null") (c :: s)) eqn:E1.
    { injection H as _ <-. apply starts_with_length in E1. simpl in *. lia. }
    destruct (starts_with (str "true") (c :: s)) eqn:E2.
    { injection H as _ <-. apply starts_with_length in E2. simpl in *. lia. }
    destruct (starts_with (str "false") (c :: s)) eqn:E3.
    { injection H as _ <-. apply starts_with_length in E3. simpl in *. lia. }
    now apply scan_number_shorter in H.
  - split; [|split].
    + intros s v r H. destruct s as [|c s]; [discriminate|]. cbn [parse_value] in H.
      destruct (c =? 34)%N.
      { destruct (scanstring s) as [[x r']|] eqn:E; [|discriminate].
        injection H as _ <-. apply scanstring_shorter in E. simpl. lia. }
      destruct (c =? 123)%N.
      { pose proof (skip_ws_length s) as Hs.
        destruct (skip_ws s) as [|c' r']; [discriminate|].
        destruct (c' =? 125)%N.
        - injection H as _ <-. simpl in *. lia.
        - apply IHm in H. simpl in *. lia. }
      destruct (c =? 91)%N.
      { pose proof (skip_ws_length s) as Hs.
        destruct (skip_ws s) as [|c' r']; [discriminate|].
        destruct (c' =? 93)%N.
        - injection H as _ <-. simpl in *. lia.
        - apply IHe in H. simpl in *. lia. }
      destruct (starts_with (str "null") (c :: s)) eqn:E1.
      { injection H as _ <-. apply starts_with_length in E1. simpl in *. lia. }
      destruct (starts_with (str "true") (c :: s)) eqn:E2.
      { injection H as _ <-. apply starts_with_length in E2. simpl in *. lia. }
      destruct (starts_with (str "false") (c :: s)) eqn:E3.
      { injection H as _ <-. apply starts_with_length in E3. simpl in *. lia. }
      now apply scan_number_shorter in H.
    + intros s acc v r H. cbn [parse_elements] in H.
      destruct (parse_value f s) as [v0 r0| |] eqn:E; try discriminate.
      apply IHv in E. pose proof (skip_ws_length r0) as Hs.
      destruct (skip_ws r0) as [|c r']; [discriminate|].
      destruct (c =? 93)%N; [injection H as _ <-; simpl in *; lia|].
      destruct (c =? 44)%N; [|discriminate].
      apply IHe in H. pose proof (skip_ws_length r'). simpl in *. lia.
    + intros s acc v r H. cbn [parse_members] in H.
      destruct s as [|q s]; [discriminate|].
      destruct (q =? 34)%N; [|discriminate].
      destruct (scanstring s) as [[k r1]|] eqn:Ek; [|discriminate].
      apply scanstring_shorter in Ek. pose proof (skip_ws_length r1) as H1.
      destruct (skip_ws r1) as [|c r2]; [discriminate|].
      destruct (c =? 58)%N; [|discriminate].
      pose proof (skip_ws_length r2) as H2.
      destruct (parse_value f (skip_ws r2)) as [v0 r3| |] eqn:E; try discriminate.
      apply IHv in E. pose proof (skip_ws_length r3) as H3.
      destruct (skip_ws r3) as [|c' r4]; [discriminate|].
      destruct (c' =? 125)%N; [injection H as _ <-; simpl in *; lia|].
      destruct (c' =? 44)%N; [|discriminate].
      apply IHm in H. pose proof (skip_ws_length r4). simpl in *. lia.
Qed.

(** With twice the length of the text as fuel, the parser never stops for
    lack of it. *)
Lemma parse_fuel_enough (f : nat) :
  (forall s, (2 * length s <= f)%nat -> parse_value f s <> PFuel)
  /\ (forall s acc, (2 * length s + 1 <= f)%nat -> parse_elements f s acc <> PFuel)
  /\ (forall s acc, (2 * length s + 1 <= f)%nat -> parse_members f s acc <> PFuel).
Proof.
  induction f as [|f [IHv [IHe IHm]]].
  - split; [|split; intros; simpl in *; lia].
    intros s Hs. destruct s; [discriminate | simpl in Hs; lia].
  - split; [|split].
    + intros s Hs. destruct s as [|c s]; [discriminate|]. cbn [parse_value].
      simpl in Hs.
      destruct (c =? 34)%N; [destruct (scanstring s) as [[x r']|]; discriminate|].
      destruct (c =? 123)%N.
      { pose proof (skip_ws_length s) as Hl.
        destruct (skip_ws s) as [|c' r']; [discriminate|].
        destruct (c' =? 125)%N; [discriminate|]. apply IHm. simpl in *. lia. }
      destruct (c =? 91)%N.
      { pose proof (skip_ws_length s) as Hl.
        destruct (skip_ws s) as [|c' r']; [discriminate|].
        destruct (c' =? 93)%N; [discriminate|]. apply IHe. simpl in *. lia. }
      destruct (starts_with _ _); [discriminate|].
      destruct (starts_with _ _); [discriminate|].
      destruct (starts_with _ _); [discriminate|].
      apply scan_number_not_fuel.
    + intros s acc Hs. cbn [parse_elements].
      pose proof (proj1 (parse_shorter f)) as Hsh.
      destruct (parse_value f s) as [v0 r0| |] eqn:E; [|discriminate|].
      * apply Hsh in E. pose proof (skip_ws_length r0) as Hl.
        destruct (skip_ws r0) as [|c r']; [discriminate|].
        destruct (c =? 93)%N; [discriminate|].
        destruct (c =? 44)%N; [|discriminate].
        apply IHe. pose proof (skip_ws_length r'). simpl in *. lia.
      * exfalso. apply (IHv s); [lia | exact E].
    + intros s acc Hs. cbn [parse_members].
      pose proof (proj1 (parse_shorter f)) as Hsh.
      destruct s as [|q s]; [discriminate|].
      destruct (q =? 34)%N; [|discriminate].
      destruct (scanstring s) as [[k r1]|] eqn:Ek; [|discriminate].
      apply scanstring_shorter in Ek. pose proof (skip_ws_length r1) as H1.
      destruct (skip_ws r1) as [|c r2]; [discriminate|].
      destruct (c =? 58)%N; [|discriminate].
      pose proof (skip_ws_length r2) as H2.
      destruct (parse_value f (skip_ws r2)) as [v0 r3| |] eqn:E; [|discriminate|].
      * apply Hsh in E. pose proof (skip_ws_length r3) as H3.
        destruct (skip_ws r3) as [|c' r4]; [discriminate|].
        destruct (c' =? 125)%N; [discriminate|].
        destruct (c' =? 44)%N; [|discriminate].
        apply IHm. pose proof (skip_ws_length r4). simpl in *. lia.
      * exfalso. apply (IHv (skip_ws r2)); [simpl in *; lia | exact E].
Qed.

(** [json_loads] fails only on a text that is not JSON, never for lack of
    fuel. *)
Lemma json_loads_fuel (s : pystr) :
  parse_value (loads_fuel (skip_ws s)) (skip_ws s) <> PFuel.
Proof. apply parse_fuel_enough. unfold loads_fuel. lia. Qed.

(** ** [to_dict] *)

Lemma to_dict_returns (self : DeveloperTool) : to_dict self = Ok (full_record self).
Proof.
  unfold full_record, to_dict. simpl.
  destruct (parse_json_field_returns (frameworks self)) as [v1 ->].
  destruct (parse_json_field_returns (supported_languages self)) as [v2 ->].
  destruct (parse_json_field_returns (features self)) as [v3 ->].
  destruct (parse_json_field_returns (native_integrations self)) as [v4 ->].
  destruct (parse_json_field_returns (verified_integrations self)) as [v5 ->].
  destruct (parse_json_field_returns (notable_strengths self)) as [v6 ->].
  destruct (parse_json_field_returns (known_limitations self)) as [v7 ->].
  reflexivity.
Qed.

(** Every array-typed key is present in the full record, and holds what
    [_parse_json_field] makes of the column. *)
Lemma full_record_array_field (self : DeveloperTool) (key : string)
    (column : DeveloperTool -> pyval) :
  In (key, column) array_fields ->
  exists v, _parse_json_field (column self) = Ok v
            /\ py_getitem (full_record self) key = Some v.
Proof.
  intros Hin. unfold full_record, to_dict. simpl.
  destruct (parse_json_field_returns (frameworks self)) as [v1 E1].
  destruct (parse_json_field_returns (supported_languages self)) as [v2 E2].
  destruct (parse_json_field_returns (features self)) as [v3 E3].
  destruct (parse_json_field_returns (native_integrations self)) as [v4 E4].
  destruct (parse_json_field_returns (verified_integrations self)) as [v5 E5].
  destruct (parse_json_field_returns (notable_strengths self)) as [v6 E6].
  destruct (parse_json_field_returns (known_limitations self)) as [v7 E7].
  rewrite E1, E2, E3, E4, E5, E6, E7. simpl.
  unfold array_fields in Hin. simpl in Hin.
  repeat (destruct Hin as [Hin|Hin];
          [injection Hin as <- <-; eexists; split; [eassumption | reflexivity]|]).
  destruct Hin.
Qed.

(** An array-typed field that holds nothing, the sentinel, a sequence, a text
    that is not JSON or the text of a JSON array is a sequence in the full
    record. *)
Lemma full_record_sequence (self : DeveloperTool) (key : string)
    (column : DeveloperTool -> pyval) :
  In (key, column) array_fields ->
  (column self = PNone \/ column self = PStr (str "Not specified")
   \/ (exists l, column self = PList l)
   \/ (exists s, column self = PStr s /\ json_loads s = Raise JSONDecodeError)
   \/ (exists s l, column self = PStr s /\ json_loads s = Ok (PList l))) ->
  exists l, py_getitem (full_record self) key = Some (PList l).
Proof.
  intros Hin Hcol.
  destruct (full_record_array_field self key column Hin) as [v [Hv Hk]].
  rewrite Hk.
  destruct Hcol as [H|[H|[[l H]|[[s [H Hs]]|[s [l [H Hs]]]]]]]; rewrite H in Hv.
  - injection Hv as <-. eauto.
  - injection Hv as <-. eauto.
  - injection Hv as <-. eauto.
  - rewrite parse_json_field_str, Hs in Hv.
    destruct (pystr_eqb s _); injection Hv as <-; eauto.
  - rewrite parse_json_field_str, Hs in Hv.
    destruct (pystr_eqb s _); injection Hv as <-; eauto.
Qed.

(** C2 at a stored text that is JSON but not an array. A tool created with
    the payload [{"name": "Cody", "category": "AI Assistant",
    "frameworks": "null"}] is answered with 201 and a full record whose
    [frameworks] is null, not a sequence. *)
Lemma to_dict_array_field_null :
  exists d db',
    create_tool monday (<[str "frameworks" := PStr (str "null")]> cody_payload) []
      = (Ok (jsonify d 201), db')
    /\ py_getitem d "frameworks" = Some PNone
    /\ is_sequence PNone = false.
Proof. do 2 eexists. split; [vm_compute; reflexivity|]. split; reflexivity. Qed.

(** C9 at the same kind of stored text. The text [5] is normalised to the
    integer 5, which is no sequence, and normalising that gives the empty
    sequence: the second pass does not return what the first returned. *)
Lemma parse_json_field_twice_differs :
  _parse_json_field (PStr (str "5")) = Ok (PInt 5)
  /\ _parse_json_field (PInt 5) = Ok (PList [])
  /\ exc_bind (_parse_json_field (PStr (str "5"))) _parse_json_field
     <> _parse_json_field (PStr (str "5")).
Proof. repeat split. vm_compute. discriminate. Qed.

(** On a sequence the normalisation is the identity, so it is idempotent on
    every input that it turns into a sequence. *)
Lemma parse_json_field_idempotent_on_sequences (field_value : pyval) (l : list pyval) :
  _parse_json_field field_value = Ok (PList l) ->
  exc_bind (_parse_json_field field_value) _parse_json_field
  = _parse_json_field field_value.
Proof. intros H. rewrite H. reflexivity. Qed.

(** ** [create_tool] *)

Lemma sql_eq_str (v : pyval) (n : pystr) : sql_eq v (PStr n) = true <-> v = PStr n.
Proof.
  destruct v as [|b|z|x|s|l|d]; simpl; split; intros H; try discriminate.
  - apply pystr_eqb_eq in H. now subst.
  - injection H as ->. apply pystr_eqb_refl.
Qed.

Lemma find_none_existsb {A} (f : A -> bool) (l : list A) :
  List.find f l = None -> existsb f l = false.
Proof.
  induction l as [|x l IH]; simpl; [reflexivity|].
  destruct (f x); [discriminate | exact IH].
Qed.

Lemma find_is_some {A} (f : A -> bool) (l : list A) (x : A) :
  In x l -> f x = true -> exists y, List.find f l = Some y.
Proof.
  intros Hin Hf. destruct (List.find f l) as [y|] eqn:E; [eauto|].
  pose proof (find_none _ _ E x Hin). congruence.
Qed.

Lemma truthy_not_null (v : pyval) : py_truthy v = true -> not_null v = true.
Proof. destruct v; simpl; congruence. Qed.

(** A valid payload whose name some row already has is refused with 409 and
    the table stays as it is. *)
Lemma create_tool_conflict (now : datetime) (data : gmap pystr pyval) (db : table)
    (row : DeveloperTool) :
  py_truthy (dict_get data "name") = true ->
  py_truthy (dict_get data "category") = true ->
  In row db -> sql_eq (name row) (dict_get data "name") = true ->
  create_tool now data db
  = (Ok (jsonify (error_body "Tool with this name already exists") 409), db).
Proof.
  intros Hn Hc Hin Heq. unfold create_tool. rewrite Hn, Hc. simpl.
  destruct (find_is_some (fun r => sql_eq (name r) (dict_get data "name")) db row Hin Heq)
    as [y ->].
  reflexivity.
Qed.

(** A valid payload whose name no row has is stored as a new last row and
    answered with 201 and the full record of that row. *)
Lemma create_tool_created (now : datetime) (data : gmap pystr pyval) (db : table) :
  py_truthy (dict_get data "name") = true ->
  py_truthy (dict_get data "category") = true ->
  (forall row, In row db -> sql_eq (name row) (dict_get data "name") = false) ->
  exists row,
    create_tool now data db = (Ok (jsonify (full_record row) 201), db ++ [row])
    /\ id row = Some (next_id db)
    /\ created_at row = Some now /\ updated_at row = Some now
    /\ Forall (fun c => snd (fst c) row = snd (fst c) (from_dict data)) columns.
Proof.
  intros Hn Hc Hfresh. unfold create_tool. rewrite Hn, Hc. simpl.
  destruct (List.find _ db) as [y|] eqn:E.
  { apply find_some in E as [Hin Heq]. rewrite Hfresh in Heq by exact Hin. discriminate. }
  unfold db_insert.
  change (name (from_dict data)) with (dict_get data "name").
  change (category (from_dict data)) with (dict_get data "category").
  rewrite (truthy_not_null _ Hn), (truthy_not_null _ Hc), (find_none_existsb _ _ E).
  simpl andb. cbv iota.
  eexists. rewrite to_dict_returns. simpl exc_bind.
  split; [reflexivity|].
  repeat split. unfold columns. repeat constructor.
Qed.

(** C7. Creating a tool whose name is exactly that of a stored record is
    answered with Conflict (409) and leaves the table as it is; a name that
    no record has exactly (another spelling in upper and lower case is
    another name) is created; and creating the same tool twice ends with
    Conflict, the table after the second call being that after the first.
    The payload is a valid one: a non-empty name and a category. *)
Theorem create_tool_duplicate_name (now : datetime) (data : gmap pystr pyval)
    (db : table) (n : pystr) :
  dict_get data "name" = PStr n -> n <> [] ->
  py_truthy (dict_get data "category") = true ->
  ((exists row, In row db /\ name row = PStr n) ->
   create_tool now data db
   = (Ok (jsonify (error_body "Tool with this name already exists") 409), db))
  /\ ((forall row, In row db -> name row <> PStr n) ->
      exists row,
        create_tool now data db = (Ok (jsonify (full_record row) 201), db ++ [row])
        /\ name row = PStr n)
  /\ (forall later : datetime,
      let db1 := snd (create_tool now data db) in
      create_tool later data db1
      = (Ok (jsonify (error_body "Tool with this name already exists") 409), db1)
      /\ length (snd (create_tool later data db1)) = length db1).
Proof.
  intros Hname Hne Hcat.
  assert (Hn : py_truthy (dict_get data "name") = true).
  { rewrite Hname. destruct n; [congruence | reflexivity]. }
  assert (Hdup : forall d, (exists row, In row d /\ name row = PStr n) ->
            create_tool now data d
            = (Ok (jsonify (error_body "Tool with this name already exists") 409), d)
            /\ forall later, create_tool later data d
            = (Ok (jsonify (error_body "Tool with this name already exists") 409), d)).
  { intros d [row [Hin Hrow]]. split; [|intros later];
      apply (create_tool_conflict _ data d row Hn Hcat Hin);
      rewrite Hname; now apply sql_eq_str. }
  assert (Hnew : (forall row, In row db -> name row <> PStr n) ->
            exists row,
              create_tool now data db = (Ok (jsonify (full_record row) 201), db ++ [row])
              /\ name row = PStr n).
  { intros Hfresh.
    destruct (create_tool_created now data db Hn Hcat) as (row & Hc & _ & _ & _ & Hcols).
    - intros row Hin. rewrite Hname.
      destruct (sql_eq (name row) (PStr n)) eqn:E; [|reflexivity].
      apply sql_eq_str in E. now apply Hfresh in E.
    - exists row. split; [exact Hc|].
      apply Forall_inv in Hcols. simpl in Hcols. now rewrite Hcols. }
  split; [intros H; now apply Hdup|].
  split; [exact Hnew|].
  intros later db1.
  assert (H1 : exists row, In row db1 /\ name row = PStr n).
  { subst db1.
    destruct (existsb (fun r => sql_eq (name r) (PStr n)) db) eqn:E.
    - apply existsb_exists in E as [row [Hin Hrow]]. apply sql_eq_str in Hrow.
      destruct (Hdup db) as [-> _]; eauto.
    - destruct Hnew as (row & -> & Hrow).
      + intros row Hin Hrow. apply sql_eq_str in Hrow.
        assert (existsb (fun r => sql_eq (name r) (PStr n)) db = true)
          by (apply existsb_exists; eauto).
        congruence.
      + exists row. simpl. split; [apply in_or_app; right; now left | exact Hrow]. }
  destruct (Hdup db1 H1) as [_ H2]. rewrite H2. split; reflexivity.
Qed.

Lemma create_tool_duplicate_name_witness :
  create_tool tuesday cody_payload [cody]
  = (Ok (jsonify (error_body "Tool with this name already exists") 409), [cody])
  /\ (exists row,
        create_tool tuesday
          (payload_of [("name", PStr (str "cody")); ("category", PStr (str "AI Assistant"))]%string)
          [cody]
        = (Ok (jsonify (full_record row) 201), [cody] ++ [row]))
  /\ length (snd (create_tool tuesday cody_payload (snd (create_tool monday cody_payload []))))
     = 1%nat.
Proof.
  split.
  { destruct (create_tool_duplicate_name tuesday cody_payload [cody] (str "Cody")
                eq_refl ltac:(discriminate) eq_refl) as (H & _ & _).
    apply H. exists cody. split; [now left | reflexivity]. }
  split.
  { destruct (create_tool_duplicate_name tuesday
                (payload_of [("name", PStr (str "cody"));
                             ("category", PStr (str "AI Assistant"))]%string)
                [cody] (str "cody") eq_refl ltac:(discriminate) eq_refl) as (_ & H & _).
    destruct H as [row [Hrow _]].
    - intros row [<-|[]]. discriminate.
    - exists row. exact Hrow. }
  destruct (create_tool_duplicate_name monday cody_payload [] (str "Cody")
              eq_refl ltac:(discriminate) eq_refl) as (_ & _ & H).
  destruct (H tuesday) as [_ ->]. reflexivity.
Defined.

(** C2, the part that holds: a created tool whose payload omits an array
    field, or gives it as null, as the sentinel or as a text that is not
    JSON, has a sequence under that key. *)
Lemma create_tool_array_fields (now : datetime) (data : gmap pystr pyval) (db : table)
    (key : string) (column : DeveloperTool -> pyval) :
  py_truthy (dict_get data "name") = true ->
  py_truthy (dict_get data "category") = true ->
  (forall row, In row db -> sql_eq (name row) (dict_get data "name") = false) ->
  In (key, column) array_fields ->
  (data !! str key = None \/ dict_get data key = PNone
   \/ dict_get data key = PStr (str "Not specified")
   \/ exists s, dict_get data key = PStr s /\ json_loads s = Raise JSONDecodeError) ->
  exists d db',
    create_tool now data db = (Ok (jsonify d 201), db')
    /\ py_getitem d key = Some (PList []).
Proof.
  intros Hn Hc Hfresh Hin Hval.
  destruct (create_tool_created now data db Hn Hc Hfresh) as (row & Hcr & _ & _ & _ & Hcols).
  exists (full_record row), (db ++ [row]). split; [exact Hcr|].
  destruct (full_record_array_field row key column Hin) as [v [Hv Hk]].
  rewrite Hk. f_equal.
  assert (Hcol : column row = _serialize_json_field (dict_get data key)).
  { unfold columns in Hcols. rewrite List.Forall_forall in Hcols.
    unfold array_fields in Hin. simpl in Hin.
    repeat (destruct Hin as [Hin|Hin];
            [injection Hin as <- <-;
             match goal with
             | |- ?c row = _serialize_json_field (dict_get data ?k) =>
                 exact (Hcols (k, c, _serialize_json_field) ltac:(simpl; tauto))
             end|]).
    destruct Hin. }
  rewrite Hcol in Hv.
  assert (Hd : dict_get data key = PNone \/ dict_get data key = PStr (str "Not specified")
               \/ exists s, dict_get data key = PStr s /\ json_loads s = Raise JSONDecodeError).
  { destruct Hval as [H|H]; [|exact H]. left. unfold dict_get. now rewrite H. }
  destruct Hd as [H|[H|[s [H Hs]]]]; rewrite H in Hv; simpl in Hv.
  - now injection Hv.
  - now injection Hv.
  - rewrite parse_json_field_str, Hs in Hv. now destruct (pystr_eqb s _); injection Hv.
Qed.

(** ** [update_tool] *)

Lemma get_row_id (tool_id : Z) (db : table) (row : DeveloperTool) :
  get_row tool_id db = Some row -> id row = Some tool_id /\ In row db.
Proof.
  unfold get_row. intros H. apply find_some in H as [Hin Hid]. split; [|exact Hin].
  destruct (id row) as [i|]; simpl in Hid; [|discriminate].
  apply Z.eqb_eq in Hid. now subst.
Qed.


Lemma py_eq_refl : forall v : pyval, py_eq v v = true.
Proof.
  fix IH 1. intros [|b|z|n|s|l|d]; simpl.
  - reflexivity.
  - now destruct b.
  - apply Z.eqb_refl.
  - apply pystr_eqb_refl.
  - apply pystr_eqb_refl.
  - induction l as [|x l IHl]; [reflexivity|]. now rewrite IH, IHl.
  - induction d as [|[k x] d IHd]; [reflexivity|].
    now rewrite pystr_eqb_refl, IH, IHd.
Qed.









(** C10. The update endpoint never answers 409. Renaming a tool to the name
    of another stored tool is not answered at all: the unique constraint of
    the [name] column raises [IntegrityError], which nothing handles, and the
    table stays as it is. The create endpoint does check: the same name
    given to it is answered with 409. *)
Theorem update_tool_no_conflict_check (now : datetime) (tool_id : Z)
    (data : gmap pystr pyval) (db : table) :
  (forall resp db', update_tool now tool_id data db = (Ok resp, db') -> status resp <> 409)
  /\ (forall old other n,
      get_row tool_id db = Some old ->
      data !! str "name" = Some (PStr n) ->
      name old <> PStr n ->
      In other db -> id_eqb (id other) (Some tool_id) = false -> name other = PStr n ->
      update_tool now tool_id data db = (Raise IntegrityError, db))
  /\ (forall other n,
      dict_get data "name" = PStr n -> n <> [] ->
      py_truthy (dict_get data "category") = true ->
      In other db -> name other = PStr n ->
      create_tool now data db
      = (Ok (jsonify (error_body "Tool with this name already exists") 409), db)).
Proof.
  split; [|split].
  - intros resp db' H. unfold update_tool in H.
    destruct (get_row tool_id db) as [old|].
    + destruct (db_update now old (apply_payload old data) db) as [[row|e] d].
      * rewrite to_dict_returns in H. injection H as <- _. discriminate.
      * discriminate.
    + injection H as <- _. discriminate.
  - intros old other n Hget Hn Hne Hin Hid Hother.
    destruct (get_row_id _ _ _ Hget) as [Hold _].
    unfold update_tool. rewrite Hget. unfold db_update.
    assert (Hpe : py_eq (PStr n) (name old) = false).
    { destruct (py_eq (PStr n) (name old)) eqn:E; [|reflexivity].
      destruct (name old); simpl in E; try discriminate.
      apply pystr_eqb_eq in E. congruence. }
    assert (Hch : row_changed old (apply_payload old data) = true).
    { unfold row_changed, columns. cbn [existsb fst snd].
      unfold apply_payload, assign. cbn [name]. rewrite Hn.
      unfold as_is. now rewrite Hpe. }
    rewrite Hch.
    assert (Hname : name (apply_payload old data) = PStr n).
    { unfold apply_payload, assign. cbn [name]. now rewrite Hn. }
    assert (Hf : flush_column (name old) (PStr n) = PStr n)
      by (unfold flush_column; now rewrite Hpe).
    cbn [name category]. rewrite Hname, !Hf, Hpe.
    assert (Hex : existsb (fun o => negb (id_eqb (id o) (id old)) && sql_eq (name o) (PStr n)) db
                  = true).
    { apply existsb_exists. exists other. split; [exact Hin|].
      rewrite Hold, Hid. simpl. now apply sql_eq_str. }
    rewrite Hex. simpl negb. rewrite orb_false_r, andb_false_r. reflexivity.
  - intros other n Hname Hne Hcat Hin Hother.
    apply (create_tool_conflict now data db other); try assumption.
    + rewrite Hname. destruct n; [congruence | reflexivity].
    + rewrite Hname. now apply sql_eq_str.
Qed.

Lemma update_tool_no_conflict_check_witness :
  update_tool tuesday 2 rename_to_cody [cody; cursor] = (Raise IntegrityError, [cody; cursor])
  /\ create_tool tuesday cody_payload [cody; cursor]
     = (Ok (jsonify (error_body "Tool with this name already exists") 409), [cody; cursor])
  /\ status not_found <> 409.
Proof.
  split; [|split].
  - destruct (update_tool_no_conflict_check tuesday 2 rename_to_cody [cody; cursor])
      as (_ & H & _).
    apply (H cursor cody (str "Cody"));
      [reflexivity | reflexivity | discriminate | now left | reflexivity | reflexivity].
  - destruct (update_tool_no_conflict_check tuesday 2 cody_payload [cody; cursor])
      as (_ & _ & H).
    apply (H cody (str "Cody"));
      [reflexivity | discriminate | reflexivity | now left | reflexivity].
  - destruct (update_tool_no_conflict_check tuesday 7 rename_to_cody [cody; cursor])
      as (H & _ & _).
    apply (H not_found [cody; cursor]). reflexivity.
Defined.

(** ** [from_dict] *)

(** C4, as the code has it. [from_dict] normalises nothing: it copies the
    name, category, description, url, pricing and the two scores as the
    payload gives them, turns a sequence given to an array field into its
    JSON text and stores any other value of an array field as it is, the
    sentinel ["Not specified"] included, which only reading the record
    through [_parse_json_field] turns into the empty sequence. Every field that
    the payload does not have stays absent, and so do the id and the
    two timestamps. *)
Theorem from_dict_fields (data : gmap pystr pyval) :
  id (from_dict data) = None
  /\ created_at (from_dict data) = None /\ updated_at (from_dict data) = None
  /\ Forall (fun c =>
       let column := snd (fst c) in
       column (from_dict data) = snd c (dict_get data (fst (fst c)))
       /\ (data !! str (fst (fst c)) = None -> column (from_dict data) = PNone))
       columns
  /\ (forall key column, In (key, column) array_fields ->
      (forall l, dict_get data key = PList l ->
         column (from_dict data) = PStr (json_dumps (PList l)))
      /\ (forall s, dict_get data key = PStr s -> column (from_dict data) = PStr s)
      /\ (dict_get data key = PNone \/ dict_get data key = PStr (str "Not specified") ->
          _parse_json_field (column (from_dict data)) = Ok (PList [])))
  /\ maturity_score (from_dict data) = dict_get data "maturity_score"
  /\ popularity_score (from_dict data) = dict_get data "popularity_score".
Proof.
  split; [reflexivity|]. split; [reflexivity|]. split; [reflexivity|].
  split.
  { unfold columns. repeat constructor; cbn [fst snd]; intros H;
      unfold from_dict, dict_get; simpl; now rewrite H. }
  split; [|split; reflexivity].
  intros key column Hin. unfold array_fields in Hin. simpl in Hin.
  repeat (destruct Hin as [Hin|Hin];
          [injection Hin as <- <-; cbn;
           split; [intros l ->; reflexivity|];
           split; [intros s ->; reflexivity|];
           intros [-> | ->]; reflexivity|]).
  destruct Hin.
Qed.

Lemma from_dict_fields_witness :
  frameworks (from_dict cody_payload) = PNone
  /\ _parse_json_field
       (frameworks (from_dict (<[str "frameworks" := PStr (str "Not specified")]> cody_payload)))
     = Ok (PList []).
Proof.
  split.
  - destruct (from_dict_fields cody_payload) as (_ & _ & _ & H & _).
    unfold columns in H.
    do 4 apply Forall_inv_tail in H. apply Forall_inv in H. cbn [fst snd] in H.
    apply H. reflexivity.
  - destruct (from_dict_fields
                (<[str "frameworks" := PStr (str "Not specified")]> cody_payload))
      as (_ & _ & _ & _ & H & _).
    apply (H "frameworks"%string frameworks); [now left|]. right. reflexivity.
Defined.

(** C4, as the specification states it, fails on a score outside 1..10 and on
    the sentinel of an array field: the draft keeps 99 where the
    normalisation of scores gives absent, and keeps the text
    ["Not specified"] where the normalisation of arrays gives the empty
    sequence. *)
Lemma from_dict_not_normalized :
  maturity_score (from_dict (<[str "maturity_score" := PInt 99]> cody_payload)) = PInt 99
  /\ normalizeScore_spec (PInt 99) = PNone
  /\ frameworks (from_dict (<[str "frameworks" := PStr (str "Not specified")]> cody_payload))
     = PStr (str "Not specified")
  /\ normalizeArrayField_spec (PStr (str "Not specified")) = PList []
  /\ exists d db',
       create_tool monday (<[str "maturity_score" := PInt 99]> cody_payload) []
       = (Ok (jsonify d 201), db')
       /\ py_getitem d "maturity_score" = Some (PInt 99).
Proof.
  repeat split. do 2 eexists. split; [vm_compute; reflexivity | reflexivity].
Qed.

(** ** [get_tools] *)

Lemma map_exc_to_dict (l : table) : map_exc to_dict l = Ok (List.map full_record l).
Proof.
  induction l as [|row l IH]; simpl; [reflexivity|].
  now rewrite to_dict_returns, IH.
Qed.


Lemma get_tools_response (a : args) (db : table) (page requested : Z) :
  int_arg a "page" 1 = Ok page -> int_arg a "per_page" 20 = Ok requested ->
  let per_page := Z.min requested 100 in
  let pagination := paginate (list_query a db) page per_page in
  get_tools a db
  = Ok (jsonify
          (PDict
             [(str "tools", PList (serialize a (items pagination)));
              (str "pagination",
               PDict
                 [(str "page", PInt page);
                  (str "per_page", PInt per_page);
                  (str "total", PInt (total pagination));
                  (str "pages", PInt (pages pagination));
                  (str "has_next", PBool (has_next pagination));
                  (str "has_prev", PBool (has_prev pagination))])])
          200).
Proof.
  intros Hp Hr. unfold get_tools, serialize. rewrite Hp, Hr. simpl exc_bind.
  destruct (pystr_eqb _ _); [reflexivity|].
  now rewrite map_exc_to_dict.
Qed.


Lemma paginate_valid (q : table) (page per_page : Z) :
  1 <= page -> 1 <= per_page ->
  paginate q page per_page
  = {| p_page := page; p_per_page := per_page;
       items := page_slice q page per_page; total := Z.of_nat (length q) |}.
Proof.
  intros Hp Hpp. unfold paginate, page_slice.
  destruct (Z.ltb_spec page 1); [lia|]. destruct (Z.ltb_spec per_page 1); [lia|].
  reflexivity.
Qed.

(** The number of pages is the ceiling of the quotient. *)
Lemma pages_ceiling (q : table) (page per_page : Z) :
  1 <= page -> 1 <= per_page ->
  let np := pages (paginate q page per_page) in
  (np - 1) * per_page < Z.of_nat (length q) <= np * per_page.
Proof.
  intros Hp Hpp. rewrite paginate_valid by assumption. unfold pages. simpl.
  destruct (Z.eqb_spec (Z.of_nat (length q)) 0) as [->|Hn]; [lia|].
  pose proof (Z.div_mod (Z.of_nat (length q) + per_page - 1) per_page ltac:(lia)) as Hd.
  pose proof (Z.mod_pos_bound (Z.of_nat (length q) + per_page - 1) per_page ltac:(lia)) as Hm.
  nia.
Qed.






(** ** [LIKE] and substring search *)

Lemma like_percent (p t : pystr) :
  like_match (percent :: p) t
  = like_match p t
    || match t with [] => false | _ :: t' => like_match (percent :: p) t' end.
Proof. destruct t; reflexivity. Qed.

Lemma like_percent_only (t : pystr) : like_match [percent] t = true.
Proof.
  induction t as [|c t IH]; [reflexivity|].
  rewrite like_percent, IH. apply orb_true_r.
Qed.

Lemma like_prefix (n t : pystr) :
  wildcard_free n = true -> like_match (n ++ [percent]) t = is_prefix n t.
Proof.
  revert t. induction n as [|c n IH]; intros t Hn.
  - apply like_percent_only.
  - simpl in Hn. apply andb_true_iff in Hn as [Hc Hn].
    apply negb_true_iff, orb_false_iff in Hc as [Hp Hu].
    cbn [app like_match is_prefix]. rewrite Hp.
    destruct t as [|x t]; [reflexivity|].
    rewrite Hu, IH by exact Hn. reflexivity.
Qed.

(** With a term free of wild cards, [LIKE '%term%'] is substring search. *)
Lemma like_contains (n t : pystr) :
  wildcard_free n = true -> like_match (contains_pattern n) t = contains n t.
Proof.
  intros Hn. unfold contains_pattern. change ([percent] ++ n ++ [percent])
    with (percent :: (n ++ [percent])).
  induction t as [|c t IH]; rewrite like_percent, like_prefix by exact Hn.
  - reflexivity.
  - cbn [contains]. now rewrite IH.
Qed.



Lemma lower_char_wild (c : N) :
  ((lower_char c =? percent) || (lower_char c =? underscore))%N
  = ((c =? percent) || (c =? underscore))%N.
Proof.
  unfold lower_char, percent, underscore.
  destruct (N.leb_spec 65 c), (N.leb_spec c 90); simpl; try reflexivity.
  destruct (N.eqb_spec (c + 32) 37), (N.eqb_spec (c + 32) 95),
    (N.eqb_spec c 37), (N.eqb_spec c 95); simpl; try reflexivity; lia.
Qed.

Lemma wildcard_free_lower (t : pystr) : wildcard_free (sql_lower t) = wildcard_free t.
Proof.
  induction t as [|c t IH]; [reflexivity|].
  simpl. now rewrite lower_char_wild, IH.
Qed.

Lemma sql_lower_pattern (t : pystr) :
  sql_lower (contains_pattern t) = contains_pattern (sql_lower t).
Proof.
  unfold contains_pattern, sql_lower. rewrite !List.map_app. reflexivity.
Qed.

Lemma ilike_icontains (t : pystr) (column : pyval) :
  wildcard_free t = true ->
  sql_holds (ilike column (contains_pattern t)) = icontains t column.
Proof.
  intros Ht. destruct column; try reflexivity. unfold ilike, icontains.
  rewrite sql_lower_pattern, like_contains by now rewrite wildcard_free_lower.
  now destruct (contains _ _).
Qed.

Lemma sql_holds_or (x y : sqlbool) : sql_holds (sql_or x y) = sql_holds x || sql_holds y.
Proof. destruct x as [[|]|], y as [[|]|]; reflexivity. Qed.

Lemma sql_holds_or_list (conds : list sqlbool) :
  sql_holds (sql_or_list conds) = existsb sql_holds conds.
Proof.
  induction conds as [|c cs IH]; [reflexivity|].
  destruct cs as [|c' cs].
  - simpl. now rewrite orb_false_r.
  - change (sql_or_list (c :: c' :: cs)) with (sql_or c (sql_or_list (c' :: cs))).
    rewrite sql_holds_or, IH. reflexivity.
Qed.

(** ** [search_tools] *)

Lemma filter_filter {A} (f g : A -> bool) (l : list A) :
  List.filter f (List.filter g l) = List.filter (fun x => g x && f x) l.
Proof.
  induction l as [|x l IH]; simpl; [reflexivity|].
  destruct (g x); simpl; [destruct (f x)|]; now rewrite IH.
Qed.

Lemma filter_true {A} (l : list A) : List.filter (fun _ => true) l = l.
Proof. induction l as [|x l IH]; simpl; [reflexivity | now rewrite IH]. Qed.











(** ** The round trip of [json.dumps] and [json.loads] on sequences of strings *)

Lemma hex_val_digit (n : N) : (n < 16)%N -> hex_val (hex_digit n) = Some n.
Proof.
  intros Hn. unfold hex_digit, hex_val.
  destruct (N.ltb_spec n 10).
  - destruct (N.leb_spec 48 (48 + n)), (N.leb_spec (48 + n) 57); simpl; try lia.
    f_equal. lia.
  - destruct (N.leb_spec 48 (87 + n)), (N.leb_spec (87 + n) 57); simpl; try lia.
    destruct (N.leb_spec 97 (87 + n)), (N.leb_spec (87 + n) 102); simpl; try lia.
    f_equal. lia.
Qed.

Lemma hex4_digits (u : N) :
  (u < 65536)%N ->
  hex4 (hex_digit (u / 4096 mod 16)) (hex_digit (u / 256 mod 16))
       (hex_digit (u / 16 mod 16)) (hex_digit (u mod 16)) = Some u.
Proof.
  intros Hu. unfold hex4.
  rewrite !hex_val_digit by (apply N.mod_lt; discriminate).
  f_equal.
  pose proof (N.div_mod u 16 ltac:(discriminate)) as H0.
  pose proof (N.mod_lt u 16 ltac:(discriminate)) as L0.
  assert (E1 : (u / 256 = u / 16 / 16)%N) by (now rewrite N.Div0.div_div).
  assert (E2 : (u / 4096 = u / 16 / 16 / 16)%N) by (now rewrite !N.Div0.div_div).
  rewrite E1, E2.
  set (a := (u / 16)%N) in *.
  pose proof (N.div_mod a 16 ltac:(discriminate)) as H1.
  pose proof (N.mod_lt a 16 ltac:(discriminate)) as L1.
  set (b := (a / 16)%N) in *.
  pose proof (N.div_mod b 16 ltac:(discriminate)) as H2.
  pose proof (N.mod_lt b 16 ltac:(discriminate)) as L2.
  set (c := (b / 16)%N) in *.
  set (r0 := (u mod 16)%N) in *. set (r1 := (a mod 16)%N) in *.
  set (r2 := (b mod 16)%N) in *. clearbody r0 r1 r2. clearbody a b c. clear E1 E2.
  assert (Hc : (c < 16)%N) by lia.
  rewrite (N.mod_small c 16 Hc). lia.
Qed.

Lemma scan_units_u_escape (u : N) (rest : pystr) :
  (u < 65536)%N ->
  scan_units (u_escape u ++ rest)
  = match scan_units rest with
    | Some (us, r) => Some ((true, u) :: us, r)
    | None => None
    end.
Proof.
  intros Hu. unfold u_escape. cbn [app scan_units].
  change (92 =? 34)%N with false. change (92 =? 92)%N with true.
  change (117 =? 117)%N with true. cbv iota.
  now rewrite hex4_digits.
Qed.

Lemma scan_units_encode_char (c : N) (rest : pystr) :
  is_scalar c = true ->
  scan_units (encode_char c ++ rest)
  = match scan_units rest with
    | Some (us, r) => Some (units_of c ++ us, r)
    | None => None
    end.
Proof.
  intros Hc. unfold is_scalar in Hc. apply andb_true_iff in Hc as [Hmax _].
  apply N.ltb_lt in Hmax.
  unfold encode_char, units_of.
  destruct (N.eqb_spec c 34) as [->|H34];
    [cbn; destruct (scan_units rest) as [[us r]|]; reflexivity|].
  destruct (N.eqb_spec c 92) as [->|H92];
    [cbn; destruct (scan_units rest) as [[us r]|]; reflexivity|].
  destruct (N.eqb_spec c 10) as [->|H10];
    [cbn; destruct (scan_units rest) as [[us r]|]; reflexivity|].
  destruct (N.eqb_spec c 13) as [->|H13];
    [cbn; destruct (scan_units rest) as [[us r]|]; reflexivity|].
  destruct (N.eqb_spec c 9) as [->|H9];
    [cbn; destruct (scan_units rest) as [[us r]|]; reflexivity|].
  destruct (N.eqb_spec c 12) as [->|H12];
    [cbn; destruct (scan_units rest) as [[us r]|]; reflexivity|].
  destruct (N.eqb_spec c 8) as [->|H8];
    [cbn; destruct (scan_units rest) as [[us r]|]; reflexivity|].
  rewrite !orb_false_r.
  destruct ((32 <=? c) && (c <=? 126))%N eqn:Hprint.
  - apply andb_true_iff in Hprint as [Hlo Hhi].
    apply N.leb_le in Hlo. cbn [app scan_units].
    rewrite (proj2 (N.eqb_neq c 34) H34), (proj2 (N.eqb_neq c 92) H92).
    destruct (N.ltb_spec c 32); [lia|].
    destruct (scan_units rest) as [[us r]|]; reflexivity.
  - destruct (N.ltb_spec c 65536).
    + now rewrite scan_units_u_escape.
    + rewrite <- app_assoc.
      rewrite scan_units_u_escape, scan_units_u_escape.
      * destruct (scan_units rest) as [[us r]|]; reflexivity.
      * pose proof (N.mod_lt (c - 65536) 1024 ltac:(discriminate)). lia.
      * pose proof (N.mod_lt ((c - 65536) / 1024) 1024 ltac:(discriminate)). lia.
Qed.

Lemma join_surrogates_units (c : N) (us : list (bool * N)) :
  is_scalar c = true ->
  join_surrogates (units_of c ++ us) = c :: join_surrogates us.
Proof.
  intros Hc. unfold is_scalar in Hc. apply andb_true_iff in Hc as [Hmax Hsur].
  apply N.ltb_lt in Hmax. apply negb_true_iff in Hsur.
  unfold units_of.
  destruct (_ || _ || _ || _ || _ || _)%N eqn:Hlit.
  - destruct us as [|[e2 u2] us]; reflexivity.
  - destruct (N.ltb_spec c 65536).
    + assert (Hh : is_high_surrogate c = false).
      { unfold is_high_surrogate.
        destruct (N.leb_spec 55296 c), (N.leb_spec c 56319); try reflexivity.
        destruct (N.leb_spec c 57343); simpl in Hsur; [discriminate | lia]. }
      destruct us as [|[e2 u2] us]; cbn [app join_surrogates]; [reflexivity|].
      now rewrite Hh, andb_false_r.
    + cbn [app join_surrogates andb].
      pose proof (N.div_mod (c - 65536) 1024 ltac:(discriminate)) as Hd.
      pose proof (N.mod_lt (c - 65536) 1024 ltac:(discriminate)) as Hm.
      set (q := ((c - 65536) / 1024)%N) in *.
      set (r := ((c - 65536) mod 1024)%N) in *.
      assert (Hq : (q < 1024)%N) by (clearbody q r; lia).
      rewrite (N.mod_small q 1024 Hq).
      assert (Hhi : is_high_surrogate (55296 + q) = true).
      { unfold is_high_surrogate. apply andb_true_iff.
        split; apply N.leb_le; clearbody q; lia. }
      assert (Hlo : is_low_surrogate (56320 + r) = true).
      { unfold is_low_surrogate. apply andb_true_iff.
        split; apply N.leb_le; clearbody r; lia. }
      rewrite Hhi, Hlo. f_equal. clearbody q r. lia.
Qed.

Lemma scan_units_encode (s rest : pystr) :
  forallb is_scalar s = true ->
  scan_units (concat (List.map encode_char s) ++ 34%N :: rest)
  = Some (concat (List.map units_of s), rest).
Proof.
  induction s as [|c s IH]; intros Hs; [reflexivity|].
  simpl in Hs. apply andb_true_iff in Hs as [Hc Hs].
  cbn [List.map concat]. rewrite <- app_assoc.
  rewrite scan_units_encode_char, IH by assumption. reflexivity.
Qed.

Lemma join_surrogates_encode (s : pystr) :
  forallb is_scalar s = true ->
  join_surrogates (concat (List.map units_of s)) = s.
Proof.
  induction s as [|c s IH]; intros Hs; [reflexivity|].
  simpl in Hs. apply andb_true_iff in Hs as [Hc Hs].
  cbn [List.map concat]. rewrite join_surrogates_units, IH by assumption.
  reflexivity.
Qed.

(** A string of scalar values is read back from its encoding. *)
Lemma parse_value_string (f : nat) (s rest : pystr) :
  forallb is_scalar s = true ->
  parse_value f (encode_string s ++ rest) = POk (PStr s) rest.
Proof.
  intros Hs.
  assert (E : encode_string s ++ rest
              = 34%N :: (concat (List.map encode_char s) ++ 34%N :: rest)).
  { unfold encode_string. cbn [app]. now rewrite <- app_assoc. }
  rewrite E.
  assert (U : forall r, parse_value f (34%N :: r)
                        = match scanstring r with
                          | Some (x, r') => POk (PStr x) r'
                          | None => PErr
                          end) by (intros r; destruct f; reflexivity).
  rewrite U. unfold scanstring.
  rewrite scan_units_encode, join_surrogates_encode by exact Hs. reflexivity.
Qed.

Lemma encode_string_head (s : pystr) : exists t, encode_string s = 34%N :: t.
Proof. unfold encode_string. simpl. eauto. Qed.

Lemma parse_elements_step (f : nat) (s : pystr) (acc : list pyval) :
  parse_elements (S f) s acc
  = match parse_value f s with
    | POk v r =>
        match skip_ws r with
        | c :: r' =>
            if (c =? 93)%N then POk (PList (rev (v :: acc))) r'
            else if (c =? 44)%N then parse_elements f (skip_ws r') (v :: acc)
            else PErr
        | [] => PErr
        end
    | PErr => PErr
    | PFuel => PFuel
    end.
Proof. reflexivity. Qed.

Lemma parse_elements_strings (l : list pystr) :
  forall (f : nat) (x : pystr) (acc : list pyval) (rest : pystr),
    (length l <= f)%nat ->
    forallb (forallb is_scalar) (x :: l) = true ->
    parse_elements (S f)
      (join (str ", ") (List.map encode_string (x :: l)) ++ 93%N :: rest) acc
    = POk (PList (rev acc ++ List.map PStr (x :: l))) rest.
Proof.
  induction l as [|y l IH]; intros f x acc rest Hf Hs;
    cbn [forallb] in Hs; apply andb_true_iff in Hs as [Hx Hs].
  - cbn [List.map join]. rewrite parse_elements_step.
    rewrite parse_value_string by exact Hx. cbn [skip_ws].
    change (json_ws 93) with false. cbv iota.
    change (93 =? 93)%N with true. cbv iota. reflexivity.
  - destruct f as [|f]; [simpl in Hf; lia|].
    change (List.map encode_string (x :: y :: l))
      with (encode_string x :: encode_string y :: List.map encode_string l).
    rewrite join_cons, <- !app_assoc.
    rewrite parse_elements_step. rewrite parse_value_string by exact Hx.
    change (str ", ") with [44%N; 32%N]. cbn [app skip_ws].
    change (json_ws 44) with false. cbv iota.
    change (44 =? 93)%N with false. change (44 =? 44)%N with true. cbv iota.
    change (encode_string y :: List.map encode_string l)
      with (List.map encode_string (y :: l)).
    assert (Hsk : forall t, skip_ws (32%N :: join [44%N; 32%N] (List.map encode_string (y :: l)) ++ t)
                  = join [44%N; 32%N] (List.map encode_string (y :: l)) ++ t).
    { intros t. cbn [skip_ws]. change (json_ws 32) with true. cbv iota.
      destruct (encode_string_head y) as [ty Hy].
      destruct l as [|z l]; cbn [List.map join]; rewrite Hy; reflexivity. }
    rewrite Hsk.
    change [44%N; 32%N] with (str ", ").
    rewrite (IH f y (PStr x :: acc) rest); [|simpl in Hf; lia | exact Hs].
    cbn [rev List.map]. now rewrite <- app_assoc.
Qed.

Lemma join_encode_length (l : list pystr) :
  (length l <= length (join (str ", ") (List.map encode_string l)))%nat.
Proof.
  induction l as [|x l IH]; [simpl; lia|].
  destruct l as [|y l].
  - unfold encode_string. simpl. lia.
  - change (List.map encode_string (x :: y :: l))
      with (encode_string x :: List.map encode_string (y :: l)).
    change (List.map encode_string (y :: l))
      with (encode_string y :: List.map encode_string l) at 1.
    rewrite join_cons.
    change (encode_string y :: List.map encode_string l)
      with (List.map encode_string (y :: l)).
    rewrite !length_app. unfold encode_string at 1. simpl length in *. lia.
Qed.

(** [json.loads(json.dumps(l)) == l] for a sequence of strings. *)
Lemma json_loads_dumps_strings (l : list pystr) :
  forallb (forallb is_scalar) l = true ->
  json_loads (json_dumps (PList (List.map PStr l))) = Ok (PList (List.map PStr l)).
Proof.
  intros Hs. cbn [json_dumps]. rewrite List.map_map.
  change (fun x => json_dumps (PStr x)) with encode_string.
  unfold json_loads. cbn [app skip_ws]. change (json_ws 91) with false. cbv iota.
  unfold loads_fuel.
  set (text := join (str ", ") (List.map encode_string l) ++ [93%N]).
  assert (Hlen : (length l <= length text)%nat).
  { subst text. rewrite length_app. pose proof (join_encode_length l). lia. }
  change (length (91%N :: text)) with (S (length text)).
  replace (2 * S (length text) + 1)%nat with (S (S (2 * length text + 1))) by lia.
  cbn [parse_value]. change (91 =? 34)%N with false.
  change (91 =? 123)%N with false. change (91 =? 91)%N with true. cbv iota.
  destruct l as [|x l].
  - reflexivity.
  - subst text.
    destruct (encode_string_head x) as [tx Hx].
    assert (Hsk : skip_ws (join (str ", ") (List.map encode_string (x :: l)) ++ [93%N])
                  = join (str ", ") (List.map encode_string (x :: l)) ++ [93%N]).
    { destruct l as [|y l]; cbn [List.map join]; rewrite Hx; reflexivity. }
    rewrite Hsk.
    assert (Hhd : exists t, join (str ", ") (List.map encode_string (x :: l)) ++ [93%N]
                            = 34%N :: t).
    { destruct l as [|y l]; cbn [List.map join]; rewrite Hx; simpl; eauto. }
    destruct Hhd as [t Ht]. rewrite Ht. change (34 =? 93)%N with false. cbv iota.
    rewrite <- Ht.
    change (length (x :: l)) with (S (length l)) in Hlen.
    rewrite (parse_elements_strings l _ x [] []); [reflexivity | lia | exact Hs].
Qed.

(** ** [int] and [str] on integers *)

Lemma digit_char (n : Z) :
  0 <= n < 10 ->
  is_digit (Z.to_N (48 + n)) = true /\ digit_val (Z.to_N (48 + n)) = n
  /\ py_isspace (Z.to_N (48 + n)) = false.
Proof.
  intros Hn. destruct n as [|p|p]; [repeat split | | lia].
  do 4 (try destruct p as [p|p|]; try lia); repeat split.
Qed.

Lemma is_digit_not_space (c : N) : is_digit c = true -> py_isspace c = false.
Proof.
  unfold is_digit, py_isspace. intros H. apply andb_true_iff in H as [H1 H2].
  apply N.leb_le in H1. apply N.leb_le in H2.
  repeat match goal with
         | |- context [(?a <=? ?b)%N] => destruct (N.leb_spec a b); try lia
         | |- context [(?a =? ?b)%N] => destruct (N.eqb_spec a b); try lia
         end; reflexivity.
Qed.

(** With fuel for the binary length of [n], the digits of [n] are written in
    front of [acc]: a non-empty run of digits that [int] reads back as [n]. *)
Lemma digits_of_pos_spec (f : nat) :
  forall n acc, 0 <= n < 2 ^ Z.of_nat (S f) ->
    exists ds,
      digits_of_pos (S f) n acc = ds ++ acc
      /\ ds <> [] /\ forallb is_digit ds = true
      /\ (forall seen rest,
            digits_acc seen 0 (ds ++ rest) = digits_acc true n rest).
Proof.
  induction f as [|f IH]; intros n acc Hn.
  - change (2 ^ Z.of_nat 1) with 2 in Hn.
    destruct (digit_char (n mod 10) ltac:(apply Z.mod_pos_bound; lia)) as (Hd & Hv & _).
    exists [Z.to_N (48 + n mod 10)]. cbn [digits_of_pos].
    destruct (Z.ltb_spec n 10); [|lia].
    split; [reflexivity|]. split; [discriminate|]. split; [simpl; now rewrite Hd|].
    intros seen rest. cbn [app digits_acc]. rewrite Hd, Hv.
    rewrite Z.mod_small by lia. reflexivity.
  - destruct (digit_char (n mod 10) ltac:(apply Z.mod_pos_bound; lia)) as (Hd & Hv & _).
    change (digits_of_pos (S (S f)) n acc)
      with (if n <? 10 then Z.to_N (48 + n mod 10) :: acc
            else digits_of_pos (S f) (n / 10) (Z.to_N (48 + n mod 10) :: acc)).
    destruct (Z.ltb_spec n 10).
    + exists [Z.to_N (48 + n mod 10)].
      split; [reflexivity|]. split; [discriminate|]. split; [simpl; now rewrite Hd|].
      intros seen rest. cbn [app digits_acc]. rewrite Hd, Hv.
      rewrite Z.mod_small by lia. reflexivity.
    + assert (Hq : 0 <= n / 10 < 2 ^ Z.of_nat (S f)).
      { split; [apply Z.div_pos; lia|].
        apply Z.div_lt_upper_bound; [lia|].
        rewrite (Nat2Z.inj_succ (S f)), Z.pow_succ_r in Hn by lia. lia. }
      destruct (IH (n / 10) (Z.to_N (48 + n mod 10) :: acc) Hq)
        as (ds & Hds & Hne & Hdig & Hacc).
      exists (ds ++ [Z.to_N (48 + n mod 10)]).
      split; [rewrite Hds, <- app_assoc; reflexivity|].
      split; [destruct ds; discriminate|].
      split; [rewrite forallb_app, Hdig; simpl; now rewrite Hd|].
      intros seen rest. rewrite <- app_assoc. cbn [app].
      rewrite Hacc. cbn [digits_acc]. rewrite Hd, Hv.
      f_equal. pose proof (Z.div_mod n 10 ltac:(lia)). lia.
Qed.

Lemma strip_nonspace (s : pystr) :
  forallb (fun c => negb (py_isspace c)) s = true -> strip s = s.
Proof.
  intros Hs.
  assert (Hl : forall t, forallb (fun c => negb (py_isspace c)) t = true -> lstrip t = t).
  { intros [|c t] Ht; [reflexivity|]. simpl in Ht. apply andb_true_iff in Ht as [Hc _].
    apply negb_true_iff in Hc. simpl. now rewrite Hc. }
  unfold strip, rstrip. rewrite (Hl s Hs), Hl; [apply rev_involutive|].
  rewrite forallb_forall in *. intros c Hc. apply Hs. now apply in_rev.
Qed.

Lemma log2_fuel (z : Z) : 0 <= z -> 0 <= z < 2 ^ Z.of_nat (S (Z.to_nat (Z.log2 z))).
Proof.
  intros Hz. split; [exact Hz|].
  rewrite Nat2Z.inj_succ, Z2Nat.id by apply Z.log2_nonneg.
  destruct (Z.eq_dec z 0) as [->|Hne]; [reflexivity|].
  apply Z.log2_spec. lia.
Qed.

(** [int(str(z)) == z] *)
Lemma py_int_str (z : Z) : py_int (py_str_of_int z) = Some z.
Proof.
  unfold py_str_of_int.
  destruct (Z.ltb_spec z 0).
  - replace (Z.to_nat (Z.log2 (- z)) + 1)%nat with (S (Z.to_nat (Z.log2 (- z)))) by lia.
    destruct (digits_of_pos_spec _ (- z) [] (log2_fuel (- z) ltac:(lia)))
      as (ds & -> & Hne & Hdig & Hacc).
    rewrite app_nil_r. unfold py_int. rewrite strip_nonspace.
    + change (45 =? 45)%N with true. cbv iota.
      specialize (Hacc false []). rewrite app_nil_r in Hacc. rewrite Hacc.
      simpl. f_equal. lia.
    + simpl. rewrite forallb_forall in *. intros c Hc.
      apply negb_true_iff, is_digit_not_space. auto.
  - replace (Z.to_nat (Z.log2 z) + 1)%nat with (S (Z.to_nat (Z.log2 z))) by lia.
    destruct (digits_of_pos_spec _ z [] (log2_fuel z ltac:(lia)))
      as (ds & -> & Hne & Hdig & Hacc).
    rewrite app_nil_r. unfold py_int. rewrite strip_nonspace.
    + destruct ds as [|c r]; [congruence|].
      assert (Hc : is_digit c = true) by (simpl in Hdig; now apply andb_true_iff in Hdig).
      unfold is_digit in Hc. apply andb_true_iff in Hc as [H1 H2].
      apply N.leb_le in H1. apply N.leb_le in H2.
      destruct (N.eqb_spec c 45); [lia|]. destruct (N.eqb_spec c 43); [lia|].
      specialize (Hacc false []). rewrite app_nil_r in Hacc. now rewrite Hacc.
    + rewrite forallb_forall in *. intros c Hc.
      apply negb_true_iff, is_digit_not_space. auto.
Qed.

Lemma py_str_of_int_head (z : Z) :
  exists c r, py_str_of_int z = c :: r /\ strip (py_str_of_int z) = c :: r
              /\ (c = 45%N \/ is_digit c = true).
Proof.
  unfold py_str_of_int.
  destruct (Z.ltb_spec z 0).
  - replace (Z.to_nat (Z.log2 (- z)) + 1)%nat with (S (Z.to_nat (Z.log2 (- z)))) by lia.
    destruct (digits_of_pos_spec _ (- z) [] (log2_fuel (- z) ltac:(lia)))
      as (ds & -> & Hne & Hdig & _).
    rewrite app_nil_r. do 2 eexists. split; [reflexivity|]. split; [|now left].
    apply strip_nonspace. simpl. rewrite forallb_forall in *. intros c Hc.
    apply negb_true_iff, is_digit_not_space. auto.
  - replace (Z.to_nat (Z.log2 z) + 1)%nat with (S (Z.to_nat (Z.log2 z))) by lia.
    destruct (digits_of_pos_spec _ z [] (log2_fuel z ltac:(lia)))
      as (ds & -> & Hne & Hdig & _).
    rewrite app_nil_r. destruct ds as [|c r]; [congruence|].
    exists c, r. split; [reflexivity|]. split.
    + apply strip_nonspace. rewrite forallb_forall in *. intros x Hx.
      apply negb_true_iff, is_digit_not_space. auto.
    + right. simpl in Hdig. now apply andb_true_iff in Hdig.
Qed.

(** ** [parse_score_field] *)

(** The score parser returns, and what it returns is absent or an integer
    from 1 to 10 that the cell denotes. *)
Lemma parse_score_field_returns (cell : option pystr) :
  exists score,
    parse_score_field cell = Ok score
    /\ (forall z, score = Some z ->
          1 <= z <= 10 /\ exists s, cell = Some s /\ py_int s = Some z).
Proof.
  destruct cell as [s|]; [|exists None; split; [reflexivity | discriminate]].
  unfold parse_score_field. destruct (_ || _).
  { exists None. split; [reflexivity | discriminate]. }
  unfold int_of_str. destruct (py_int s) as [z|] eqn:E; simpl.
  - destruct ((1 <=? z) && (z <=? 10)) eqn:R.
    + exists (Some z). split; [reflexivity|]. intros z' Hz. injection Hz as <-.
      apply andb_true_iff in R as [R1 R2]. apply Z.leb_le in R1. apply Z.leb_le in R2.
      split; [lia | eauto].
    + exists None. split; [reflexivity | discriminate].
  - exists None. split; [reflexivity | discriminate].
Qed.

(** X17. The score parser never raises; what it returns is absent or an
    integer from 1 to 10; and on the decimal text of an integer it returns
    that integer when it lies in 1..10 and absent otherwise. *)
Theorem parse_score_field_range :
  (forall cell, exists score,
      parse_score_field cell = Ok score
      /\ (forall z, score = Some z ->
            1 <= z <= 10 /\ exists s, cell = Some s /\ py_int s = Some z))
  /\ (forall z, parse_score_field (Some (py_str_of_int z))
                = Ok (if (1 <=? z) && (z <=? 10) then Some z else None)).
Proof.
  split; [exact parse_score_field_returns|].
  intros z. unfold parse_score_field.
  destruct (py_str_of_int_head z) as (c & r & Hs & Hstrip & Hc).
  assert (Hns : pystr_eqb (c :: r) (str "Not specified") = false).
  { destruct (pystr_eqb (c :: r) (str "Not specified")) eqn:E; [|reflexivity].
    apply pystr_eqb_eq in E. injection E as -> _.
    destruct Hc as [Hc|Hc]; discriminate. }
  rewrite Hstrip, Hns. rewrite Hs at 1. cbn [orb].
  unfold int_of_str. rewrite py_int_str. reflexivity.
Qed.

(** ** [parse_array_field] on a list written with commas *)

Lemma split_no_sep_single (sep : N) (a : pystr) : ~ In sep a -> split sep a = [a].
Proof.
  induction a as [|c a IH]; intros Hn; [reflexivity|].
  simpl. destruct (N.eqb_spec c sep) as [->|Hc]; [exfalso; apply Hn; now left|].
  rewrite IH by (intros H; apply Hn; now right). reflexivity.
Qed.

Lemma split_app_sep (sep : N) (a b : pystr) :
  ~ In sep a -> split sep (a ++ sep :: b) = a :: split sep b.
Proof.
  induction a as [|c a IH]; intros Hn.
  - simpl. now rewrite N.eqb_refl.
  - simpl. destruct (N.eqb_spec c sep) as [->|Hc]; [exfalso; apply Hn; now left|].
    rewrite IH by (intros H; apply Hn; now right). reflexivity.
Qed.

Lemma strip_fixed (x : pystr) : strip x = x -> lstrip x = x /\ rstrip x = x.
Proof.
  intros H. split.
  - rewrite <- H. unfold strip.
    pose proof (lstrip_head x) as Hh.
    destruct (lstrip x) as [|c u]; [reflexivity|].
    rewrite rstrip_cons_nonspace by exact Hh. simpl. now rewrite Hh.
  - rewrite <- H. unfold strip. apply rstrip_idem.
Qed.

Lemma lstrip_app_fixed (x t : pystr) : x <> [] -> lstrip x = x -> lstrip (x ++ t) = x ++ t.
Proof.
  destruct x as [|c x]; [congruence|]. intros _ H. simpl in *.
  destruct (py_isspace c) eqn:E; [|reflexivity].
  exfalso. pose proof (lstrip_head x) as Hh. rewrite H in Hh. congruence.
Qed.

Lemma rstrip_app_fixed (x t : pystr) : x <> [] -> rstrip x = x -> rstrip (t ++ x) = t ++ x.
Proof.
  intros Hne H. unfold rstrip in *. rewrite rev_app_distr.
  rewrite lstrip_app_fixed.
  - now rewrite <- rev_app_distr, rev_involutive.
  - intros E. apply (f_equal (@rev N)) in E. rewrite rev_involutive in E. now subst.
  - apply (f_equal (@rev N)) in H. now rewrite rev_involutive in H.
Qed.

Lemma lstrip_space (x : pystr) : lstrip (32%N :: x) = lstrip x.
Proof. reflexivity. Qed.

Lemma strip_space (x : pystr) : strip (32%N :: x) = strip x.
Proof. unfold strip. now rewrite lstrip_space. Qed.

(** The pieces that the comma and the space of [", "] leave. *)
Lemma split_join_clean (x : pystr) (l : list pystr) :
  Forall clean_item (x :: l) ->
  split comma (join (str ", ") (x :: l)) = x :: List.map (fun y => 32%N :: y) l.
Proof.
  revert x. induction l as [|y l IH]; intros x Hc.
  - apply Forall_inv in Hc as (_ & _ & Hn). simpl. now apply split_no_sep_single.
  - pose proof (Forall_inv Hc) as (_ & _ & Hn). apply Forall_inv_tail in Hc.
    rewrite join_cons. change (str ", ") with [comma; 32%N]. cbn [app].
    rewrite split_app_sep by exact Hn.
    change [comma; 32%N] with (str ", ").
    assert (E : forall t, split comma (32%N :: t)
                          = match split comma t with
                            | w :: ws => (32%N :: w) :: ws
                            | [] => [[32%N]]
                            end) by reflexivity.
    rewrite E, (IH y Hc). reflexivity.
Qed.

Lemma last_cons {A} (l : list A) : forall x y : A, List.last (y :: l) x = List.last l y.
Proof.
  induction l as [|a l IH]; intros x y; [reflexivity|].
  change (List.last (y :: a :: l) x) with (List.last (a :: l) x).
  change (List.last (a :: l) y) with (List.last (a :: l) y).
  now rewrite (IH x a), (IH y a).
Qed.

Lemma join_ends (x : pystr) (l : list pystr) :
  (exists t, join (str ", ") (x :: l) = x ++ t)
  /\ (exists t, join (str ", ") (x :: l) = t ++ List.last l x).
Proof.
  revert x. induction l as [|y l IH]; intros x.
  - split; [exists [] | exists []]; simpl; [now rewrite app_nil_r | reflexivity].
  - rewrite join_cons. split; [eauto|].
    destruct (IH y) as [_ [t Ht]]. rewrite Ht.
    exists (x ++ str ", " ++ t). rewrite <- !app_assoc.
    now rewrite last_cons.
Qed.

Lemma strip_join_clean (x : pystr) (l : list pystr) :
  Forall clean_item (x :: l) ->
  strip (join (str ", ") (x :: l)) = join (str ", ") (x :: l).
Proof.
  intros Hc.
  assert (Hx : clean_item x) by now apply Forall_inv in Hc.
  assert (Hl : clean_item (List.last l x)).
  { rewrite List.Forall_forall in Hc. apply Hc.
    clear. revert x. induction l as [|y l IH]; intros x; [now left|].
    right. rewrite last_cons. apply IH. }
  destruct Hx as (Hxn & Hxs & _). destruct Hl as (Hln & Hls & _).
  apply strip_fixed in Hxs as [Hxl _]. apply strip_fixed in Hls as [_ Hlr].
  destruct (join_ends x l) as [[t1 H1] [t2 H2]].
  unfold strip. rewrite H1 at 1. rewrite lstrip_app_fixed by assumption.
  rewrite <- H1, H2. now apply rstrip_app_fixed.
Qed.

(** X18. A list of clean items (non-empty, trimmed, without a comma) written
    with [", "] between them is parsed back to the same list, unless the text
    is the sentinel, which parses to the empty list. *)
Theorem parse_array_field_join (l : list pystr) :
  Forall clean_item l ->
  l <> [str "Not specified"] ->
  parse_array_field (Some (join (str ", ") l)) = l.
Proof.
  intros Hc Hns. destruct l as [|x l]; [reflexivity|].
  unfold parse_array_field.
  assert (Hne : exists c t, join (str ", ") (x :: l) = c :: t).
  { destruct (join_ends x l) as [[t Ht] _]. rewrite Ht.
    apply Forall_inv in Hc as (Hx & _). destruct x; [congruence | simpl; eauto]. }
  destruct Hne as (c & t & Hj). rewrite Hj at 1. cbn [orb].
  rewrite strip_join_clean by exact Hc.
  assert (Hs : pystr_eqb (join (str ", ") (x :: l)) (str "Not specified") = false).
  { destruct (pystr_eqb _ _) eqn:E; [|reflexivity]. apply pystr_eqb_eq in E.
    exfalso. destruct l as [|y l].
    - simpl in E. congruence.
    - assert (Hin : In comma (join (str ", ") (x :: y :: l))).
      { rewrite join_cons. apply in_or_app. right. now left. }
      rewrite E in Hin. vm_compute in Hin. intuition discriminate. }
  rewrite Hs. rewrite split_join_clean by exact Hc.
  assert (Hall : forall ys, Forall clean_item ys ->
            List.map strip
              (List.filter (fun item => match strip item with [] => false | _ => true end)
                 (List.map (fun y => 32%N :: y) ys)) = ys).
  { induction ys as [|y ys IH]; intros Hi; [reflexivity|].
    pose proof (Forall_inv Hi) as (Hy & Hys & _). apply Forall_inv_tail in Hi.
    cbn [List.map List.filter]. rewrite strip_space, Hys.
    destruct y; [congruence|]. cbn [List.map]. rewrite strip_space, Hys.
    now rewrite IH. }
  pose proof (Forall_inv Hc) as (Hx & Hxs & _). apply Forall_inv_tail in Hc.
  cbn [List.filter]. rewrite Hxs. destruct x as [|c' x']; [congruence|].
  cbn [List.map]. rewrite Hxs. now rewrite Hall.
Qed.

Lemma parse_array_field_join_witness :
  parse_array_field (Some (str "VS Code, JetBrains, GitHub"))
  = [str "VS Code"; str "JetBrains"; str "GitHub"].
Proof.
  apply (parse_array_field_join [str "VS Code"; str "JetBrains"; str "GitHub"]).
  - repeat constructor; try discriminate; vm_compute; intuition discriminate.
  - discriminate.
Defined.

(** ** Round trips through the model and the endpoints *)

(** A sequence of strings that was serialised reads back as it was. *)
Lemma parse_serialized_strings (l : list pystr) :
  forallb (forallb is_scalar) l = true ->
  _parse_json_field (PStr (json_dumps (PList (List.map PStr l))))
  = Ok (PList (List.map PStr l)).
Proof.
  intros Hs. rewrite parse_json_field_str.
  rewrite json_loads_dumps_strings by exact Hs.
  destruct (pystr_eqb _ _) eqn:E; [|reflexivity].
  apply pystr_eqb_eq in E. discriminate.
Qed.

(** X1. An array field written from a sequence of strings reads back as
    that sequence: [_parse_json_field] undoes [_serialize_json_field]. The
    strings hold Unicode scalar values. *)
Theorem serialize_parse_round_trip (l : list pystr) :
  forallb (forallb is_scalar) l = true ->
  _parse_json_field (_serialize_json_field (PList (List.map PStr l)))
  = Ok (PList (List.map PStr l)).
Proof. intros Hs. cbn [_serialize_json_field]. now apply parse_serialized_strings. Qed.

Lemma serialize_parse_round_trip_witness :
  _parse_json_field (_serialize_json_field (PList (List.map PStr vs_code_list)))
  = Ok (PList (List.map PStr vs_code_list)).
Proof. apply serialize_parse_round_trip. reflexivity. Defined.

Lemma full_record_fields (self : DeveloperTool) :
  exists v1 v2 v3 v4 v5 v6 v7,
    _parse_json_field (frameworks self) = Ok v1
    /\ _parse_json_field (supported_languages self) = Ok v2
    /\ _parse_json_field (features self) = Ok v3
    /\ _parse_json_field (native_integrations self) = Ok v4
    /\ _parse_json_field (verified_integrations self) = Ok v5
    /\ _parse_json_field (notable_strengths self) = Ok v6
    /\ _parse_json_field (known_limitations self) = Ok v7
    /\ full_record self
       = PDict
           [(str "id", opt_int (id self)); (str "name", name self);
            (str "category", category self); (str "description", description self);
            (str "url", url self); (str "frameworks", v1);
            (str "supported_languages", v2); (str "features", v3);
            (str "native_integrations", v4); (str "verified_integrations", v5);
            (str "notable_strengths", v6); (str "known_limitations", v7);
            (str "maturity_score", maturity_score self);
            (str "popularity_score", popularity_score self);
            (str "pricing", pricing self);
            (str "created_at", opt_iso (created_at self));
            (str "updated_at", opt_iso (updated_at self))].
Proof.
  destruct (parse_json_field_returns (frameworks self)) as [v1 E1].
  destruct (parse_json_field_returns (supported_languages self)) as [v2 E2].
  destruct (parse_json_field_returns (features self)) as [v3 E3].
  destruct (parse_json_field_returns (native_integrations self)) as [v4 E4].
  destruct (parse_json_field_returns (verified_integrations self)) as [v5 E5].
  destruct (parse_json_field_returns (notable_strengths self)) as [v6 E6].
  destruct (parse_json_field_returns (known_limitations self)) as [v7 E7].
  exists v1, v2, v3, v4, v5, v6, v7.
  repeat (split; [assumption|]).
  unfold full_record, to_dict. simpl. now rewrite E1, E2, E3, E4, E5, E6, E7.
Qed.


Lemma full_record_meta (self : DeveloperTool) :
  py_getitem (full_record self) "id" = Some (opt_int (id self))
  /\ py_getitem (full_record self) "created_at" = Some (opt_iso (created_at self))
  /\ py_getitem (full_record self) "updated_at" = Some (opt_iso (updated_at self)).
Proof.
  destruct (full_record_fields self) as (v1 & v2 & v3 & v4 & v5 & v6 & v7 & _ & _ & _ & _ & _ & _ & _ & ->).
  repeat split.
Qed.






(** ** [get_tool] and [delete_tool] *)

Lemma fold_max_ge (l : list Z) (z : Z) : In z l -> z <= fold_right Z.max 0 l.
Proof.
  induction l as [|x l IH]; [intros []|]. simpl. intros [->|H]; [lia|].
  specialize (IH H). lia.
Qed.

Lemma next_id_fresh (db : table) (row : DeveloperTool) :
  In row db -> id_eqb (id row) (Some (next_id db)) = false.
Proof.
  intros Hin. destruct (id row) as [i|] eqn:E; [|reflexivity]. simpl.
  apply Z.eqb_neq. unfold next_id.
  assert (i <= fold_right Z.max 0 (List.map (fun r => default 0 (id r)) db)).
  { apply fold_max_ge. apply in_map_iff. exists row. split; [now rewrite E | exact Hin]. }
  lia.
Qed.

Lemma find_app_none {A} (f : A -> bool) (l1 l2 : list A) :
  (forall x, In x l1 -> f x = false) ->
  List.find f (l1 ++ l2) = List.find f l2.
Proof.
  induction l1 as [|x l1 IH]; intros H; [reflexivity|].
  simpl. rewrite (H x) by now left. apply IH. intros y Hy. apply H. now right.
Qed.

(** X3. A tool that was just created is found under the id the answer
    gave, and [get_tool] answers 200 with the same full record as the 201 of
    the creation. *)
Theorem get_tool_after_create (now : datetime) (data : gmap pystr pyval) (db : table) :
  py_truthy (dict_get data "name") = true ->
  py_truthy (dict_get data "category") = true ->
  (forall row, In row db -> sql_eq (name row) (dict_get data "name") = false) ->
  exists d db' i,
    create_tool now data db = (Ok (jsonify d 201), db')
    /\ py_getitem d "id" = Some (PInt i)
    /\ get_tool i db' = Ok (jsonify d 200).
Proof.
  intros Hn Hc Hfresh.
  destruct (create_tool_created now data db Hn Hc Hfresh)
    as (row & Hcr & Hid & _).
  exists (full_record row), (db ++ [row]), (next_id db).
  split; [exact Hcr|].
  destruct (full_record_meta row) as (Mi & _). rewrite Mi, Hid.
  split; [reflexivity|].
  unfold get_tool, get_row.
  rewrite find_app_none by (intros r Hr; now apply next_id_fresh).
  simpl. rewrite Hid. simpl. rewrite Z.eqb_refl.
  now rewrite to_dict_returns.
Qed.

Lemma get_tool_after_create_witness :
  exists d db' i,
    create_tool monday cursor_payload [cody] = (Ok (jsonify d 201), db')
    /\ py_getitem d "id" = Some (PInt i)
    /\ get_tool i db' = Ok (jsonify d 200).
Proof.
  apply (get_tool_after_create monday cursor_payload [cody] eq_refl eq_refl).
  intros row [<-|[]]. reflexivity.
Defined.





(** ** [update_tool], repeated and read back *)

Lemma get_row_replaced (tool_id : Z) (db : table) (old new : DeveloperTool) :
  get_row tool_id db = Some old -> id new = Some tool_id ->
  get_row tool_id
    (List.map (fun other => if id_eqb (id other) (Some tool_id) then new else other) db)
  = Some new.
Proof.
  unfold get_row. intros Hget Hnew.
  induction db as [|r db IH]; [discriminate|].
  simpl in *. destruct (id_eqb (id r) (Some tool_id)) eqn:E.
  - rewrite Hnew. simpl. now rewrite Z.eqb_refl.
  - rewrite E. now apply IH.
Qed.

Lemma flush_column_eq (loaded assigned : pyval) :
  py_eq assigned (flush_column loaded assigned) = true.
Proof.
  unfold flush_column. destruct (py_eq assigned loaded) eqn:E; [exact E | apply py_eq_refl].
Qed.

Lemma assign_flushed (data : gmap pystr pyval) (key : string) (convert : pyval -> pyval)
    (loaded : pyval) :
  py_eq (assign data key convert (flush_column loaded (assign data key convert loaded)))
        (flush_column loaded (assign data key convert loaded)) = true.
Proof.
  unfold assign. destruct (data !! str key); [apply flush_column_eq | apply py_eq_refl].
Qed.

(** What the update of a found row does, as one equation. *)
Lemma update_tool_cases (now : datetime) (tool_id : Z) (data : gmap pystr pyval)
    (db : table) (old : DeveloperTool) :
  get_row tool_id db = Some old ->
  update_tool now tool_id data db = (Raise IntegrityError, db)
  \/ update_tool now tool_id data db = (Ok (jsonify (full_record old) 200), db)
     /\ row_changed old (apply_payload old data) = false
  \/ exists new,
       update_tool now tool_id data db
       = (Ok (jsonify (full_record new) 200),
          List.map (fun other => if id_eqb (id other) (Some tool_id) then new else other) db)
       /\ id new = Some tool_id
       /\ row_changed new (apply_payload new data) = false.
Proof.
  intros Hget. destruct (get_row_id _ _ _ Hget) as [Hid _].
  unfold update_tool. rewrite Hget. unfold db_update.
  destruct (row_changed old (apply_payload old data)) eqn:Hch.
  - destruct (_ && _ && _); [|now left].
    right. right. eexists. rewrite to_dict_returns. simpl exc_bind. rewrite Hid.
    split; [reflexivity|]. split; [reflexivity|].
    unfold row_changed, columns. cbn [existsb fst snd].
    unfold apply_payload.
    cbn [name category description url frameworks supported_languages features
         native_integrations verified_integrations notable_strengths
         known_limitations maturity_score popularity_score pricing].
    rewrite !assign_flushed. reflexivity.
  - right. left. rewrite to_dict_returns. split; reflexivity.
Qed.


(** X6. After an update that was answered, fetching the tool gives the
    same answer: the full record that the update returned is the one that is
    stored (and an update answered with 404 is followed by a 404). *)
Theorem get_tool_after_update (now : datetime) (tool_id : Z) (data : gmap pystr pyval)
    (db db' : table) (resp : response) :
  update_tool now tool_id data db = (Ok resp, db') ->
  get_tool tool_id db' = Ok resp.
Proof.
  intros Hup.
  destruct (get_row tool_id db) as [old|] eqn:Hget.
  - destruct (update_tool_cases now tool_id data db old Hget)
      as [H|[[H Hch]|(new & H & Hid & Hch)]]; rewrite H in Hup.
    + discriminate.
    + injection Hup as <- <-. unfold get_tool. rewrite Hget. now rewrite to_dict_returns.
    + injection Hup as <- <-. unfold get_tool.
      rewrite (get_row_replaced tool_id db old new Hget Hid).
      now rewrite to_dict_returns.
  - unfold update_tool in Hup. rewrite Hget in Hup. injection Hup as <- <-.
    unfold get_tool. now rewrite Hget.
Qed.

Lemma get_tool_after_update_witness :
  exists resp db',
    update_tool tuesday 2 new_description [cody; cursor] = (Ok resp, db')
    /\ status resp = 200
    /\ get_tool 2 db' = Ok resp.
Proof.
  pose proof (get_tool_after_update tuesday 2 new_description [cody; cursor]) as H.
  destruct (update_tool tuesday 2 new_description [cody; cursor]) as [[resp|e] db'] eqn:E.
  - exists resp, db'. split; [reflexivity|]. split; [|exact (H db' resp eq_refl)].
    vm_compute in E. injection E as <- _. reflexivity.
  - vm_compute in E. discriminate.
Defined.

(** ** The invariants of the table *)

Lemma pystr_eqb_sym (a b : pystr) : pystr_eqb a b = pystr_eqb b a.
Proof.
  destruct (pystr_eqb a b) eqn:E1, (pystr_eqb b a) eqn:E2; try reflexivity.
  - apply pystr_eqb_eq in E1. subst. now rewrite pystr_eqb_refl in E2.
  - apply pystr_eqb_eq in E2. subst. now rewrite pystr_eqb_refl in E1.
Qed.

Lemma py_eq_sym : forall a b : pyval, py_eq a b = py_eq b a.
Proof.
  fix IH 1. intros [|x|x|x|x|x|x] [|y|y|y|y|y|y]; try reflexivity; cbn [py_eq].
  - now destruct x, y.
  - apply Z.eqb_sym.
  - apply pystr_eqb_sym.
  - apply pystr_eqb_sym.
  - revert y. induction x as [|u x IHx]; intros [|v y]; try reflexivity.
    now rewrite (IH u v), IHx.
  - revert y. induction x as [|[k u] x IHx]; intros [|[k' v] y]; try reflexivity.
    now rewrite (pystr_eqb_sym k k'), (IH u v), IHx.
Qed.

Lemma sql_eq_sym (a b : pyval) : sql_eq a b = sql_eq b a.
Proof.
  unfold sql_eq. destruct a, b; try reflexivity; apply py_eq_sym.
Qed.

Lemma unique_names_app (db : table) (row : DeveloperTool) :
  unique_names db ->
  Forall (fun other => sql_eq (name other) (name row) = false) db ->
  unique_names (db ++ [row]).
Proof.
  induction db as [|r db IH]; intros Hu Hf.
  - simpl. split; [constructor | exact I].
  - destruct Hu as [Hr Hu]. apply Forall_cons_iff in Hf as [Hrr Hf].
    cbn [app unique_names]. split; [|now apply IH].
    apply Forall_app. split; [exact Hr | now constructor].
Qed.

Lemma unique_names_filter (f : DeveloperTool -> bool) (db : table) :
  unique_names db -> unique_names (List.filter f db).
Proof.
  induction db as [|r db IH]; intros Hu; [exact I|].
  destruct Hu as [Hr Hu]. simpl. destruct (f r).
  - split; [|now apply IH].
    rewrite List.Forall_forall in *. intros x Hx. apply Hr.
    now apply filter_In in Hx as [Hx _].
  - now apply IH.
Qed.

(** Two rows of different ids have different names. *)
Lemma unique_names_other (db : table) (r t : DeveloperTool) :
  unique_names db -> In r db -> In t db -> id r <> id t ->
  sql_eq (name r) (name t) = false.
Proof.
  induction db as [|x db IH]; intros Hu Hr Ht Hne; [destruct Hr|].
  destruct Hu as [Hx Hu]. rewrite List.Forall_forall in Hx.
  destruct Hr as [->|Hr], Ht as [->|Ht].
  - congruence.
  - now apply Hx.
  - rewrite sql_eq_sym. now apply Hx.
  - now apply IH.
Qed.

Lemma NoDup_snoc {A} (l : list A) (a : A) :
  List.NoDup l -> ~ In a l -> List.NoDup (l ++ [a]).
Proof.
  intros Hl Ha. apply List.NoDup_rev in Hl.
  rewrite <- (rev_involutive (l ++ [a])). apply List.NoDup_rev.
  rewrite rev_app_distr. simpl. constructor; [|exact Hl].
  intros H. apply Ha. now apply in_rev.
Qed.

Lemma create_tool_table_ok (now : datetime) (data : gmap pystr pyval) (db : table) :
  table_ok db -> table_ok (snd (create_tool now data db)).
Proof.
  intros Hok.
  destruct (py_truthy (dict_get data "name")) eqn:Hn;
    [|unfold create_tool; rewrite Hn; exact Hok].
  destruct (py_truthy (dict_get data "category")) eqn:Hc;
    [|unfold create_tool; rewrite Hn, Hc; exact Hok].
  destruct (List.find (fun row => sql_eq (name row) (dict_get data "name")) db) eqn:Hf.
  { unfold create_tool. rewrite Hn, Hc, Hf. exact Hok. }
  assert (Hfresh : forall row, In row db -> sql_eq (name row) (dict_get data "name") = false)
    by exact (find_none _ _ Hf).
  destruct (create_tool_created now data db Hn Hc Hfresh)
    as (row & -> & Hid & _ & _ & Hcols).
  cbn [snd]. destruct Hok as (Hnd & Hall & Hun).
  assert (Hname : name row = dict_get data "name").
  { apply Forall_inv in Hcols. exact Hcols. }
  assert (Hcat : category row = dict_get data "category").
  { apply Forall_inv_tail, Forall_inv in Hcols. exact Hcols. }
  split; [|split].
  - rewrite List.map_app. apply NoDup_snoc; [exact Hnd|].
    simpl. rewrite Hid. intros Hin. apply in_map_iff in Hin as (r & Hr & Hin).
    pose proof (next_id_fresh db r Hin) as Hfr. rewrite Hr in Hfr. simpl in Hfr.
    now rewrite Z.eqb_refl in Hfr.
  - apply Forall_app. split; [exact Hall|]. constructor; [|constructor].
    rewrite Hid, Hname, Hcat. repeat split; try discriminate.
    + intros E. rewrite E in Hn. discriminate.
    + intros E. rewrite E in Hc. discriminate.
  - apply unique_names_app; [exact Hun|].
    apply List.Forall_forall. intros r Hr. rewrite Hname. now apply Hfresh.
Qed.

Lemma delete_tool_table_ok (tool_id : Z) (db : table) :
  table_ok db -> table_ok (snd (delete_tool tool_id db)).
Proof.
  intros Hok. unfold delete_tool. destruct (get_row tool_id db) as [tool|]; [|exact Hok].
  cbn [snd]. unfold db_delete. destruct Hok as (Hnd & Hall & Hun).
  split; [|split].
  - clear -Hnd. induction db as [|r db IH]; [constructor|].
    simpl in Hnd. apply List.NoDup_cons_iff in Hnd as [Hnot Hnd].
    simpl. destruct (negb _); [|now apply IH].
    simpl. constructor; [|now apply IH].
    intros Hin. apply Hnot. apply in_map_iff in Hin as (x & Hx & Hin).
    apply filter_In in Hin as [Hin _]. apply in_map_iff. eauto.
  - rewrite List.Forall_forall in *. intros x Hx. apply Hall.
    now apply filter_In in Hx as [Hx _].
  - now apply unique_names_filter.
Qed.

Lemma map_replace_ids (tool_id : Z) (new : DeveloperTool) (db : table) :
  id new = Some tool_id ->
  List.map id (List.map (fun other => if id_eqb (id other) (Some tool_id) then new else other) db)
  = List.map id db.
Proof.
  intros Hnew. induction db as [|r db IH]; [reflexivity|].
  simpl. rewrite IH. f_equal.
  destruct (id_eqb (id r) (Some tool_id)) eqn:E; [|reflexivity].
  rewrite Hnew. destruct (id r) as [i|]; [|discriminate]. simpl in E.
  apply Z.eqb_eq in E. now subst.
Qed.

Lemma id_eqb_true (a : option Z) (i : Z) : id_eqb a (Some i) = true <-> a = Some i.
Proof.
  destruct a as [x|]; simpl; [|split; discriminate].
  rewrite Z.eqb_eq. split; congruence.
Qed.

Lemma unique_names_replace (tool_id : Z) (old new : DeveloperTool) (db : table) :
  List.NoDup (List.map id db) -> unique_names db ->
  In old db -> id old = Some tool_id ->
  (name new = name old
   \/ forall other, In other db -> id_eqb (id other) (Some tool_id) = false ->
                    sql_eq (name other) (name new) = false) ->
  unique_names
    (List.map (fun other => if id_eqb (id other) (Some tool_id) then new else other) db).
Proof.
  intros Hnd Hun Hold Hid Hname.
  assert (Hother : forall r, In r db -> id_eqb (id r) (Some tool_id) = false ->
                             sql_eq (name r) (name new) = false).
  { intros r Hr Hrid. destruct Hname as [->|H]; [|now apply H].
    apply (unique_names_other db r old Hun Hr Hold).
    rewrite Hid. intros E. apply id_eqb_true in E. congruence. }
  clear Hname Hold.
  induction db as [|r db IH]; [exact I|].
  simpl in Hnd. apply List.NoDup_cons_iff in Hnd as [Hnot Hnd].
  destruct Hun as [Hr Hun]. cbn [List.map unique_names].
  split.
  - rewrite List.Forall_forall in *. intros x Hx.
    apply in_map_iff in Hx as (y & Hy & Hin).
    destruct (id_eqb (id r) (Some tool_id)) eqn:Er.
    + (* r is the row that is replaced: no other row has its id *)
      apply id_eqb_true in Er.
      assert (Ey : id_eqb (id y) (Some tool_id) = false).
      { destruct (id_eqb (id y) (Some tool_id)) eqn:E; [|reflexivity].
        apply id_eqb_true in E. exfalso. apply Hnot. rewrite Er, <- E.
        now apply in_map. }
      rewrite Ey in Hy. subst x. rewrite sql_eq_sym.
      apply Hother; [now right | exact Ey].
    + destruct (id_eqb (id y) (Some tool_id)) eqn:Ey; subst x.
      * apply Hother; [now left | exact Er].
      * now apply Hr.
  - apply IH; try assumption. intros x Hx. apply Hother. now right.
Qed.

Lemma not_null_spec (v : pyval) : not_null v = true <-> v <> PNone.
Proof. destruct v; simpl; split; congruence. Qed.

Lemma update_tool_table_ok (now : datetime) (tool_id : Z) (data : gmap pystr pyval)
    (db : table) :
  table_ok db -> table_ok (snd (update_tool now tool_id data db)).
Proof.
  intros Hok. unfold update_tool.
  destruct (get_row tool_id db) as [old|] eqn:Hget; [|exact Hok].
  destruct (get_row_id _ _ _ Hget) as [Hid Hin].
  unfold db_update.
  destruct (row_changed old (apply_payload old data)); [|exact Hok].
  set (row := {| id := id old;
                 name := flush_column (name old) (name (apply_payload old data)) |}).
  destruct (not_null (name row) && not_null (category row)
            && (py_eq (name (apply_payload old data)) (name old)
                || negb (existsb (fun other => negb (id_eqb (id other) (id old))
                                               && sql_eq (name other) (name row)) db)))
    eqn:Hchk; [|exact Hok].
  cbn [snd]. apply andb_true_iff in Hchk as [Hnn Huniq].
  apply andb_true_iff in Hnn as [Hn Hc].
  apply not_null_spec in Hn. apply not_null_spec in Hc.
  destruct Hok as (Hnd & Hall & Hun).
  rewrite Hid.
  split; [|split].
  - rewrite map_replace_ids; [exact Hnd | exact Hid].
  - apply List.Forall_forall. intros x Hx. apply in_map_iff in Hx as (y & Hy & Hyin).
    destruct (id_eqb (id y) (Some tool_id)); subst x.
    + repeat split; try assumption. cbn [id row]. rewrite Hid. discriminate.
    + rewrite List.Forall_forall in Hall. now apply Hall.
  - apply (unique_names_replace tool_id old row db Hnd Hun Hin Hid).
    apply orb_true_iff in Huniq as [Hsame|Hno].
    + left. cbn [name row]. unfold flush_column. now rewrite Hsame.
    + right. intros other Ho Hoid. apply negb_true_iff in Hno.
      destruct (sql_eq (name other) (name row)) eqn:E; [|reflexivity].
      assert (existsb (fun o => negb (id_eqb (id o) (id old)) && sql_eq (name o) (name row)) db
              = true).
      { apply existsb_exists. exists other. split; [exact Ho|]. rewrite Hid, Hoid. exact E. }
      congruence.
Qed.

(** X7. The endpoints that write keep the table as its declaration
    promises: every row has an id, a name and a category, no id occurs
    twice and no name occurs twice, after any create, update or delete
    request, answered or refused. *)
Theorem table_ok_preserved (db : table) :
  table_ok db ->
  (forall now data, table_ok (snd (create_tool now data db)))
  /\ (forall now tool_id data, table_ok (snd (update_tool now tool_id data db)))
  /\ (forall tool_id, table_ok (snd (delete_tool tool_id db))).
Proof.
  intros Hok. split; [|split]; intros.
  - now apply create_tool_table_ok.
  - now apply update_tool_table_ok.
  - now apply delete_tool_table_ok.
Qed.

Lemma table_ok_sample : table_ok [cody; cursor; devin].
Proof.
  split; [|split].
  - repeat constructor; simpl; intuition discriminate.
  - repeat constructor; discriminate.
  - simpl. repeat split; repeat constructor.
Qed.

Lemma table_ok_preserved_witness :
  table_ok (snd (create_tool tuesday cody_payload [cody; cursor; devin]))
  /\ table_ok (snd (delete_tool 2 [cody; cursor; devin])).
Proof.
  destruct (table_ok_preserved [cody; cursor; devin] table_ok_sample) as (Hc & _ & Hd).
  split; [apply Hc | apply Hd].
Defined.

(** X8. A delete is final: once a tool is deleted its name is free, and
    a valid create request with that name is answered with 201. *)
Theorem create_after_delete (now : datetime) (tool_id : Z) (data : gmap pystr pyval)
    (db : table) (tool : DeveloperTool) :
  table_ok db ->
  get_row tool_id db = Some tool ->
  dict_get data "name" = name tool ->
  py_truthy (name tool) = true ->
  py_truthy (dict_get data "category") = true ->
  exists d row,
    create_tool now data (snd (delete_tool tool_id db))
    = (Ok (jsonify d 201), snd (delete_tool tool_id db) ++ [row]).
Proof.
  intros (Hnd & Hall & Hun) Hget Hname Hn Hc.
  destruct (get_row_id _ _ _ Hget) as [Hid Hin].
  unfold delete_tool. rewrite Hget. cbn [snd]. unfold db_delete.
  destruct (create_tool_created now data
              (List.filter (fun row => negb (id_eqb (id row) (id tool))) db))
    as (row & Hcr & _); [now rewrite Hname | exact Hc | | eauto].
  intros r Hr. apply filter_In in Hr as [Hr Hrid]. apply negb_true_iff in Hrid.
  rewrite Hname. apply (unique_names_other db r tool Hun Hr Hin).
  intros E. rewrite E, Hid in Hrid. simpl in Hrid. now rewrite Z.eqb_refl in Hrid.
Qed.

Lemma create_after_delete_witness :
  exists d row,
    create_tool tuesday cody_payload (snd (delete_tool 1 [cody; cursor; devin]))
    = (Ok (jsonify d 201), snd (delete_tool 1 [cody; cursor; devin]) ++ [row]).
Proof.
  apply (create_after_delete tuesday 1 cody_payload [cody; cursor; devin] cody
           table_ok_sample); reflexivity.
Defined.

(** ** [get_categories] and [get_stats] *)

Lemma str_leb_refl (a : pystr) : str_leb a a = true.
Proof.
  induction a as [|x a IH]; [reflexivity|]. simpl.
  now rewrite N.eqb_refl, IH, orb_true_r.
Qed.

Lemma str_leb_total (a b : pystr) : str_leb a b = false -> str_leb b a = true.
Proof.
  revert b. induction a as [|x a IH]; intros [|y b] H; try reflexivity; try discriminate.
  simpl in *. apply orb_false_iff in H as [H1 H2].
  apply N.ltb_ge in H1.
  destruct (N.eqb_spec x y) as [->|Hne].
  - simpl in H2. rewrite N.eqb_refl, (IH b H2). apply orb_true_r.
  - assert (Hlt : (y <? x)%N = true) by (apply N.ltb_lt; lia). now rewrite Hlt.
Qed.

Lemma str_leb_antisym (a b : pystr) : str_leb a b = true -> str_leb b a = true -> a = b.
Proof.
  revert b. induction a as [|x a IH]; intros [|y b] H1 H2; try reflexivity; try discriminate.
  simpl in *.
  destruct (N.ltb_spec x y), (N.ltb_spec y x); try lia; simpl in *;
    destruct (N.eqb_spec x y), (N.eqb_spec y x); try lia; try discriminate.
  subst. f_equal. now apply IH.
Qed.

Lemma str_leb_trans (a b c : pystr) :
  str_leb a b = true -> str_leb b c = true -> str_leb a c = true.
Proof.
  revert b c. induction a as [|x a IH]; intros [|y b] [|z c] H1 H2;
    try reflexivity; try discriminate.
  simpl in *.
  destruct (N.ltb_spec x y), (N.ltb_spec y z), (N.ltb_spec x z); try reflexivity;
    simpl in *; try lia;
    destruct (N.eqb_spec x y), (N.eqb_spec y z), (N.eqb_spec x z);
    simpl in *; try lia; try discriminate.
  eapply IH; eassumption.
Qed.

Lemma str_insert_In (x y : pystr) (l : list pystr) :
  In y (str_insert x l) <-> y = x \/ In y l.
Proof.
  induction l as [|z l IH]; simpl; [intuition congruence|].
  destruct (str_leb x z); simpl; [intuition congruence|].
  rewrite IH. intuition congruence.
Qed.

Lemma str_sort_In (y : pystr) (l : list pystr) : In y (str_sort l) <-> In y l.
Proof.
  induction l as [|x l IH]; simpl; [tauto|].
  rewrite str_insert_In, IH. intuition congruence.
Qed.

Lemma str_insert_ascending (x : pystr) (l : list pystr) :
  ascending l -> ~ In x l -> ascending (str_insert x l).
Proof.
  induction l as [|y l IH]; intros Ha Hn.
  - simpl. split; [constructor | exact I].
  - destruct Ha as [Hy Ha]. simpl.
    destruct (str_leb x y) eqn:E.
    + assert (Hxy : str_ltb x y = true).
      { unfold str_ltb. destruct (str_leb y x) eqn:E2; [|reflexivity].
        exfalso. apply Hn. left. now apply str_leb_antisym. }
      split; [|split; assumption].
      constructor; [exact Hxy|].
      rewrite List.Forall_forall in *. intros z Hz. specialize (Hy z Hz).
      unfold str_ltb in *. apply negb_true_iff in Hy, Hxy. apply negb_true_iff.
      destruct (str_leb z x) eqn:E3; [|reflexivity].
      rewrite (str_leb_trans z x y E3 E) in Hy. discriminate.
    + split.
      * rewrite List.Forall_forall in *. intros z Hz.
        apply str_insert_In in Hz as [->|Hz]; [|now apply Hy].
        unfold str_ltb. now rewrite E.
      * apply IH; [exact Ha|]. intros H. apply Hn. now right.
Qed.

Lemma str_sort_ascending (l : list pystr) : List.NoDup l -> ascending (str_sort l).
Proof.
  induction l as [|x l IH]; intros Hnd; [exact I|].
  apply List.NoDup_cons_iff in Hnd as [Hx Hnd]. simpl.
  apply str_insert_ascending; [now apply IH|].
  now rewrite str_sort_In.
Qed.

Lemma insert_sorted_str (x : pystr) (l : list pystr) :
  insert_sorted (PStr x) (List.map PStr l) = Ok (List.map PStr (str_insert x l)).
Proof.
  induction l as [|y l IH]; [reflexivity|].
  simpl. destruct (str_leb x y); simpl; [reflexivity|]. now rewrite IH.
Qed.

Lemma py_sorted_str (l : list pystr) :
  py_sorted (List.map PStr l) = Ok (List.map PStr (str_sort l)).
Proof.
  induction l as [|x l IH]; [reflexivity|].
  simpl. rewrite IH. simpl. apply insert_sorted_str.
Qed.

Lemma py_eq_str (v : pyval) (s : pystr) : py_eq v (PStr s) = true <-> v = PStr s.
Proof.
  destruct v; simpl; split; intros H; try discriminate.
  - apply pystr_eqb_eq in H. now subst.
  - injection H as ->. apply pystr_eqb_refl.
Qed.

Lemma py_eq_null (v : pyval) : py_eq v PNone = true <-> v = PNone.
Proof. destruct v; simpl; split; congruence. Qed.

Lemma py_eq_plain (v w : pyval) : text_or_null w -> (py_eq v w = true <-> v = w).
Proof. intros [->|[s ->]]; [apply py_eq_null | apply py_eq_str]. Qed.

Lemma sql_distinct_In (l : list pyval) (x : pyval) :
  Forall text_or_null l -> (In x (sql_distinct l) <-> In x l).
Proof.
  induction l as [|y l IH]; intros Hl; [tauto|].
  pose proof (Forall_inv Hl) as Hy. apply Forall_inv_tail in Hl.
  simpl. rewrite filter_In, (IH Hl), negb_true_iff.
  split; [tauto|]. intros [->|H]; [now left|].
  destruct (py_eq x y) eqn:E.
  - left. symmetry. now apply (py_eq_plain x y Hy).
  - right. tauto.
Qed.

Lemma sql_distinct_NoDup (l : list pyval) :
  Forall text_or_null l -> List.NoDup (sql_distinct l).
Proof.
  induction l as [|y l IH]; intros Hl; [constructor|].
  pose proof (Forall_inv Hl) as Hy. apply Forall_inv_tail in Hl.
  simpl. constructor.
  - intros H. apply filter_In in H as [_ H]. now rewrite py_eq_refl in H.
  - apply List.NoDup_filter. now apply IH.
Qed.

Lemma filter_truthy_texts (l : list pyval) :
  Forall text_or_null l -> List.filter py_truthy l = List.map PStr (texts l).
Proof.
  induction l as [|x l IH]; intros Hl; [reflexivity|].
  pose proof (Forall_inv Hl) as Hx. apply Forall_inv_tail in Hl.
  destruct Hx as [->|[[|c s] ->]]; simpl; rewrite IH by exact Hl; reflexivity.
Qed.

Lemma texts_In (l : list pyval) (s : pystr) :
  In s (texts l) <-> s <> [] /\ In (PStr s) l.
Proof.
  induction l as [|x l IH]; simpl; [tauto|].
  destruct x as [| | | |[|c t]| |]; simpl; rewrite ?IH;
    try (split; [intros [H1 H2]; split; [exact H1 | now right]
                | intros [H1 [H2|H2]]; [discriminate | tauto]]).
  - split; [intros [H1 H2]; split; [exact H1 | now right]|].
    intros [H1 [H2|H2]]; [injection H2 as <-; congruence | tauto].
  - split.
    + intros [<-|[H1 H2]]; [split; [discriminate | now left] | split; [exact H1 | now right]].
    + intros [H1 [H2|H2]]; [injection H2 as <-; now left | right; tauto].
Qed.

Lemma texts_NoDup (l : list pyval) : List.NoDup l -> List.NoDup (texts l).
Proof.
  induction l as [|x l IH]; intros Hnd; [constructor|].
  apply List.NoDup_cons_iff in Hnd as [Hx Hnd].
  destruct x as [| | | |[|c t]| |]; simpl; try now apply IH.
  constructor; [|now apply IH].
  intros H. apply texts_In in H as [_ H]. contradiction.
Qed.

(** X9. The categories endpoint answers 200 with the categories of the
    table in strictly ascending order of their code points, each once:
    exactly the non-empty texts that some row has as its category. The
    category column holds text or nothing. *)
Theorem get_categories_sorted (db : table) :
  Forall (fun row => text_or_null (category row)) db ->
  exists cats : list pystr,
    get_categories db
    = Ok (jsonify (PDict [(str "categories", PList (List.map PStr cats))]) 200)
    /\ ascending cats
    /\ List.NoDup cats
    /\ (forall s, In s cats <-> s <> [] /\ exists row, In row db /\ category row = PStr s).
Proof.
  intros Hdb.
  assert (Hl : Forall text_or_null (List.map category db)).
  { apply List.Forall_forall. intros v Hv. apply in_map_iff in Hv as (row & <- & Hin).
    rewrite List.Forall_forall in Hdb. now apply Hdb. }
  assert (Hd : Forall text_or_null (sql_distinct (List.map category db))).
  { apply List.Forall_forall. intros v Hv. apply (proj1 (sql_distinct_In _ _ Hl)) in Hv.
    rewrite List.Forall_forall in Hl. now apply Hl. }
  set (ts := texts (sql_distinct (List.map category db))).
  assert (Hnd : List.NoDup ts) by (apply texts_NoDup, sql_distinct_NoDup, Hl).
  exists (str_sort ts).
  split.
  { unfold get_categories. rewrite filter_truthy_texts by exact Hd.
    fold ts. now rewrite py_sorted_str. }
  split; [now apply str_sort_ascending|].
  split.
  { clear -Hnd. induction ts as [|x ts IH]; [constructor|].
    apply List.NoDup_cons_iff in Hnd as [Hx Hnd]. simpl.
    specialize (IH Hnd). revert IH.
    assert (Hx' : ~ In x (str_sort ts)) by now rewrite str_sort_In.
    generalize dependent (str_sort ts). clear.
    induction l as [|y l IH]; intros Hx Hl; simpl.
    - constructor; [tauto | constructor].
    - destruct (str_leb x y); [now constructor|].
      apply List.NoDup_cons_iff in Hl as [Hy Hl]. constructor.
      + rewrite str_insert_In. intros [->|H]; [apply Hx; now left | contradiction].
      + apply IH; [|exact Hl]. intros H. apply Hx. now right. }
  intros s. rewrite str_sort_In. unfold ts. rewrite texts_In, (sql_distinct_In _ _ Hl).
  rewrite in_map_iff. split.
  - intros [Hs (row & Hc & Hin)]. split; [exact Hs|]. eauto.
  - intros [Hs (row & Hin & Hc)]. split; [exact Hs|]. eauto.
Qed.

Lemma get_categories_sorted_witness :
  exists cats : list pystr,
    get_categories assistants_and_editors
    = Ok (jsonify (PDict [(str "categories", PList (List.map PStr cats))]) 200)
    /\ ascending cats.
Proof.
  destruct (get_categories_sorted assistants_and_editors) as (cats & H1 & H2 & _).
  - unfold assistants_and_editors.
    repeat (constructor; [right; eexists; reflexivity|]). constructor.
  - exists cats. split; assumption.
Defined.

Lemma all_text_map (l : list pyval) :
  Forall (fun v => exists s, v = PStr s) l -> exists ts, l = List.map PStr ts.
Proof.
  induction l as [|v l IH]; intros H; [now exists []|].
  pose proof (Forall_inv H) as [s ->]. apply Forall_inv_tail in H.
  destruct (IH H) as [ts ->]. now exists (s :: ts).
Qed.

Lemma count_indicator (ts : list pystr) (c0 : pystr) (f : pystr -> Z) :
  List.NoDup ts -> In c0 ts ->
  fold_right Z.add 0
    (List.map (fun c => (if pystr_eqb c0 c then 1 else 0) + f c) ts)
  = 1 + fold_right Z.add 0 (List.map f ts).
Proof.
  induction ts as [|c ts IH]; intros Hnd Hin; [destruct Hin|].
  apply List.NoDup_cons_iff in Hnd as [Hc Hnd]. simpl.
  destruct Hin as [->|Hin].
  - rewrite pystr_eqb_refl.
    assert (E : List.map (fun c => (if pystr_eqb c0 c then 1 else 0) + f c) ts
                = List.map f ts).
    { apply map_ext_in. intros a Ha.
      destruct (pystr_eqb c0 a) eqn:E; [|reflexivity].
      apply pystr_eqb_eq in E. subst. contradiction. }
    rewrite E. lia.
  - destruct (pystr_eqb c0 c) eqn:E.
    + apply pystr_eqb_eq in E. subst. contradiction.
    + rewrite IH by assumption. lia.
Qed.

Lemma rows_of_category_cons (c : pystr) (row : DeveloperTool) (db : table) (s : pystr) :
  category row = PStr s ->
  Z.of_nat (length (rows_of_category c (row :: db)))
  = (if pystr_eqb s c then 1 else 0) + Z.of_nat (length (rows_of_category c db)).
Proof.
  intros Hs. unfold rows_of_category. simpl. rewrite Hs. simpl.
  destruct (pystr_eqb s c); simpl length; lia.
Qed.

(** The rows of the categories add up to the rows of the table. *)
Lemma sum_rows_of_categories (ts : list pystr) (db : table) :
  List.NoDup ts ->
  (forall row, In row db -> exists c, In c ts /\ category row = PStr c) ->
  fold_right Z.add 0
    (List.map (fun c => Z.of_nat (length (rows_of_category c db))) ts)
  = Z.of_nat (length db).
Proof.
  intros Hnd. induction db as [|row db IH]; intros Hall.
  - simpl. clear. induction ts as [|c ts IH]; simpl; lia.
  - destruct (Hall row ltac:(now left)) as (c0 & Hc0 & Hrow).
    assert (E : List.map (fun c => Z.of_nat (length (rows_of_category c (row :: db)))) ts
                = List.map (fun c => (if pystr_eqb c0 c then 1 else 0)
                                      + Z.of_nat (length (rows_of_category c db))) ts).
    { apply map_ext. intros c. now apply rows_of_category_cons. }
    rewrite E, count_indicator by assumption.
    rewrite IH by (intros r Hr; apply Hall; now right).
    simpl length. lia.
Qed.

(** X10. The statistics endpoint answers 200 with the number of tools,
    the number of distinct categories and one count for each category: no
    category twice, every count the number of rows of its category and at
    least 1, every row counted under its category, and the counts add up to
    the number of tools. Every row has an id and a text as its category. *)
Theorem get_stats_totals (db : table) :
  Forall (fun row => id row <> None /\ exists s, category row = PStr s) db ->
  exists breakdown : list (pystr * Z),
    get_stats db
    = Ok (jsonify
            (PDict
               [(str "total_tools", PInt (Z.of_nat (length db)));
                (str "total_categories", PInt (Z.of_nat (length breakdown)));
                (str "category_breakdown",
                 PDict (List.map (fun kn => (fst kn, PInt (snd kn))) breakdown))])
            200)
    /\ List.NoDup (List.map fst breakdown)
    /\ sum_counts breakdown = Z.of_nat (length db)
    /\ (forall c n, In (c, n) breakdown ->
          n = Z.of_nat (length (rows_of_category c db)) /\ 1 <= n)
    /\ (forall row c, In row db -> category row = PStr c -> exists n, In (c, n) breakdown).
Proof.
  intros Hdb. rewrite List.Forall_forall in Hdb.
  assert (Hl : Forall text_or_null (List.map category db)).
  { apply List.Forall_forall. intros v Hv. apply in_map_iff in Hv as (row & <- & Hin).
    right. now apply Hdb. }
  assert (Ht : Forall (fun v => exists s, v = PStr s) (sql_distinct (List.map category db))).
  { apply List.Forall_forall. intros v Hv. apply (proj1 (sql_distinct_In _ _ Hl)) in Hv.
    apply in_map_iff in Hv as (row & <- & Hin). now apply Hdb. }
  destruct (all_text_map _ Ht) as [ts Hts].
  assert (Hnd : List.NoDup ts).
  { pose proof (sql_distinct_NoDup _ Hl) as H. rewrite Hts in H.
    now apply List.NoDup_map_inv in H. }
  assert (Hmem : forall c, In c ts <-> exists row, In row db /\ category row = PStr c).
  { intros c. split.
    - intros Hin. assert (H : In (PStr c) (List.map PStr ts)) by now apply in_map.
      rewrite <- Hts in H. apply (proj1 (sql_distinct_In _ _ Hl)) in H.
      apply in_map_iff in H as (row & Hc & Hrow). eauto.
    - intros (row & Hrow & Hc).
      assert (H : In (PStr c) (List.map category db)).
      { apply in_map_iff. eauto. }
      apply (proj2 (sql_distinct_In _ _ Hl)) in H. rewrite Hts in H.
      apply in_map_iff in H as (c' & Hc' & Hin). injection Hc' as ->. exact Hin. }
  assert (Hcount : forall c,
            List.filter (fun row => py_eq (category row) (PStr c)
                                    && match id row with Some _ => true | None => false end) db
            = rows_of_category c db).
  { intros c. unfold rows_of_category. apply List.filter_ext_in. intros row Hin.
    destruct (Hdb row Hin) as [Hid _]. destruct (id row); [|congruence].
    apply andb_true_r. }
  exists (List.map (fun c => (c, Z.of_nat (length (rows_of_category c db)))) ts).
  split.
  { unfold get_stats, category_stats. rewrite Hts, List.length_map, List.length_map.
    rewrite List.map_map.
    assert (E : map_exc (fun cc => exc_bind (json_key (fst cc)) (fun k => Ok (k, PInt (snd cc))))
                  (List.map (fun c => (PStr c,
                     Z.of_nat (length (List.filter
                       (fun row => py_eq (category row) (PStr c)
                                   && match id row with Some _ => true | None => false end) db))))
                     ts)
                = Ok (List.map (fun kn => (fst kn, PInt (snd kn)))
                        (List.map (fun c => (c, Z.of_nat (length (rows_of_category c db)))) ts))).
    { clear -Hcount. induction ts as [|c ts IH]; [reflexivity|].
      simpl. rewrite IH, Hcount. reflexivity. }
    rewrite E. reflexivity. }
  split; [rewrite List.map_map; simpl; now rewrite List.map_id|].
  split.
  { unfold sum_counts. rewrite List.map_map. simpl.
    apply sum_rows_of_categories; [exact Hnd|].
    intros row Hin. destruct (Hdb row Hin) as [_ [s Hs]].
    exists s. split; [|exact Hs]. apply Hmem. eauto. }
  split.
  { intros c n Hin. apply in_map_iff in Hin as (c' & Hc & Hin). injection Hc as -> <-.
    split; [reflexivity|].
    apply Hmem in Hin as (row & Hrow & Hcat).
    assert (In row (rows_of_category c db)).
    { unfold rows_of_category. apply filter_In. split; [exact Hrow|].
      rewrite Hcat. apply py_eq_refl. }
    destruct (rows_of_category c db); [contradiction | simpl; lia]. }
  intros row c Hin Hcat. eexists. apply in_map_iff. exists c. split; [reflexivity|].
  apply Hmem. eauto.
Qed.

Lemma get_stats_totals_witness :
  exists breakdown : list (pystr * Z),
    get_stats assistants_and_editors
    = Ok (jsonify
            (PDict
               [(str "total_tools", PInt 3);
                (str "total_categories", PInt (Z.of_nat (length breakdown)));
                (str "category_breakdown",
                 PDict (List.map (fun kn => (fst kn, PInt (snd kn))) breakdown))])
            200)
    /\ sum_counts breakdown = 3.
Proof.
  destruct (get_stats_totals assistants_and_editors) as (b & H1 & _ & H2 & _).
  - unfold assistants_and_editors.
    repeat (constructor; [split; [discriminate | eexists; reflexivity]|]). constructor.
  - exists b. split; assumption.
Defined.

(** ** The pages of [get_tools] *)

Lemma firstn_skipn_app {A} (a b : nat) (l : list A) :
  firstn a l ++ firstn b (skipn a l) = firstn (a + b) l.
Proof.
  revert l. induction a as [|a IH]; intros l; [reflexivity|].
  destruct l as [|x l]; [simpl; now rewrite firstn_nil|].
  simpl. now rewrite IH.
Qed.

Lemma concat_slices {A} (m n : nat) (l : list A) :
  concat (List.map (fun k => firstn m (skipn (k * m) l)) (seq 0 n)) = firstn (n * m) l.
Proof.
  induction n as [|n IH]; [reflexivity|].
  rewrite seq_S, List.map_app, concat_app, IH. simpl.
  rewrite app_nil_r, firstn_skipn_app. f_equal. lia.
Qed.

Lemma serialize_app (a : args) (l1 l2 : table) :
  serialize a (l1 ++ l2) = serialize a l1 ++ serialize a l2.
Proof. unfold serialize. destruct (pystr_eqb _ _); apply List.map_app. Qed.

Lemma serialize_concat (a : args) (ls : list table) :
  serialize a (concat ls) = concat (List.map (serialize a) ls).
Proof.
  induction ls as [|l ls IH]; simpl.
  - unfold serialize. now destruct (pystr_eqb _ _).
  - now rewrite serialize_app, IH.
Qed.

Lemma with_page_get (a : args) (k : nat) (key : string) :
  str key <> str "page" -> args_get (with_page a k) key = args_get a key.
Proof.
  intros H. unfold args_get, with_page, args in *.
  now rewrite lookup_insert_ne by congruence.
Qed.

Lemma get_tools_page (a : args) (db : table) (requested : Z) (k : nat) :
  int_arg a "per_page" 20 = Ok requested -> 1 <= requested -> (1 <= k)%nat ->
  tools_of (get_tools (with_page a k) db)
  = serialize a (page_slice (list_query a db) (Z.of_nat k) (Z.min requested 100)).
Proof.
  intros Hr Hreq Hk.
  assert (Hp : int_arg (with_page a k) "page" 1 = Ok (Z.of_nat k)).
  { unfold int_arg, args_get, with_page, args in *. rewrite lookup_insert_eq.
    unfold int_of_str. now rewrite py_int_str. }
  assert (Hr' : int_arg (with_page a k) "per_page" 20 = Ok requested).
  { unfold int_arg in *. now rewrite with_page_get by discriminate. }
  rewrite (get_tools_response _ db _ _ Hp Hr'). cbv zeta.
  assert (Hq : list_query (with_page a k) db = list_query a db).
  { unfold list_query. now rewrite !with_page_get by discriminate. }
  assert (Hs : forall l, serialize (with_page a k) l = serialize a l).
  { intros l. unfold serialize. now rewrite with_page_get by discriminate. }
  rewrite Hq, Hs, paginate_valid by lia. reflexivity.
Qed.

(** X11. The pages of a listing cut it without loss and without overlap:
    for a page size of at least 1, the tools of the pages 1 to [pages], put
    one after the other, are all the matching tools, each once, in the order
    of the table. *)
Theorem get_tools_pages_partition (a : args) (db : table) (requested : Z) :
  int_arg a "per_page" 20 = Ok requested -> 1 <= requested ->
  let per_page := Z.min requested 100 in
  let np := Z.to_nat (pages (paginate (list_query a db) 1 per_page)) in
  concat (List.map (fun k => tools_of (get_tools (with_page a k) db)) (seq 1 np))
  = serialize a (list_query a db).
Proof.
  intros Hr Hreq per_page np.
  assert (Hpp : 1 <= per_page) by (unfold per_page; lia).
  pose proof (pages_ceiling (list_query a db) 1 per_page ltac:(lia) Hpp) as Hceil.
  cbv zeta in Hceil. set (q := list_query a db) in *.
  assert (E : List.map (fun k => tools_of (get_tools (with_page a k) db)) (seq 1 np)
              = List.map (serialize a)
                  (List.map (fun k => firstn (Z.to_nat per_page)
                                        (skipn (k * Z.to_nat per_page) q)) (seq 0 np))).
  { rewrite <- seq_shift, !List.map_map. apply map_ext_in. intros k Hk.
    rewrite (get_tools_page a db requested (S k) Hr Hreq ltac:(lia)).
    fold per_page. fold q. unfold page_slice. do 3 f_equal. lia. }
  rewrite E, <- serialize_concat, concat_slices. f_equal.
  apply firstn_all2. subst np. nia.
Qed.

Lemma get_tools_pages_partition_witness :
  concat (List.map (fun k => tools_of (get_tools (with_page first_page_of_five k) twelve))
            [1; 2; 3]%nat)
  = List.map full_record twelve.
Proof.
  exact (get_tools_pages_partition first_page_of_five twelve 5 eq_refl ltac:(lia)).
Defined.



(** ** [search_tools] and the filters of [get_tools], for all requests *)





(** X14. The filters of the list endpoint, for terms without a [LIKE]
    wild card: a category term keeps the rows whose category contains it, a
    search term the rows whose name, description or raw features text
    contains it, both without regard to the case of ASCII letters; an empty
    or missing term filters nothing, and a column without text matches no
    term. *)
Theorem list_query_filters (a : args) (db : table) :
  opt_forall wildcard_free (nonempty (args_get a "category")) = true ->
  opt_forall wildcard_free (nonempty (args_get a "search")) = true ->
  list_query a db
  = List.filter
      (fun row =>
         match nonempty (args_get a "category") with
         | Some c => icontains c (category row)
         | None => true
         end
         && match nonempty (args_get a "search") with
            | Some t => icontains t (name row) || icontains t (description row)
                        || icontains t (features row)
            | None => true
            end)
      db.
Proof.
  intros Hc Hs. unfold list_query.
  destruct (nonempty (args_get a "category")) as [c|];
    destruct (nonempty (args_get a "search")) as [t|]; simpl in *.
  - unfold query_filter. rewrite filter_filter. apply List.filter_ext. intros row.
    unfold category_filter, search_filter.
    rewrite sql_holds_or_list. cbn [existsb].
    rewrite !ilike_icontains by assumption. now rewrite orb_false_r, orb_assoc.
  - unfold query_filter. apply List.filter_ext. intros row.
    unfold category_filter. rewrite ilike_icontains by assumption. now rewrite andb_true_r.
  - unfold query_filter. apply List.filter_ext. intros row.
    unfold search_filter. rewrite sql_holds_or_list. cbn [existsb].
    rewrite !ilike_icontains by assumption. now rewrite orb_false_r, orb_assoc.
  - now rewrite filter_true.
Qed.

Lemma list_query_filters_witness :
  list_query search_assistant [cody; cursor; devin] = [cursor].
Proof.
  rewrite (list_query_filters search_assistant [cody; cursor; devin] eq_refl eq_refl).
  reflexivity.
Defined.


(** ** [to_summary_dict] *)

Lemma str_inj (s t : string) : str s = str t -> s = t.
Proof.
  unfold str. revert t. induction s as [|c s IH]; intros [|d t] H; simpl in H;
    try discriminate; [reflexivity|].
  injection H as Hc Hs. f_equal; [|now apply IH].
  rewrite <- (ascii_N_embedding c), <- (ascii_N_embedding d). now rewrite Hc.
Qed.

Lemma pystr_eqb_str (s t : string) : s <> t -> pystr_eqb (str s) (str t) = false.
Proof.
  intros Hne. destruct (pystr_eqb (str s) (str t)) eqn:E; [|reflexivity].
  apply pystr_eqb_eq, str_inj in E. contradiction.
Qed.

(** X16. The summary of a tool is its full record cut down to seven keys:
    under each of [id], [name], [category], [description], [url],
    [maturity_score] and [popularity_score] it holds what the full record
    holds, and it has no other key, so no array field and no timestamp. *)
Theorem to_summary_dict_restricts (self : DeveloperTool) (key : string) :
  (In key summary_keys ->
   exists v, py_getitem (to_summary_dict self) key = Some v
             /\ py_getitem (full_record self) key = Some v)
  /\ (~ In key summary_keys -> py_getitem (to_summary_dict self) key = None).
Proof.
  split.
  - intros Hin.
    destruct (full_record_fields self)
      as (v1 & v2 & v3 & v4 & v5 & v6 & v7 & _ & _ & _ & _ & _ & _ & _ & ->).
    unfold summary_keys in Hin. simpl in Hin.
    repeat (destruct Hin as [<-|Hin]; [eexists; split; reflexivity|]).
    destruct Hin.
  - intros Hn. unfold summary_keys in Hn. simpl in Hn.
    unfold to_summary_dict, py_getitem. cbn [List.find fst].
    rewrite !pystr_eqb_str by (intros E; apply Hn; subst; tauto).
    reflexivity.
Qed.

(** ** The import *)

Lemma split_incl (sep c : N) (s w : pystr) : In w (split sep s) -> In c w -> In c s.
Proof.
  revert w. induction s as [|x s IH]; simpl; intros w Hw Hc.
  - destruct Hw as [<-|[]]. destruct Hc.
  - destruct (x =? sep)%N.
    + destruct Hw as [<-|Hw]; [destruct Hc|]. right. eapply IH; eassumption.
    + pose proof (split_nonempty sep s) as Hne.
      destruct (split sep s) as [|w0 ws]; [congruence|].
      destruct Hw as [<-|Hw].
      * destruct Hc as [->|Hc]; [now left|]. right. apply (IH w0); [now left | exact Hc].
      * right. apply (IH w); [now right | exact Hc].
Qed.

Lemma parse_array_field_scalar (cell : option pystr) :
  (forall s, cell = Some s -> forallb is_scalar s = true) ->
  forallb (forallb is_scalar) (parse_array_field cell) = true.
Proof.
  intros Hs. apply forallb_forall. intros item Hin.
  destruct cell as [s|]; [|destruct Hin].
  specialize (Hs s eq_refl). rewrite forallb_forall in Hs.
  unfold parse_array_field in Hin. destruct (_ || _); [destruct Hin|].
  apply in_map_iff in Hin as (piece & <- & Hp). apply filter_In in Hp as [Hp _].
  apply forallb_forall. intros c Hc. apply Hs.
  apply strip_incl in Hc. eapply split_incl; eassumption.
Qed.

(** An array column of the import reads back as the items of the cell. *)
Lemma array_column_reads_back (cell : option pystr) :
  (forall s, cell = Some s -> forallb is_scalar s = true) ->
  _parse_json_field (array_column cell)
  = Ok (PList (List.map PStr (parse_array_field cell))).
Proof.
  intros Hs. unfold array_column.
  apply parse_serialized_strings. now apply parse_array_field_scalar.
Qed.

Lemma score_column_cases (cell : option pystr) :
  exists v, score_column cell = Ok v
            /\ (v = PNone \/ exists z, v = PInt z /\ 1 <= z <= 10).
Proof.
  unfold score_column.
  destruct (parse_score_field_returns cell) as ([z|] & -> & Hz); simpl.
  - eexists. split; [reflexivity|]. right. exists z. split; [reflexivity|].
    now destruct (Hz z eq_refl).
  - eexists. split; [reflexivity | now left].
Qed.

(** What the body of the loop makes of a row. *)
Lemma import_row_cases (row : csv_row) :
  (import_row row = Raise AttributeError
   /\ exists key, In key ["Name"; "Categories"; "Description"; "URL"; "Pricing"]%string
                  /\ row_get row key = None)
  \/ (import_row row = Ok None
      /\ exists s, row_get row "Name" = Some s /\ strip s = [])
  \/ exists tool n c d u p m q,
       import_row row = Ok (Some tool)
       /\ row_get row "Name" = Some n /\ strip n <> []
       /\ row_get row "Categories" = Some c
       /\ row_get row "Description" = Some d
       /\ row_get row "URL" = Some u
       /\ row_get row "Pricing" = Some p
       /\ score_column (row_get row "Maturity Score") = Ok m
       /\ score_column (row_get row "Popularity Score") = Ok q
       /\ tool
          = {| id := None;
               name := PStr (strip n);
               category := PStr (strip c);
               description := PStr (strip d);
               url := PStr (strip u);
               frameworks := array_column (row_get row "Frameworks");
               supported_languages := array_column (row_get row "Supported_Languages");
               features := array_column (row_get row "Features");
               native_integrations := array_column (row_get row "Native Integrations");
               verified_integrations := array_column (row_get row "Verified Integrations");
               notable_strengths := array_column (row_get row "Notable Strengths");
               known_limitations := array_column (row_get row "Known Limitations");
               maturity_score := m;
               popularity_score := q;
               pricing := PStr (strip p);
               created_at := None;
               updated_at := None |}.
Proof.
  unfold import_row.
  destruct (row_get row "Name") as [n|] eqn:En;
    [|left; split; [reflexivity | exists "Name"%string; simpl; tauto]].
  destruct (row_get row "Categories") as [c|] eqn:Ec;
    [|left; split; [reflexivity | exists "Categories"%string; simpl; tauto]].
  destruct (row_get row "Description") as [d|] eqn:Ed;
    [|left; split; [reflexivity | exists "Description"%string; simpl; tauto]].
  destruct (row_get row "URL") as [u|] eqn:Eu;
    [|left; split; [reflexivity | exists "URL"%string; simpl; tauto]].
  destruct (row_get row "Pricing") as [p|] eqn:Ep;
    [|left; split; [reflexivity | exists "Pricing"%string; simpl; tauto]].
  cbn [strip_cell exc_bind].
  destruct (strip n) as [|x n'] eqn:Hn.
  { right. left. split; [reflexivity|]. eauto. }
  right. right.
  destruct (score_column_cases (row_get row "Maturity Score")) as (m & Hm & _).
  destruct (score_column_cases (row_get row "Popularity Score")) as (q & Hq & _).
  rewrite Hm, Hq. cbn [exc_bind].
  eexists. exists n, c, d, u, p, m, q.
  repeat (split; [first [reflexivity | assumption | rewrite Hn; discriminate]|]).
  now rewrite Hn.
Qed.

(** X19. A row of the file becomes a tool exactly when its five text
    cells are there and its name is not blank. The tool then has the trimmed
    name, every array column of it reads back as a sequence of trimmed,
    non-empty strings without commas (never null), and each score is absent
    or an integer from 1 to 10. A row that lacks one of the five cells
    raises inside the loop and a row with a blank name is passed over:
    neither gives a tool. *)
Theorem import_row_tool (row : csv_row) :
  scalar_row row ->
  (forall tool, import_row row = Ok (Some tool) ->
     (exists n, name tool = PStr n /\ n <> [] /\ strip n = n)
     /\ (exists c, category tool = PStr c)
     /\ (forall key column, In (key, column) array_fields ->
           exists its, _parse_json_field (column tool) = Ok (PList (List.map PStr its))
                         /\ Forall clean_item its)
     /\ (maturity_score tool = PNone
         \/ exists z, maturity_score tool = PInt z /\ 1 <= z <= 10)
     /\ (popularity_score tool = PNone
         \/ exists z, popularity_score tool = PInt z /\ 1 <= z <= 10))
  /\ ((exists tool, import_row row = Ok (Some tool))
      <-> (forall key, In key ["Name"; "Categories"; "Description"; "URL"; "Pricing"]%string ->
             row_get row key <> None)
          /\ exists n, row_get row "Name" = Some n /\ strip n <> []).
Proof.
  intros Hscalar. split.
  - intros tool Htool.
    destruct (import_row_cases row)
      as [[H _]|[[H _]|(t & n & c & d & u & p & m & q & H & Hn & Hne & Hc & Hd & Hu & Hp
                        & Hm & Hq & Ht)]];
      try (rewrite H in Htool; discriminate).
    rewrite H in Htool. injection Htool as <-. subst t. cbn.
    split; [exists (strip n); repeat split; [exact Hne | apply strip_idem]|].
    split; [eauto|].
    split.
    { intros key column Hin. unfold array_fields in Hin. simpl in Hin.
      repeat (destruct Hin as [Hin|Hin];
              [injection Hin as <- <-; cbn;
               eexists; split;
               [apply array_column_reads_back; intros s Hs; eapply Hscalar; exact Hs
               |exact (parse_array_field_items _)]|]).
      destruct Hin. }
    destruct (score_column_cases (row_get row "Maturity Score")) as (m' & Hm' & Hmr).
    destruct (score_column_cases (row_get row "Popularity Score")) as (q' & Hq' & Hqr).
    rewrite Hm in Hm'. rewrite Hq in Hq'. injection Hm' as <-. injection Hq' as <-.
    split; assumption.
  - destruct (import_row_cases row)
      as [[H (key & Hk & Hnone)]|[[H (s & Hs & Hblank)]|(t & n & c & d & u & p & m & q & H
                        & Hn & Hne & Hc & Hd & Hu & Hp & _)]].
    + split.
      * intros [tool Ht]. rewrite H in Ht. discriminate.
      * intros [Hall _]. exfalso. exact (Hall key Hk Hnone).
    + split.
      * intros [tool Ht]. rewrite H in Ht. discriminate.
      * intros [_ (n & Hn & Hne)]. rewrite Hs in Hn. injection Hn as ->. contradiction.
    + split; [|eauto]. intros _. split; [|eauto].
      intros key Hk. simpl in Hk.
      repeat (destruct Hk as [<-|Hk]; [congruence|]). destruct Hk.
Qed.

Lemma row_of_scalar (cells : list (string * string)) :
  forallb (fun kv => forallb is_scalar (str (snd kv))) cells = true ->
  scalar_row (row_of cells).
Proof.
  intros Hc key s Hs. unfold row_get, row_of in Hs.
  destruct (list_to_map _ !! str key) as [v|] eqn:E; simpl in Hs.
  - subst v. apply elem_of_list_to_map_2 in E. apply list_elem_of_In in E.
    apply in_map_iff in E as (kv & Hkv & Hin). injection Hkv as _ <-.
    rewrite forallb_forall in Hc. now apply Hc.
  - now injection Hs as <-.
Qed.

Lemma import_row_tool_witness :
  exists tool,
    import_row cody_row = Ok (Some tool)
    /\ name tool = PStr (str "Cody")
    /\ _parse_json_field (frameworks tool) = Ok (PList [PStr (str "React"); PStr (str "Vue")])
    /\ maturity_score tool = PInt 8 /\ popularity_score tool = PNone.
Proof.
  destruct (import_row_tool cody_row ltac:(unfold cody_row; apply row_of_scalar; reflexivity)) as [H _].
  destruct (import_row cody_row) as [[tool|]|e] eqn:E; try (vm_compute in E; discriminate).
  exists tool. split; [reflexivity|].
  destruct (H tool eq_refl) as (_ & _ & Harr & _).
  destruct (Harr "frameworks"%string frameworks ltac:(simpl; tauto)) as (its & Hits & _).
  vm_compute in E. injection E as <-. repeat split.
Defined.

(** *** The commit of the import *)

Lemma db_insert_raises (now : datetime) (tool : DeveloperTool) (db db' : table) (e : exn) :
  db_insert now tool db = (Raise e, db') -> e = IntegrityError /\ db' = db.
Proof.
  unfold db_insert. destruct (_ && _ && _); intros H; [discriminate|].
  injection H as <- <-. tauto.
Qed.

Lemma next_id_snoc (db : table) (row : DeveloperTool) :
  id row = Some (next_id db) -> next_id (db ++ [row]) = next_id db + 1.
Proof.
  intros Hid. unfold next_id at 1. rewrite List.map_app, fold_right_app. simpl.
  rewrite Hid. simpl.
  assert (H : forall (l : list Z) (b : Z),
             0 <= b -> fold_right Z.max b l = Z.max b (fold_right Z.max 0 l)).
  { induction l as [|x l IH]; intros b Hb; simpl; [lia|]. rewrite (IH b Hb). lia. }
  assert (H0 : 0 <= fold_right Z.max 0 (List.map (fun r => default 0 (id r)) db)).
  { generalize (List.map (fun r => default 0 (id r)) db). induction l; simpl; lia. }
  rewrite H by lia. unfold next_id in *. lia.
Qed.

Lemma insert_all_ok (now : datetime) (tools : list DeveloperTool) :
  forall db,
    Forall imported_shape tools ->
    List.NoDup (List.map name tools) ->
    (forall tool row, In tool tools -> In row db -> name row <> name tool) ->
    table_ok db ->
    exists db',
      insert_all now tools db = Ok db'
      /\ table_ok db'
      /\ List.map name db' = List.map name db ++ List.map name tools
      /\ List.map id db'
         = List.map id db
           ++ List.map (fun k => Some (next_id db + Z.of_nat k)) (seq 0 (length tools))
      /\ Forall (fun row => In row db \/ (created_at row = Some now /\ updated_at row = Some now))
           db'.
Proof.
  induction tools as [|tool tools IH]; intros db Hshape Hnd Hfresh Hok.
  - exists db. simpl. rewrite !app_nil_r.
    split; [reflexivity|]. split; [exact Hok|]. split; [reflexivity|]. split; [reflexivity|].
    apply List.Forall_forall. tauto.
  - pose proof (Forall_inv Hshape) as [[n Hn] [c Hc]]. apply Forall_inv_tail in Hshape.
    simpl in Hnd. apply List.NoDup_cons_iff in Hnd as [Hnot Hnd].
    cbn [insert_all]. unfold db_insert. rewrite Hn, Hc. cbn [not_null andb].
    assert (Hex : existsb (fun row => sql_eq (name row) (PStr n)) db = false).
    { destruct (existsb _ db) eqn:E; [|reflexivity].
      apply existsb_exists in E as (row & Hin & Hrow). apply sql_eq_str in Hrow.
      exfalso. apply (Hfresh tool row); [now left | exact Hin | congruence]. }
    rewrite Hex. cbn [negb].
    set (row := {| id := Some (next_id db); name := PStr n |}).
    assert (Hok' : table_ok (db ++ [row])).
    { destruct Hok as (H1 & H2 & H3). split; [|split].
      - rewrite List.map_app. apply NoDup_snoc; [exact H1|]. simpl.
        intros Hin. apply in_map_iff in Hin as (r & Hr & Hin).
        pose proof (next_id_fresh db r Hin) as Hfr. rewrite Hr in Hfr. simpl in Hfr.
        now rewrite Z.eqb_refl in Hfr.
      - apply Forall_app. split; [exact H2|]. constructor; [|constructor].
        subst row. cbn. repeat split; discriminate.
      - apply unique_names_app; [exact H3|]. apply List.Forall_forall. intros r Hr.
        subst row. cbn. destruct (sql_eq (name r) (PStr n)) eqn:E; [|reflexivity].
        apply sql_eq_str in E. exfalso.
        apply (Hfresh tool r); [now left | exact Hr | congruence]. }
    destruct (IH (db ++ [row]) Hshape Hnd) as (db' & Hins & Hok'' & Hnames & Hids & Hts).
    + intros t r Ht Hr. apply in_app_or in Hr as [Hr|[<-|[]]].
      * apply Hfresh; [now right | exact Hr].
      * subst row. cbn. rewrite <- Hn. intros E. apply Hnot. rewrite E.
        now apply in_map.
    + exact Hok'.
    + exists db'. split; [exact Hins|]. split; [exact Hok''|].
      split; [|split].
      * rewrite Hnames, List.map_app, <- app_assoc. subst row. cbn. now rewrite Hn.
      * rewrite Hids, List.map_app, <- app_assoc. f_equal. cbn [List.map app length].
        rewrite next_id_snoc by reflexivity.
        change (seq 0 (S (length tools))) with (0%nat :: seq 1 (length tools)).
        cbn [List.map]. subst row. cbn [id]. f_equal; [f_equal; lia|].
        rewrite <- seq_shift, List.map_map. apply map_ext. intros k. f_equal. lia.
      * rewrite List.Forall_forall in *. intros r Hr.
        destruct (Hts r Hr) as [Hin|Ht]; [|now right].
        apply in_app_or in Hin as [Hin|[<-|[]]]; [now left|]. right. subst row. now cbn.
Qed.

Lemma insert_all_result (now : datetime) (tools : list DeveloperTool) :
  forall db,
    Forall imported_shape tools ->
    (forall e, insert_all now tools db = Raise e -> e = IntegrityError)
    /\ (forall db', insert_all now tools db = Ok db' ->
          List.NoDup (List.map name tools)
          /\ forall tool row, In tool tools -> In row db -> name row <> name tool).
Proof.
  induction tools as [|tool tools IH]; intros db Hshape.
  - split; [discriminate|]. intros db' _. split; [constructor|]. intros t r [].
  - pose proof (Forall_inv Hshape) as [[n Hn] [c Hc]]. apply Forall_inv_tail in Hshape.
    cbn [insert_all].
    destruct (db_insert now tool db) as [[row|e0] d] eqn:E.
    + assert (Hd : d = db ++ [row] /\ name row = name tool
                   /\ existsb (fun r => sql_eq (name r) (name tool)) db = false).
      { unfold db_insert in E. destruct (_ && _ && negb (existsb _ db)) eqn:Hc'; [|discriminate].
        injection E as <- <-. repeat split.
        apply andb_true_iff in Hc' as [_ Hc']. now apply negb_true_iff in Hc'. }
      destruct Hd as (-> & Hrow & Hex).
      destruct (IH (db ++ [row]) Hshape) as [Hr Ho].
      split; [exact Hr|]. intros db' Hins. destruct (Ho db' Hins) as [Hnd Hfr].
      split.
      * simpl. constructor; [|exact Hnd].
        intros Hin. apply in_map_iff in Hin as (t & Ht & Hin).
        apply (Hfr t row Hin); [apply in_or_app; right; now left | congruence].
      * intros t r [<-|Ht] Hr'.
        -- intros Heq. rewrite Hn in Heq.
           assert (existsb (fun r0 => sql_eq (name r0) (name tool)) db = true).
           { apply existsb_exists. exists r. split; [exact Hr'|]. rewrite Hn.
             now apply sql_eq_str. }
           congruence.
        -- apply Hfr; [exact Ht | apply in_or_app; now left].
    + apply db_insert_raises in E as [-> ->].
      split; [intros e H; now injection H | discriminate].
Qed.

Lemma pending_tools_shape (rows : list csv_row) :
  Forall imported_shape (pending_tools rows)
  /\ forall tool, In tool (pending_tools rows) ->
       exists row, In row rows /\ import_row row = Ok (Some tool).
Proof.
  induction rows as [|row rows [IH1 IH2]]; [split; [constructor | intros t []]|].
  cbn [pending_tools].
  destruct (import_row_cases row)
    as [[H _]|[[H _]|(t & n & c & d & u & p & m & q & H & _ & _ & _ & _ & _ & _ & _ & _ & Ht)]];
    rewrite H.
  - split; [exact IH1|]. intros t Ht. destruct (IH2 t Ht) as (r & Hr & Hi).
    exists r. split; [now right | exact Hi].
  - split; [exact IH1|]. intros t Ht. destruct (IH2 t Ht) as (r & Hr & Hi).
    exists r. split; [now right | exact Hi].
  - split.
    + constructor; [|exact IH1]. subst t. split; eexists; reflexivity.
    + intros t' [<-|Ht']; [exists row; split; [now left | exact H]|].
      destruct (IH2 t' Ht') as (r & Hr & Hi). exists r. split; [now right | exact Hi].
Qed.

Lemma pending_tools_complete (rows : list csv_row) (row : csv_row) (tool : DeveloperTool) :
  In row rows -> import_row row = Ok (Some tool) -> In tool (pending_tools rows).
Proof.
  induction rows as [|r rows IH]; [intros []|]. intros [<-|Hin] Hrow; cbn [pending_tools].
  - rewrite Hrow. now left.
  - destruct (import_row r) as [[t|]|e]; [right| |]; now apply IH.
Qed.

Lemma table_ok_nil : table_ok [].
Proof. split; [constructor | split; [constructor | exact I]]. Qed.

(** X20. The import of a file that is there replaces the table by the
    tools of the file, all or none. The tools to store are those that the
    body of the loop makes of the rows; a row whose body raises or that has
    no name is passed over. When the names of these tools are distinct the
    import returns [True]: the table holds them in the order of the file
    with the ids 1, 2, ..., whatever it held before, and it is well formed.
    When a name occurs twice the commit raises [IntegrityError], which
    leaves the function, and the table is left empty. Nothing else can
    happen. *)
Theorem import_tools_all_or_nothing (now : datetime) (rows : list csv_row) (db : table) :
  let tools := pending_tools rows in
  (List.NoDup (List.map name tools) ->
   exists db',
     import_tools_from_csv now rows db = (Ok true, db')
     /\ table_ok db'
     /\ List.map name db' = List.map name tools
     /\ List.map id db' = List.map (fun k => Some (Z.of_nat k)) (seq 1 (length tools)))
  /\ (~ List.NoDup (List.map name tools) ->
      import_tools_from_csv now rows db = (Raise IntegrityError, []))
  /\ (forall tool, In tool tools <->
        exists row, In row rows /\ import_row row = Ok (Some tool)).
Proof.
  intros tools. destruct (pending_tools_shape rows) as [Hshape Hrows]. fold tools in Hshape.
  split; [|split].
  3:{ intros tool. split; [apply Hrows|].
      intros (row & Hin & Hrow). exact (pending_tools_complete rows row tool Hin Hrow). }
  - intros Hnd.
    destruct (insert_all_ok now tools [] Hshape Hnd ltac:(intros t r _ []) table_ok_nil)
      as (db' & Hins & Hok & Hnames & Hids & Hts).
    exists db'. unfold import_tools_from_csv. fold tools. rewrite Hins.
    split; [reflexivity|]. split; [exact Hok|]. split; [exact Hnames|].
    rewrite Hids. simpl. rewrite <- seq_shift, List.map_map. apply map_ext.
    intros k. f_equal. unfold next_id. simpl. lia.
  - intros Hdup. unfold import_tools_from_csv. fold tools.
    destruct (insert_all_result now tools [] Hshape) as [Hr Ho].
    destruct (insert_all now tools []) as [db'|e] eqn:E.
    + exfalso. apply Hdup. now destruct (Ho db' eq_refl).
    + now rewrite (Hr e eq_refl).
Qed.

Lemma import_tools_all_or_nothing_witness :
  (exists db',
     import_tools_from_csv monday [cody_row; blank_row; short_row; cursor_row] [devin]
     = (Ok true, db')
     /\ List.map name db' = [PStr (str "Cody"); PStr (str "Cursor")]
     /\ List.map id db' = [Some 1; Some 2])
  /\ import_tools_from_csv monday [cody_row; cursor_row; cody_row] [devin]
     = (Raise IntegrityError, []).
Proof.
  split.
  - destruct (import_tools_all_or_nothing monday
                [cody_row; blank_row; short_row; cursor_row] [devin]) as (H & _ & _).
    destruct H as (db' & H1 & _ & H2 & H3).
    + vm_compute. repeat constructor; simpl; intuition discriminate.
    + exists db'. split; [exact H1|]. split; [rewrite H2 | rewrite H3]; reflexivity.
  - destruct (import_tools_all_or_nothing monday [cody_row; cursor_row; cody_row] [devin])
      as (_ & H & _).
    apply H. intros Hnd. vm_compute in Hnd.
    apply List.NoDup_cons_iff in Hnd as [Hn _]. apply Hn. right. now left.
Defined.
